(** * gcloud-agent: a shallow embedding of the three generators

    The repository holds three independent Python scripts:
    - [claude45sonnet/main.py]: an LLM-backed generator that validates its
      output against [gcloud ... --help] and retries (module [Sonnet]);
    - [gpt5pro/main.py]: an index-based generator with a scoring heuristic,
      a help-text scraper and a renderer (module [CmdGen]);
    - [gpt5pro/simplified/main.py]: a keyword-to-template generator
      (module [Simplified]; module [SimplifiedRun] has the same functions
      with the module-level tables as the state of a process).

    Python [str] values are modelled as lists of code points below 256
    (Rocq's [ascii], read as Latin-1); the character classes follow the
    Unicode database on that range.  Subprocess calls and the generative
    API are oracles passed as arguments. *)

From stdpp Require Import base list gmap strings.
From Stdlib Require Import Ascii ZArith Lia Sorted.

Set Warnings "-via-type-remapping,-via-type-mismatch".

(** ** Python strings *)

Definition str := list ascii.

Definition str_parse (b : list Byte.byte) : string := String.string_of_list_byte b.
Definition str_print (s : string) : list Byte.byte := String.list_byte_of_string s.

Declare Scope str_scope.
Delimit Scope str_scope with str.
String Notation str str_parse str_print
  (via string mapping [[nil] => EmptyString, [cons] => String]) : str_scope.
Open Scope str_scope.

Module PyStr.

Definition ord (c : ascii) : N := N_of_ascii c.

Definition in_range (lo hi : N) (c : ascii) : bool :=
  ((lo <=? ord c) && (ord c <=? hi))%N.

(** [str.isspace] on one code point; the regex class [\s] is the same. *)
Definition is_space (c : ascii) : bool :=
  in_range 9 13 c || in_range 28 32 c || in_range 133 133 c || in_range 160 160 c.

(** The regex class [\w]: alphanumerics and the underscore. *)
Definition is_word (c : ascii) : bool :=
  in_range 48 57 c || in_range 65 90 c || in_range 95 95 c || in_range 97 122 c
  || in_range 170 170 c || in_range 178 179 c || in_range 181 181 c
  || in_range 185 186 c || in_range 188 190 c || in_range 192 214 c
  || in_range 216 246 c || in_range 248 255 c.

(** [[a-z0-9]] and [[a-z0-9\-]] of the flag pattern. *)
Definition is_lower_digit (c : ascii) : bool :=
  in_range 97 122 c || in_range 48 57 c.

Definition is_flag_char (c : ascii) : bool :=
  is_lower_digit c || in_range 45 45 c.

(** [[A-Z]], [[A-Z0-9_\-]]. *)
Definition is_upper (c : ascii) : bool := in_range 65 90 c.

Definition lower_char (c : ascii) : ascii :=
  if in_range 65 90 c || in_range 192 214 c || in_range 216 222 c
  then ascii_of_N (ord c + 32) else c.

(** [s.lower()] *)
Definition lower (s : str) : str := map lower_char s.

Definition eqc (a b : ascii) : bool := Ascii.eqb a b.

(** [s.lstrip()], [s.rstrip()], [s.strip()] *)
Fixpoint lstrip (s : str) : str :=
  match s with
  | c :: r => if is_space c then lstrip r else s
  | [] => []
  end.

Fixpoint rstrip (s : str) : str :=
  match s with
  | [] => []
  | c :: r =>
      match rstrip r with
      | [] => if is_space c then [] else [c]
      | r' => c :: r'
      end
  end.

Definition strip (s : str) : str := rstrip (lstrip s).

(** [s.startswith(p)] *)
Fixpoint startswith (p s : str) : bool :=
  match p, s with
  | [], _ => true
  | a :: p', b :: s' => eqc a b && startswith p' s'
  | _ :: _, [] => false
  end.

(** [needle in hay] *)
Fixpoint contains (needle hay : str) : bool :=
  startswith needle hay ||
  match hay with
  | [] => false
  | _ :: r => contains needle r
  end.

(** [s.split()]: maximal runs of non-whitespace. *)
Definition emit (cur : str) : list str :=
  match cur with [] => [] | _ => [rev cur] end.

Fixpoint split_ws_go (cur : str) (s : str) : list str :=
  match s with
  | [] => emit cur
  | c :: r =>
      if is_space c then emit cur ++ split_ws_go [] r
      else split_ws_go (c :: cur) r
  end.

Definition split_ws (s : str) : list str := split_ws_go [] s.

(** [s.split(d)] for a one-character separator [d]. *)
Fixpoint split_on (d : ascii) (s : str) : list str :=
  match s with
  | [] => [[]]
  | c :: r =>
      if eqc c d then [] :: split_on d r
      else match split_on d r with
           | h :: t => (c :: h) :: t
           | [] => [[c]]
           end
  end.

(** [s.split(d)[0]] and [s.split(d, 1)[0]] *)
Definition before (d : ascii) (s : str) : str :=
  match split_on d s with
  | h :: _ => h
  | [] => []
  end.

(** The line boundaries of [str.splitlines()]. *)
Definition is_linebreak (c : ascii) : bool :=
  in_range 10 13 c || in_range 28 30 c || in_range 133 133 c.

Fixpoint splitlines_go (cur : str) (s : str) : list str :=
  match s with
  | [] => emit cur
  | c :: r =>
      if is_linebreak c then
        rev cur ::
          match r with
          | c' :: r' =>
              if eqc c "013" && eqc c' "010" then splitlines_go [] r'
              else splitlines_go [] r
          | [] => []
          end
      else splitlines_go (c :: cur) r
  end.

Definition splitlines (s : str) : list str := splitlines_go [] s.

(** [sep.join(parts)] *)
Fixpoint join (sep : str) (parts : list str) : str :=
  match parts with
  | [] => []
  | [p] => p
  | p :: rest => p ++ sep ++ join sep rest
  end.

(** Lexicographic order on code points, the order of [sorted] on
    strings. *)
Fixpoint ltb (a b : str) : bool :=
  match a, b with
  | _, [] => false
  | [], _ :: _ => true
  | x :: a', y :: b' =>
      if (ord x <? ord y)%N then true
      else if (ord y <? ord x)%N then false
      else ltb a' b'
  end.

Fixpoint insert_sorted (x : str) (l : list str) : list str :=
  match l with
  | [] => [x]
  | y :: l' => if ltb y x then y :: insert_sorted x l' else x :: l
  end.

(** [sorted(l)] on strings. *)
Definition sorted (l : list str) : list str := foldr insert_sorted [] l.

(** Decimal rendering of an [int], as in an f-string. *)
Definition digit (n : N) : ascii := ascii_of_N (48 + n).

Fixpoint pos_digits (fuel : nat) (n : N) (acc : str) : str :=
  match fuel with
  | O => acc
  | S fuel' =>
      if (n <? 10)%N then digit n :: acc
      else pos_digits fuel' (n / 10) (digit (n mod 10) :: acc)
  end.

Definition N_to_str (n : N) : str := pos_digits (S (N.to_nat (N.log2 n))) n [].

Definition int_to_str (z : Z) : str :=
  if (z <? 0)%Z then "-" ++ N_to_str (Z.abs_N z) else N_to_str (Z.to_N z).

End PyStr.

(** ** gpt5pro/simplified/main.py *)

Module Simplified.
Import PyStr.

(** [TEMPLATES]: keyed by (service, action). *)
Definition TEMPLATES : gmap (str * str) str :=
  list_to_map [
    (("cloud_run", "describe"),
     "gcloud run services describe SERVICE_NAME --project=PROJECT_ID --region=REGION --format=yaml");
    (("cloud_run", "list"),
     "gcloud run services list --project=PROJECT_ID --region=REGION");
    (("cloud_run", "logs_read"),
     "gcloud run services logs read SERVICE_NAME --project=PROJECT_ID --limit=50");
    (("cloud_run", "logs_tail"),
     "gcloud beta run services logs tail SERVICE_NAME --project=PROJECT_ID");
    (("cloud_run", "revisions_list"),
     "gcloud run revisions list --service=SERVICE_NAME --region=REGION --project=PROJECT_ID");
    (("cloud_run", "revisions_describe"),
     "gcloud run revisions describe REVISION_NAME --region=REGION --project=PROJECT_ID --format=yaml");
    (("gke", "describe"),
     "gcloud container clusters describe CLUSTER_NAME --location=LOCATION --project=PROJECT_ID");
    (("gke", "list"),
     "gcloud container clusters list --project=PROJECT_ID");
    (("compute", "describe"),
     "gcloud compute instances describe INSTANCE_NAME --zone=ZONE --project=PROJECT_ID");
    (("compute", "list"),
     "gcloud compute instances list --project=PROJECT_ID");
    (("cloud_sql", "describe"),
     "gcloud sql instances describe INSTANCE_NAME --project=PROJECT_ID");
    (("cloud_sql", "list"),
     "gcloud sql instances list --project=PROJECT_ID");
    (("storage", "describe"),
     "gcloud storage buckets describe gs://BUCKET_NAME --project=PROJECT_ID");
    (("storage", "list"),
     "gcloud storage buckets list --project=PROJECT_ID");
    (("iam", "policy"),
     "gcloud projects get-iam-policy PROJECT_ID --format=json")
  ].

(** [SERVICE_HINTS] and [ACTION_HINTS] are iterated with [.items()], so
    their insertion order is part of the behaviour: association lists. *)
Definition SERVICE_HINTS : list (str * list str) := [
  ("cloud_run", ["cloud run"; "run service"; "cloudrun"; "run ";
                 "cloud-run"; "serverless run"]);
  ("gke", ["gke"; "kubernetes"; "k8s"; "cluster"; "kubernetes engine"]);
  ("compute", ["compute engine"; "compute"; "vm"; "instance"; "vm instance"; "gce"]);
  ("cloud_sql", ["cloud sql"; "sql instance"; "postgres"; "mysql"; "cloudsql"; "csql"]);
  ("storage", ["cloud storage"; "gcs"; "bucket"; "storage"]);
  ("iam", ["iam"; "policy"; "who has access"; "permissions"; "roles"; "members"; "access"])
].

Definition ACTION_HINTS : list (str * list str) := [
  ("describe", ["describe"; "config"; "configuration"; "settings"; "details";
                "inspect"; "spec"; "yaml"; "show config"]);
  ("list", ["list"; "ls"; "show all"; "enumerate"; "list all"]);
  ("logs_read", ["logs"; "read logs"; "view logs"; "get logs"; "error logs"; "errors"]);
  ("logs_tail", ["tail"; "stream"; "follow"]);
  ("revisions_list", ["revisions"; "history"; "previous versions"; "all revisions"]);
  ("revisions_describe", ["revision details"; "describe revision"]);
  ("policy", ["iam policy"; "policy"; "who has access"; "members"; "roles"; "permissions"])
].

Definition ACTION_PREFERENCE : list str := [
  "logs_tail"; "logs_read"; "revisions_describe"; "revisions_list";
  "describe"; "list"; "policy"
].

(** [any(h in t for h in hints)] *)
Definition any_hint (t : str) (hints : list str) : bool :=
  existsb (fun h => contains h t) hints.

Definition pick_service (text : str) : option str :=
  let t := lower text in
  fst <$> List.find (fun kv => any_hint t (snd kv)) SERVICE_HINTS.

Definition pick_action (service : str) (text : str) : str :=
  if bool_decide (service = "iam") then "policy"
  else
    let t := lower text in
    let matches :=
      map fst (List.filter (fun kv => any_hint t (snd kv)) ACTION_HINTS) in
    match matches with
    | [] => "describe"
    | m0 :: _ =>
        match List.find (fun pref => bool_decide (pref ∈ matches)) ACTION_PREFERENCE with
        | Some pref => pref
        | None => m0
        end
    end.

Definition unsupported_message : str :=
  "Unsupported/ambiguous prompt. Try mentioning a product (e.g., 'Cloud Run', 'GKE', 'Compute Engine', 'Cloud SQL', 'Cloud Storage', or 'IAM').".

Definition generate (prompt : str) : str :=
  match pick_service prompt with
  | None => unsupported_message
  | Some [] => unsupported_message
  | Some service =>
      let action := pick_action service prompt in
      match TEMPLATES !! (service, action) with
      | None =>
          "No safe template for: " ++ service ++ " + " ++ action
            ++ ". Add one to TEMPLATES."
      | Some template => template
      end
  end.

End Simplified.

(** ** gpt5pro/simplified/main.py: the functions as they run in a process *)

(** [TEMPLATES], [SERVICE_HINTS], [ACTION_HINTS] and [ACTION_PREFERENCE]
    are module-level Python objects (three dicts and a list), all of them
    mutable and looked up by name each time a function runs.  Here they
    are the state of a process: a call finds them as the calls before it
    left them and hands them on to the next call.  A dict that is iterated
    with [.items()] is the list of its entries in iteration order. *)
Module SimplifiedRun.
Import PyStr.

Record globals := Globals {
  TEMPLATES : gmap (str * str) str;
  SERVICE_HINTS : list (str * list str);
  ACTION_HINTS : list (str * list str);
  ACTION_PREFERENCE : list str
}.

(** The objects as the module body creates them. *)
Definition loaded : globals :=
  {| TEMPLATES := Simplified.TEMPLATES;
     SERVICE_HINTS := Simplified.SERVICE_HINTS;
     ACTION_HINTS := Simplified.ACTION_HINTS;
     ACTION_PREFERENCE := Simplified.ACTION_PREFERENCE |}.

(** The loaded objects, the entries of [ACTION_HINTS] coming in the order
    [items] when the dict is iterated. *)
Definition loaded_with (items : list (str * list str)) : globals :=
  {| TEMPLATES := Simplified.TEMPLATES;
     SERVICE_HINTS := Simplified.SERVICE_HINTS;
     ACTION_HINTS := items;
     ACTION_PREFERENCE := Simplified.ACTION_PREFERENCE |}.

(** A call: from the objects it finds to its result and the objects it
    leaves. *)
Definition call (A : Type) : Type := globals -> A * globals.

#[local] Instance call_ret : MRet call := fun A (a : A) g => (a, g).
#[local] Instance call_bind : MBind call :=
  fun A B (f : A -> call B) (m : call A) g => let '(a, g') := m g in f a g'.

(** Reading a global name. *)
Definition global {A} (name : globals -> A) : call A := fun g => (name g, g).

Definition pick_service (text : str) : call (option str) :=
  let t := lower text in
  hints ← global SERVICE_HINTS;
  mret (fst <$> List.find (fun kv => Simplified.any_hint t (snd kv)) hints).

Definition pick_action (service : str) (text : str) : call str :=
  if bool_decide (service = "iam") then mret ("policy" : str)
  else
    let t := lower text in
    hints ← global ACTION_HINTS;
    let matches :=
      map fst (List.filter (fun kv => Simplified.any_hint t (snd kv)) hints) in
    match matches with
    | [] => mret ("describe" : str)
    | m0 :: _ =>
        preference ← global ACTION_PREFERENCE;
        mret (match List.find (fun pref => bool_decide (pref ∈ matches)) preference with
              | Some pref => pref
              | None => m0
              end)
    end.

Definition generate (prompt : str) : call str :=
  service ← pick_service prompt;
  match service with
  | None => mret Simplified.unsupported_message
  | Some [] => mret Simplified.unsupported_message
  | Some service =>
      action ← pick_action service prompt;
      templates ← global TEMPLATES;
      mret (match templates !! (service, action) with
            | None =>
                "No safe template for: " ++ service ++ " + " ++ action
                  ++ ". Add one to TEMPLATES."
            | Some template => template
            end)
  end.

(** Calls of [generate] one after the other in one process, on the prompts
    of [prompts]: the outputs, and the objects left at the end. *)
Fixpoint session (prompts : list str) : call (list str) :=
  match prompts with
  | [] => mret []
  | prompt :: rest =>
      out ← generate prompt;
      outs ← session rest;
      mret (out :: outs)
  end.

End SimplifiedRun.

(** ** Regular-expression scanning

    [re.findall] and [re.sub(pattern, '', s)] walk the string from left to
    right and take the leftmost match at each position, resuming after it.
    A pattern is given by the length of its match at the head of the string
    ([None]: no match there).  All patterns used this way in the sources
    match at least one character and need no left context. *)

Module Regex.
Import PyStr.

Section Scan.
Variable match_len : str -> option nat.

(** [skip] counts the characters of the current match still to pass. *)
Fixpoint findall_go (skip : nat) (s : str) : list str :=
  match s with
  | [] => []
  | _ :: r =>
      match skip with
      | S n => findall_go n r
      | O =>
          match match_len s with
          | Some (S k) => take (S k) s :: findall_go k r
          | _ => findall_go 0 r
          end
      end
  end.

Definition findall (s : str) : list str := findall_go 0 s.

Fixpoint remove_go (skip : nat) (s : str) : str :=
  match s with
  | [] => []
  | c :: r =>
      match skip with
      | S n => remove_go n r
      | O =>
          match match_len s with
          | Some (S k) => remove_go k r
          | _ => c :: remove_go 0 r
          end
      end
  end.

(** [re.sub(pattern, '', s)] *)
Definition remove_all (s : str) : str := remove_go 0 s.
End Scan.

(** Length of the longest prefix whose characters satisfy [p]
    (a greedy character-class repetition). *)
Fixpoint run_length (p : ascii -> bool) (s : str) : nat :=
  match s with
  | c :: r => if p c then S (run_length p r) else 0
  | [] => 0
  end.

End Regex.

(** ** claude45sonnet/main.py *)

Module Sonnet.
Import PyStr.

(** The pattern [--[\w-]+]. *)
Definition is_flag_body (c : ascii) : bool := is_word c || eqc c "-".

Definition flag_match_len (s : str) : option nat :=
  if startswith "--" s then
    match Regex.run_length is_flag_body (drop 2 s) with
    | O => None
    | S n => Some (2 + S n)
    end
  else None.

(** [re.findall(r'--[\w-]+', command)] *)
Definition findall_flags (command : str) : list str :=
  Regex.findall flag_match_len command.

(** [flag.split('=')[0]] *)
Definition flag_name (flag : str) : str := before "=" flag.

Definition _validate_full_command (command help_text : str) : bool * str :=
  let flags := findall_flags command in
  let invalid_flags :=
    List.filter (fun name => negb (contains name help_text)) (map flag_name flags) in
  match invalid_flags with
  | _ :: _ => (false, "Invalid flags: " ++ join ", " invalid_flags)
  | [] => (true, "Command syntax is valid")
  end.

(** The first lines of [_validate_command_syntax]: drop a leading
    [gcloud]. *)
Definition drop_gcloud (command : str) : str :=
  if startswith "gcloud" (strip command)
  then strip (drop 6 (strip command))
  else command.

Definition is_option (p : str) : bool := startswith "-" p.

(** [[p for p in parts[:i] if not p.startswith('-')]] *)
Definition check_parts (parts : list str) (i : nat) : list str :=
  List.filter (fun p => negb (is_option p)) (take i parts).

Section Validation.
(** [_get_gcloud_help]: the subprocess, from the partial command to
    (success, help text).  Exceptions are already folded into
    [(False, str(e))] by the source. *)
Variable _get_gcloud_help : str -> bool * str.

(** The [for i in range(1, len(parts) + 1)] loop.  The second component
    records the partial commands handed to the subprocess, in order. *)
Fixpoint probe_loop (command : str) (parts : list str) (indices : list nat)
  : (bool * str) * list str :=
  match indices with
  | [] => ((false, "Invalid gcloud command structure: " ++ command), [])
  | i :: rest =>
      match check_parts parts i with
      | [] => probe_loop command parts rest
      | cp =>
          let partial_cmd := join " " cp in
          let '(success, help_text) := _get_gcloud_help partial_cmd in
          if success
          then (_validate_full_command command help_text, [partial_cmd])
          else
            let '(r, trace) := probe_loop command parts rest in
            (r, partial_cmd :: trace)
      end
  end.

Definition validate_traced (command : str) : (bool * str) * list str :=
  let command := drop_gcloud command in
  let parts := split_ws command in
  match parts with
  | [] => ((false, "Empty command"), [])
  | _ => probe_loop command parts (seq 1 (length parts))
  end.

Definition _validate_command_syntax (command : str) : bool * str :=
  fst (validate_traced command).

(** The partial commands probed, in order. *)
Definition probes (command : str) : list str := snd (validate_traced command).
End Validation.

Definition base_prompt (user_prompt : str) : str :=
  "You are an expert in Google Cloud Platform and gcloud CLI commands.

Generate a syntactically correct gcloud command based on this request:
" ++ user_prompt ++ "

CRITICAL RULES:
1. Output ONLY the gcloud command, nothing else
2. Use placeholders for actual values:
   - PROJECT_ID for project IDs
   - SERVICE_NAME for service names
   - REGION for regions (or use 'us-central1' as default)
   - INSTANCE_NAME for instance names
   - etc.
3. Ensure the command uses correct gcloud syntax
4. Use the most common and stable command structure
5. Include essential flags only
6. Do NOT add explanations, markdown, or code blocks

Example format:
gcloud run services describe SERVICE_NAME --project=PROJECT_ID --region=REGION

".

Definition error_block (previous_error : str) : str :=
  "
PREVIOUS ATTEMPT FAILED with error:
" ++ previous_error ++ "

Please correct the command and try again.
".

(** [if previous_error:] is false for [None] and for the empty string. *)
Definition _create_generation_prompt (user_prompt : str)
    (previous_error : option str) : str :=
  match previous_error with
  | Some (c :: e) => base_prompt user_prompt ++ error_block (c :: e)
  | _ => base_prompt user_prompt
  end.

(** The pattern [```(?:bash|shell)?\n?]. *)
Definition fence_lang_len (r : str) : nat :=
  if startswith "bash" r then 4 else if startswith "shell" r then 5 else 0.

Definition fence_match_len (s : str) : option nat :=
  if startswith "```" s then
    let r := drop 3 s in
    let k := fence_lang_len r in
    Some (3 + k + (if startswith ["010"%char] (drop k r) then 1 else 0))
  else None.

(** The pattern [```]. *)
Definition ticks_match_len (s : str) : option nat :=
  if startswith "```" s then Some 3 else None.

(** [re.sub(r'^[$#]\s*', '', command)]: without [re.MULTILINE] the
    anchor holds at the start of the string only. *)
Definition remove_prompt_marker (command : str) : str :=
  match command with
  | c :: r => if eqc c "$" || eqc c "#" then lstrip r else command
  | [] => []
  end.

Definition nonempty (s : str) : bool :=
  match s with [] => false | _ => true end.

Definition _clean_command (command : str) : str :=
  let command := Regex.remove_all fence_match_len command in
  let command := Regex.remove_all ticks_match_len command in
  let command := remove_prompt_marker command in
  let lines := List.filter nonempty (map strip (split_on "010" command)) in
  match List.find (startswith "gcloud") lines with
  | Some line => line
  | None =>
      match lines with
      | line :: _ => line
      | [] => strip command
      end
  end.

(** What a call of the generative API does: [response.text] or an
    exception with its [str(e)]. *)
Inductive api_outcome :=
| Returned (text : str)
| Raised (message : str).

(** The dictionary returned by [generate_command]. *)
Inductive gen_result :=
| GenSuccess (command : str) (message : str) (iterations : Z)
| GenFailure (message : str) (last_error : option str).

Definition success (r : gen_result) : bool :=
  match r with GenSuccess _ _ _ => true | GenFailure _ _ => false end.

Definition command (r : gen_result) : option str :=
  match r with GenSuccess c _ _ => Some c | GenFailure _ _ => None end.

Definition message (r : gen_result) : str :=
  match r with GenSuccess _ m _ => m | GenFailure m _ => m end.

Section Generation.
Variable _get_gcloud_help : str -> bool * str.
(** [self.model.generate_content]: the answer may differ from call to
    call, so the oracle also sees the iteration number. *)
Variable generate_content : nat -> str -> api_outcome.
Variable max_iterations : Z.
Variable user_prompt : str.

(** One pass of the loop body: the generated command with the verdict
    of the validation, or the message of the exception. *)
Definition attempt (iteration : nat) (previous_error : option str)
  : str * (bool * str) + str :=
  let prompt := _create_generation_prompt user_prompt previous_error in
  match generate_content iteration prompt with
  | Raised e => inr e
  | Returned text =>
      let generated_command := _clean_command (strip text) in
      inl (generated_command,
           _validate_command_syntax _get_gcloud_help generated_command)
  end.

(** The [for iteration in range(self.max_iterations)] loop; the second
    component records the prompts sent to the API. *)
Fixpoint generate_loop (iterations : list nat) (previous_error : option str)
  : gen_result * list str :=
  match iterations with
  | [] =>
      (GenFailure ("Failed to generate valid command after "
                     ++ int_to_str max_iterations ++ " attempts")
                  previous_error, [])
  | iteration :: rest =>
      let prompt := _create_generation_prompt user_prompt previous_error in
      match attempt iteration previous_error with
      | inl (generated_command, (true, _)) =>
          (GenSuccess generated_command
                      "Command generated and validated successfully"
                      (Z.of_nat iteration + 1), [prompt])
      | inl (_, (false, message)) =>
          let '(r, sent) := generate_loop rest (Some message) in
          (r, prompt :: sent)
      | inr e =>
          let '(r, sent) := generate_loop rest (Some e) in
          (r, prompt :: sent)
      end
  end.

Definition generate_traced : gen_result * list str :=
  generate_loop (seq 0 (Z.to_nat max_iterations)) None.

Definition generate_command : gen_result := fst generate_traced.

Definition prompts_sent : list str := snd generate_traced.
End Generation.

End Sonnet.

(** ** gpt5pro/main.py *)

Module CmdGen.
Import PyStr.

Definition GCLOUD_WIDE_FLAGS : gset str :=
  {[ "--project"; "--quiet"; "--format"; "--verbosity"; "--account";
     "--configuration" ]}.

Definition VERB_SYNONYMS : gmap str str :=
  list_to_map [
    ("get", "describe"); ("show", "describe"); ("details", "describe");
    ("describe", "describe"); ("inspect", "describe"); ("fetch", "describe");
    ("list", "list"); ("ls", "list"); ("enumerate", "list");
    ("create", "create"); ("make", "create"); ("new", "create");
    ("deploy", "deploy"); ("apply", "update"); ("update", "update");
    ("patch", "update"); ("set", "update"); ("delete", "delete");
    ("remove", "delete"); ("rm", "delete")
  ].

Definition RESOURCE_SYNONYMS : gmap str str :=
  list_to_map [
    ("cloudrun", "run"); ("cloud run", "run"); ("service", "services");
    ("services", "services"); ("revision", "revisions");
    ("revisions", "revisions"); ("job", "jobs"); ("jobs", "jobs");
    ("compute engine", "compute"); ("vm", "instances"); ("vms", "instances");
    ("instance", "instances"); ("instances", "instances");
    ("firewall", "firewall-rules"); ("firewalls", "firewall-rules");
    ("disk", "disks"); ("disks", "disks"); ("image", "images");
    ("images", "images"); ("router", "routers"); ("routers", "routers");
    ("mig", "instance-groups"); ("project", "projects");
    ("projects", "projects"); ("service account", "service-accounts");
    ("service accounts", "service-accounts"); ("iam", "iam");
    ("pubsub", "pubsub"); ("topic", "topics"); ("topics", "topics");
    ("subscription", "subscriptions"); ("subscriptions", "subscriptions");
    ("gcs", "storage"); ("storage bucket", "buckets"); ("bucket", "buckets");
    ("buckets", "buckets"); ("artifact", "artifacts");
    ("artifacts", "artifacts"); ("secret", "secrets"); ("secrets", "secrets");
    ("cloud build", "builds"); ("build", "builds"); ("builds", "builds")
  ].

(** [TOKEN_SPLIT_RE = [^\w\-]+]: a separator is any character that is
    neither a word character nor a hyphen. *)
Definition is_token_sep (c : ascii) : bool := negb (is_word c || eqc c "-").

Fixpoint fields_go (is_sep : ascii -> bool) (cur : str) (s : str) : list str :=
  match s with
  | [] => emit cur
  | c :: r =>
      if is_sep c then emit cur ++ fields_go is_sep [] r
      else fields_go is_sep (c :: cur) r
  end.

(** [[t.lower() for t in TOKEN_SPLIT_RE.split(text) if t]] *)
Definition tokenize (text : str) : list str :=
  map lower (fields_go is_token_sep [] text).

Definition canonicalize_token (t : str) : str :=
  match VERB_SYNONYMS !! t with
  | Some v => v
  | None =>
      match RESOURCE_SYNONYMS !! t with
      | Some r => r
      | None => t
      end
  end.

Definition canonicalize_tokens (tokens : list str) : list str :=
  map canonicalize_token tokens.

Record CommandSpec := {
  path : str;
  release : str;
  flags : list str;
  positionals : list str;
  help_one_line : str
}.

(** *** The FLAGS section of a help text *)

Definition is_newline (c : ascii) : bool := eqc c "010".

Fixpoint to_line_end (s : str) : str :=
  match s with
  | c :: r => if is_newline c then s else to_line_end r
  | [] => []
  end.

(** [^FLAGS\b.*?$] at a line start: the text from the end of the header
    line on ([.] stops at a newline, so the lazy [.*?] can only reach the
    end of that line). *)
Definition flags_header (s : str) : option str :=
  if startswith "FLAGS" s then
    match drop 5 s with
    | c :: r => if is_word c then None else Some (to_line_end (c :: r))
    | [] => Some []
    end
  else None.

(** [([\s\S]+?)^\w]: the shortest non-empty text that ends right before a
    word character at a line start.  [prev] is the last character taken. *)
Fixpoint block_go (prev : ascii) (s : str) : option str :=
  match s with
  | [] => None
  | c :: r =>
      if is_newline prev && is_word c then Some []
      else cons c <$> block_go c r
  end.

Definition block_from (s : str) : option str :=
  match s with
  | [] => None
  | c :: r => cons c <$> block_go c r
  end.

(** [re.search] of the pattern [^FLAGS\b.*?$([\s\S]+?)^\w] with
    [re.MULTILINE], group 1.  [bol] tells whether the head of [s] is at a line start. *)
Fixpoint search_flags_go (bol : bool) (s : str) : option str :=
  match (if bol then flags_header s ≫= block_from else None) with
  | Some g => Some g
  | None =>
      match s with
      | [] => None
      | c :: r => search_flags_go (is_newline c) r
      end
  end.

Definition search_flags_block (out : str) : option str :=
  search_flags_go true out.

(** [\b] between [last] and the head of [s]. *)
Definition boundary (last : ascii) (s : str) : bool :=
  xorb (is_word last) (match s with c :: _ => is_word c | [] => false end).

(** The greedy [[a-z0-9\-]*] followed by [\b]: the longest run of at most
    [k] characters after which a word boundary holds. *)
Fixpoint longest_bounded (last : ascii) (s : str) (k : nat) : option nat :=
  match k, s with
  | S k', c :: r =>
      match longest_bounded c r k' with
      | Some j => Some (S j)
      | None => if boundary last s then Some 0 else None
      end
  | _, _ => if boundary last s then Some 0 else None
  end.

(** [re.match] of the pattern [\s+(--[a-z0-9][a-z0-9\-]* )\b] on [line],
    group 1. *)
Definition flag_line_match (line : str) : option str :=
  match Regex.run_length is_space line with
  | O => None
  | S n =>
      match drop (S n) line with
      | "-"%char :: "-"%char :: c :: r =>
          if is_lower_digit c then
            match longest_bounded c r (Regex.run_length is_flag_char r) with
            | Some j => Some ("--" ++ c :: take j r)
            | None => None
            end
          else None
      | _ => None
      end
  end.

(** The loop over [flags_block.splitlines()]; each line is matched after
    [line.strip()]. *)
Definition block_flags (flags_block : str) : list str :=
  omap (fun line => flag_line_match (strip line)) (splitlines flags_block).

(** The flags appended by the FLAGS-section parsing, the same code in
    [parse_help_for_command] and in [validate_command_string]. *)
Definition section_flags (out : str) : list str :=
  match search_flags_block out with
  | Some flags_block => block_flags flags_block
  | None => []
  end.

(** [flags = sorted(set(flags) | GCLOUD_WIDE_FLAGS)] of
    [parse_help_for_command], on a help text that was fetched. *)
Definition parse_help_flags (out : str) : list str :=
  sorted (elements (list_to_set (section_flags out) ∪ GCLOUD_WIDE_FLAGS)).

(** The legal flags of [validate_command_string]. *)
Definition legal_flags (out : str) : gset str :=
  foldl (fun flags f => flags ∪ {[ f ]}) GCLOUD_WIDE_FLAGS (section_flags out).

(** *** Matching *)

(** Python floats stay abstract: the operations the scoring uses, the
    literals it mentions and the comparison the sort relies on. *)
Class FloatOps (F : Type) := {
  fadd : F -> F -> F;
  fmul : F -> F -> F;
  (** [a / b] on two ints *)
  truediv : nat -> nat -> F;
  f_0_55 : F;
  f_0_35 : F;
  f_0_5 : F;
  f_0_0 : F;
  (** [a < b] *)
  flt : F -> F -> bool
}.

Definition verbs : gset str :=
  {[ "describe"; "list"; "create"; "delete"; "update"; "deploy" ]}.

Definition is_verb (t : str) : bool := bool_decide (t ∈ verbs).

Section Scoring.
Context {F : Type} `{FloatOps F}.
(** [difflib.SequenceMatcher(a=a, b=b).ratio()] *)
Variable ratio : str -> str -> F.

Definition score_candidate (prompt_tokens : list str) (candidate_path : str) : F :=
  let path_tokens := split_ws candidate_path in
  let prompt_verbs : gset str := verbs ∩ list_to_set prompt_tokens in
  let path_verb := List.filter is_verb path_tokens in
  let verb_bonus :=
    match path_verb with
    | v :: _ =>
        if bool_decide (prompt_verbs ≠ ∅) && bool_decide (v ∈ prompt_verbs)
        then f_0_5
        else if bool_decide (prompt_verbs ≠ ∅) then f_0_35
        else f_0_0
    | [] => f_0_0
    end in
  let pt : gset str :=
    list_to_set (List.filter (fun t => negb (is_verb t)) prompt_tokens) in
  let ct : gset str :=
    list_to_set (List.filter (fun t => negb (is_verb t)) path_tokens) in
  let jacc := truediv (size (pt ∩ ct)) (max 1 (size (pt ∪ ct))) in
  let fuzzy := ratio (join " " prompt_tokens) candidate_path in
  fadd (fadd (fmul f_0_55 jacc) (fmul f_0_35 fuzzy)) verb_bonus.

(** [scored.sort(key=lambda x: x[1], reverse=True)]: a stable sort,
    larger scores first; an element moves behind another only when its
    score is smaller. *)
Fixpoint insert_desc {A} (x : A * F) (l : list (A * F)) : list (A * F) :=
  match l with
  | [] => [x]
  | y :: l' => if flt (snd x) (snd y) then y :: insert_desc x l' else x :: l
  end.

Definition sort_desc {A} (l : list (A * F)) : list (A * F) :=
  foldr insert_desc [] l.

(** [l[:k]] for any int [k]. *)
Definition slice_to {A} (k : Z) (l : list A) : list A :=
  if (k <? 0)%Z then take (length l - Z.to_nat (- k)) l
  else take (Z.to_nat k) l.

(** The index is a dict iterated with [.items()]: its entries in
    insertion order. *)
Definition choose_candidates (index : list (str * CommandSpec)) (prompt : str)
    (topk : Z) : list (CommandSpec * F) :=
  let tokens := canonicalize_tokens (tokenize prompt) in
  let scored :=
    map (fun e => (snd e, score_candidate tokens (fst e))) index in
  slice_to topk (sort_desc scored).
End Scoring.

(** *** Rendering *)

Definition preferred_flags : list str :=
  ["--region"; "--zone"; "--location"; "--project"].

(** The dict literal of placeholders with its [.get] defaulting to [<VALUE>]. *)
Definition placeholder (fl : str) : str :=
  if bool_decide (fl = "--region") then "<REGION>"
  else if bool_decide (fl = "--zone") then "<ZONE>"
  else if bool_decide (fl = "--location") then "<LOCATION>"
  else if bool_decide (fl = "--project") then "<PROJECT_ID>"
  else "<VALUE>".

Definition member (x : str) (l : list str) : bool := bool_decide (x ∈ l).

(** [cmd] is the list the source appends to. *)
Definition render_command (spec : CommandSpec) : str :=
  let cmd := ["gcloud"] in
  let cmd :=
    if member (release spec) ["beta"; "alpha"] then cmd ++ [release spec]
    else cmd in
  let cmd := cmd ++ split_ws (path spec) in
  let cmd :=
    foldl (fun cmd pos => cmd ++ ["<" ++ lower pos ++ ">"]) cmd
          (take 2 (positionals spec)) in
  let cmd :=
    foldl (fun cmd fl =>
             if member fl (flags spec)
             then cmd ++ [fl ++ "=" ++ placeholder fl] else cmd)
          cmd preferred_flags in
  let cmd :=
    if member "--format" (flags spec)
       && forallb (fun a => negb (startswith "--format" a)) cmd
    then cmd ++ ["--format=json"] else cmd in
  join " " cmd.

(** *** Validation *)

Definition is_long_option (t : str) : bool := startswith "--" t.

(** The loop that fills [base]: stop at the first placeholder or flag. *)
Fixpoint base_of (tokens : list str) : list str :=
  match tokens with
  | [] => []
  | t :: rest =>
      if startswith "<" t then []
      else if is_long_option t then []
      else t :: base_of rest
  end.

(** [key]: the token up to its first [=]. *)
Definition flag_key (t : str) : str := before "=" t.

(** The list [unknown] built by the last loop. *)
Definition unknown_flags (legal : gset str) (tokens : list str) : list str :=
  List.filter (fun key => negb (bool_decide (key ∈ legal)))
              (map flag_key (List.filter is_long_option tokens)).

Section Validate.
(** [shlex.split]; [None] stands for its [ValueError]. *)
Variable shlex_split : str -> option (list str).
(** [run(cmd, timeout)]: return code, stdout, stderr. *)
Variable run : list str -> Z * str * str.
(** [repr] of a list of strings. *)
Variable repr : list str -> str.

Definition validate_command_string (cmd_str : str) : option (bool * str) :=
  tokens ← shlex_split cmd_str;
  let base := base_of tokens in
  let '(rc, out, err) := run (base ++ ["--help"]) in
  if bool_decide (rc ≠ 0%Z) then
    Some (false, "gcloud help failed for " ++ repr base ++ ": "
                   ++ (match err with [] => out | _ => err end))
  else
    let unknown := unknown_flags (legal_flags out) tokens in
    match unknown with
    | _ :: _ =>
        Some (false, "Unknown flags for " ++ repr base ++ ": "
                       ++ join ", " (sorted (elements (list_to_set unknown : gset str))))
    | [] => Some (true, "OK")
    end.
End Validate.

End CmdGen.

(** ** claude45sonnet/main.py: the help subprocess *)

Module SonnetHelp.
Import PyStr.

(** [cmd.split()] of the f-string [gcloud {partial_command} --help]: the
    argument vector handed to [subprocess.run]. *)
Definition help_argv (partial_command : str) : list str :=
  split_ws ("gcloud " ++ partial_command ++ " --help").

Section Help.
(** [subprocess.run(argv, capture_output=True, text=True, timeout=10)]:
    the return code, stdout and stderr of the completed process, or the
    [str(e)] of the exception it raised. *)
Variable subprocess_run : list str -> (Z * str * str) + str.

Definition _get_gcloud_help (partial_command : str) : bool * str :=
  match subprocess_run (help_argv partial_command) with
  | inl (returncode, stdout, stderr) =>
      (bool_decide (returncode = 0%Z), stdout ++ stderr)
  | inr e => (false, e)
  end.
End Help.

(** A subprocess that knows the group [run] only. *)
Definition subprocess_run_only (argv : list str) : (Z * str * str) + str :=
  if bool_decide (argv = ["gcloud"; "run"; "--help"])
  then inl (0%Z, "NAME gcloud run FLAGS --region=REGION", "")
  else inl (2%Z, "", "ERROR: (gcloud) Invalid choice").

End SonnetHelp.

(** ** gpt5pro/main.py: discovery and the index *)

Module CmdGenIndex.
Import PyStr CmdGen.

(** *** The sections GROUPS and COMMANDS of a help text *)

(** [re.match] of the pattern [\s+([a-z0-9\-]+)\s+.*] on [line], group 1:
    leading whitespace, the longest run of name characters, and whitespace
    right after it. *)
Definition group_line_match (line : str) : option str :=
  match Regex.run_length is_space line with
  | O => None
  | S n =>
      let rest := drop (S n) line in
      match Regex.run_length is_flag_char rest with
      | O => None
      | S k =>
          match drop (S k) rest with
          | c :: _ => if is_space c then Some (take (S k) rest) else None
          | [] => None
          end
      end
  end.

Inductive help_section := InGroups | InCommands.

(** The state of the loop of [parse_groups_and_commands]: the variable
    [section] and the two lists. *)
Definition pgc_state : Type := option help_section * list str * list str.

(** One pass of the loop body on the line [raw]. *)
Definition pgc_step (st : pgc_state) (raw : str) : pgc_state :=
  let '(section, groups, commands) := st in
  let line := rstrip raw in
  match line with
  | [] => st
  | _ =>
      if bool_decide (strip line = "GROUPS") then (Some InGroups, groups, commands)
      else if bool_decide (strip line = "COMMANDS")
      then (Some InCommands, groups, commands)
      else
        match section with
        | None => st
        | Some sec =>
            match group_line_match line with
            | Some name =>
                match sec with
                | InGroups => (section, groups ++ [name], commands)
                | InCommands => (section, groups, commands ++ [name])
                end
            | None => st
            end
        end
  end.

Definition parse_lines (lines : list str) : pgc_state :=
  foldl pgc_step (None, [], []) lines.

Definition parse_groups_and_commands (help_text : str) : list str * list str :=
  let '(_, groups, commands) := parse_lines (splitlines help_text) in
  (groups, commands).

(** *** The listing of [gcloud meta list-commands] *)

(** The loop body of the first branch of [discover_command_list]: the
    command a line contributes, if it does. *)
Definition listed_command (line : str) : option str :=
  let line := strip line in
  match line with
  | [] => None
  | _ =>
      if startswith "gcloud " line
      then Some (join " " (tail (split_ws line)))
      else None
  end.

(** [sorted(set(cmds))] for the output [out] of the listing. *)
Definition listed_commands (out : str) : list str :=
  sorted (elements (list_to_set (omap listed_command (splitlines out)) : gset str)).

(** *** The usage block and its placeholders *)

(** [^NAME\b.*?$] at a line start, for a section name [name]. *)
Definition section_header (name : str) (s : str) : option str :=
  if startswith name s then
    match drop (length name) s with
    | c :: r => if is_word c then None else Some (to_line_end (c :: r))
    | [] => Some []
    end
  else None.

(** [re.search] of [^NAME\b.*?$([\s\S]+?)^\w] with [re.MULTILINE],
    group 1. *)
Fixpoint search_section_go (name : str) (bol : bool) (s : str) : option str :=
  match (if bol then section_header name s ≫= block_from else None) with
  | Some g => Some g
  | None =>
      match s with
      | [] => None
      | c :: r => search_section_go name (is_newline c) r
      end
  end.

(** [usage_block]: the USAGE section or, failing that, the first line that
    starts with [gcloud ] once stripped; empty when there is neither. *)
Definition usage_block (out : str) : str :=
  match search_section_go "USAGE" true out with
  | Some g => g
  | None =>
      match List.find (fun line => startswith "gcloud " (strip line))
                      (splitlines out) with
      | Some line => line
      | None => []
      end
  end.

(** The text after the first occurrence of [needle]. *)
Fixpoint after_first (needle hay : str) : str :=
  if startswith needle hay then drop (length needle) hay
  else match hay with
       | [] => []
       | _ :: r => after_first needle r
       end.

(** [[A-Z0-9_\-]] *)
Definition is_placeholder_char (c : ascii) : bool :=
  is_upper c || in_range 48 57 c || in_range 95 95 c || in_range 45 45 c.

(** The pattern [\b[A-Z][A-Z0-9_\-]*\b] at the head of [s], [prev] being
    the character before it. *)
Definition placeholder_match_len (prev : option ascii) (s : str) : option nat :=
  match s with
  | c :: r =>
      if is_upper c
         && negb (match prev with Some p => is_word p | None => false end)
      then
        match longest_bounded c r (Regex.run_length is_placeholder_char r) with
        | Some j => Some (S j)
        | None => None
        end
      else None
  | [] => None
  end.

(** [re.findall] for a pattern that looks at the character before the
    match. *)
Fixpoint findall_ctx (match_len : option ascii -> str -> option nat)
    (prev : option ascii) (skip : nat) (s : str) : list str :=
  match s with
  | [] => []
  | c :: r =>
      match skip with
      | S n => findall_ctx match_len (Some c) n r
      | O =>
          match match_len prev s with
          | Some (S k) => take (S k) s :: findall_ctx match_len (Some c) k r
          | _ => findall_ctx match_len (Some c) 0 r
          end
      end
  end.

Definition findall_placeholders (s : str) : list str :=
  findall_ctx placeholder_match_len None 0 s.

Definition usage_keywords : list str := ["USAGE"; "FLAGS"; "ARGS"; "AND"; "OR"].

(** [[x for x in l if not (x in seen or seen.add(x))]] *)
Fixpoint dedup_go (seen : gset str) (l : list str) : list str :=
  match l with
  | [] => []
  | x :: r =>
      if bool_decide (x ∈ seen) then dedup_go seen r
      else x :: dedup_go (seen ∪ {[ x ]}) r
  end.

Definition usage_positionals (path_tokens : list str) (out : str) : list str :=
  match usage_block out with
  | [] => []
  | block =>
      let cmd_prefix := "gcloud " ++ join " " path_tokens in
      let usage_tail :=
        if contains cmd_prefix block then after_first cmd_prefix block else block in
      dedup_go ∅ (List.filter (fun tok => negb (member tok usage_keywords))
                              (findall_placeholders usage_tail))
  end.

Definition is_heading (line : str) : bool :=
  startswith "NAME" line || startswith "SYNOPSIS" line || startswith "USAGE" line.

(** The first stripped line that is not empty and not a heading. *)
Definition first_help_line (out : str) : str :=
  match List.find (fun line => match line with [] => false | _ => negb (is_heading line) end)
                  (map strip (splitlines out)) with
  | Some line => line
  | None => []
  end.

Definition PRIORITY_PREFIXES : list str :=
  ["run "; "compute "; "projects "; "iam "; "pubsub "; "storage "; "secrets ";
   "artifacts "; "services "; "container "; "builds "].

(** [p.startswith(PRIORITY_PREFIXES)] *)
Definition has_priority (p : str) : bool :=
  existsb (fun pre => startswith pre p) PRIORITY_PREFIXES.

Section Run.
(** [run(cmd, timeout)]: return code, stdout and stderr; an exception of
    the subprocess is already turned into [(1, "", message)] by [run]. *)
Variable run : list str -> Z -> Z * str * str.

Definition gcloud_info_sdk_root : option str :=
  let '(rc, out, _) :=
    run ["gcloud"; "--format=value(installation.sdk_root)"; "info"] 45 in
  if bool_decide (rc = 0%Z) then
    match strip out with
    | [] => None
    | root => Some root
    end
  else None.

(** The help text [parse_help_for_command] works on, with the release
    level it was found at: GA first, then beta, then alpha. *)
Definition fetch_help (path_tokens : list str) : option (str * str) :=
  let '(rc, out, _) := run ("gcloud" :: path_tokens ++ ["--help"]) 60 in
  if bool_decide (rc = 0%Z) then Some ("ga", out)
  else
    let '(rc2, out2, _) := run ("gcloud" :: "beta" :: path_tokens ++ ["--help"]) 60 in
    if bool_decide (rc2 = 0%Z) then Some ("beta", out2)
    else
      let '(rc3, out3, _) :=
        run ("gcloud" :: "alpha" :: path_tokens ++ ["--help"]) 60 in
      if bool_decide (rc3 = 0%Z) then Some ("alpha", out3) else None.

Definition parse_help_for_command (path_tokens : list str) : CommandSpec :=
  match fetch_help path_tokens with
  | None =>
      {| path := join " " path_tokens; release := "ga"; flags := [];
         positionals := []; help_one_line := [] |}
  | Some (release, out) =>
      {| path := join " " path_tokens; release := release;
         flags := parse_help_flags out;
         positionals := usage_positionals path_tokens out;
         help_one_line := first_help_line out |}
  end.

(** The entries [build_index] puts in a fresh index, in insertion order:
    one per prioritized path ([paths] comes from [sorted(set(...))] and so
    holds no duplicates). *)
Definition index_entries (paths : list str) : list (str * CommandSpec) :=
  map (fun p => (p, parse_help_for_command (split_ws p)))
      (List.filter has_priority paths).
End Run.

End CmdGenIndex.

(** ** claude45sonnet/main.py: answers that keep the loop going *)

Module SonnetRun.
Import PyStr Sonnet.

(** What [generate_command] does not return on: an API call that raised,
    or an answer whose cleaned text fails [_validate_command_syntax]. *)
Definition rejected (help : str -> bool * str) (outcome : api_outcome) : Prop :=
  match outcome with
  | Raised _ => True
  | Returned text =>
      fst (_validate_command_syntax help (_clean_command (strip text))) = false
  end.

(** A generative API that always raises. *)
Definition api_always_raises (iteration : nat) (prompt : str) : api_outcome :=
  Raised "503 service unavailable".

End SonnetRun.

(** ** Reference notions and sample oracles used by the statements below *)

Module SonnetSpec.
Import PyStr Sonnet.

(** The partial commands [_validate_command_syntax] may hand to the help
    subprocess: for [i = 1 .. len(parts)] the non-flag tokens among the
    first [i], joined by a space, when there is one. *)
Definition candidates_at (parts : list str) (indices : list nat) : list str :=
  omap (fun i => match check_parts parts i with
                 | [] => None
                 | cp => Some (join " " cp)
                 end) indices.

Definition candidates (parts : list str) : list str :=
  candidates_at parts (seq 1 (length parts)).

(** The reading of the retry under which every probe that follows a failed
    one is shorter than it. *)
Definition retries_with_shorter_prefix (help : str -> bool * str) (command : str)
  : Prop :=
  forall i p q,
    probes help command !! i = Some p ->
    probes help command !! S i = Some q ->
    (length q < length p)%nat.

(** A help subprocess that fails for [compute] (a timeout, say) and answers
    for [compute instances]. *)
Definition help_instances_only (partial_cmd : str) : bool * str :=
  if bool_decide (partial_cmd = "compute instances")
  then (true, "NAME gcloud compute instances FLAGS --zone=ZONE --format=FORMAT")
  else (false, "ERROR: (gcloud) Invalid choice").

(** A help subprocess that never succeeds. *)
Definition help_never (partial_cmd : str) : bool * str :=
  (false, "ERROR: (gcloud) Invalid choice").

(** A help subprocess that answers every request with the same text. *)
Definition help_always (partial_cmd : str) : bool * str :=
  (true, "FLAGS --region=REGION --project=PROJECT_ID --format=FORMAT").

Section Iterations.
Variable help : str -> bool * str.
Variable generate_content : nat -> str -> api_outcome.
Variable user_prompt : str.

(** The value of [previous_error] when iteration [i] starts, none of the
    earlier iterations having returned: the message of the validation or
    of the exception of iteration [i - 1]. *)
Fixpoint previous_error_at (i : nat) : option str :=
  match i with
  | O => None
  | S j =>
      match attempt help generate_content user_prompt j (previous_error_at j) with
      | inl (_, (_, message)) => Some message
      | inr e => Some e
      end
  end.

(** The prompt iteration [i] sends. *)
Definition prompt_at (i : nat) : str :=
  _create_generation_prompt user_prompt (previous_error_at i).

(** The command iteration [i] generates, when it validates. *)
Definition validated_at (i : nat) : option str :=
  match attempt help generate_content user_prompt i (previous_error_at i) with
  | inl (generated_command, (true, _)) => Some generated_command
  | _ => None
  end.
End Iterations.

(** A generative API whose first call raises and whose later calls answer
    with a fenced command. *)
Definition api_fails_once (iteration : nat) (prompt : str) : api_outcome :=
  match iteration with
  | O => Raised "429 quota exceeded"
  | S _ => Returned "```bash
gcloud run services list --region=us-central1
```"
  end.

End SonnetSpec.

Module CmdGenSpec.
Import PyStr CmdGen.

(** [shlex.split] on a command without quotes, backslashes or comment
    signs: the whitespace-separated words. *)
Definition shlex_words (cmd_str : str) : option (list str) := Some (split_ws cmd_str).

(** A help subprocess that answers every request with a help text listing
    a [--region] flag in its FLAGS section. *)
Definition sample_help : str :=
  "NAME
    gcloud run services describe - obtain details about a service

SYNOPSIS
    gcloud run services describe SERVICE [--region=REGION] [GCLOUD_WIDE_FLAG ...]

FLAGS
     --region=REGION
        Region in which the resource can be found.

NOTES
    This variant is also available.
".

Definition run_sample_help (argv : list str) : Z * str * str :=
  (0%Z, sample_help, "").

Definition run_sample_help_timed (argv : list str) (timeout : Z) : Z * str * str :=
  run_sample_help argv.

(** [repr] of a list of plain words. *)
Definition repr_words (l : list str) : str :=
  "[" ++ join ", " (map (fun w => "'" ++ w ++ "'") l) ++ "]".

(** A spec for [run services describe] with one positional; its flags are
    the ones [parse_help_flags] scrapes from [sample_help]. *)
Definition sample_spec : CommandSpec :=
  {| path := "run services describe"; release := "ga";
     flags := parse_help_flags sample_help; positionals := ["SERVICE"];
     help_one_line := "gcloud run services describe - obtain details about a service" |}.

(** A [gcloud info] that prints the SDK root followed by a newline. *)
Definition run_sdk_root (argv : list str) (timeout : Z) : Z * str * str :=
  (0%Z, "/opt/google-cloud-sdk
", "").

(** Scores counted in thousandths: a stand-in for the floats of the
    scoring, with the comparison of the integers. *)
Definition thousandths : FloatOps Z :=
  {| fadd := Z.add;
     fmul := fun a b => (a * b / 1000)%Z;
     truediv := fun a b => (1000 * Z.of_nat a / Z.of_nat b)%Z;
     f_0_55 := 550%Z;
     f_0_35 := 350%Z;
     f_0_5 := 500%Z;
     f_0_0 := 0%Z;
     flt := Z.ltb |}.

(** A similarity that tells equal strings from different ones. *)
Definition ratio_equal (a b : str) : Z :=
  if bool_decide (a = b) then 1000%Z else 0%Z.

(** An index of two commands. *)
Definition sample_index : list (str * CommandSpec) :=
  [("run services describe", sample_spec);
   ("run services list",
    {| path := "run services list"; release := "ga";
       flags := parse_help_flags sample_help; positionals := [];
       help_one_line := "gcloud run services list - list available services" |})].

End CmdGenSpec.

Module SimplifiedSpec.
Import PyStr Simplified.

(** The list [matches] of [pick_action]: the keys of [ACTION_HINTS], in
    the order of the table, that have a hint in the lower-cased text. *)
Definition matches (text : str) : list str :=
  map fst (List.filter (fun kv => any_hint (lower text) (snd kv)) ACTION_HINTS).

(** The loop over [ACTION_PREFERENCE] in [pick_action]: the first
    preference found in [matches], when the loop returns. *)
Definition preferred_match (text : str) : option str :=
  List.find (fun pref => bool_decide (pref ∈ matches text)) ACTION_PREFERENCE.

(** Some hint of [action] occurs in the lower-cased text. *)
Definition action_hinted (text action : str) : Prop :=
  exists hints h,
    In (action, hints) ACTION_HINTS /\ In h hints
    /\ contains h (lower text) = true.

End SimplifiedSpec.

(** * Theorems *)

(** ** The template generator ([Simplified]) *)

Section SimplifiedFacts.
Import PyStr Simplified.

Example generate_cloud_run :
  generate "show config for my cloud run service"
  = "gcloud run services describe SERVICE_NAME --project=PROJECT_ID --region=REGION --format=yaml".
Proof. vm_compute. reflexivity. Qed.

Example generate_tail_wins :
  generate "tail the logs of my Cloud Run service"
  = "gcloud beta run services logs tail SERVICE_NAME --project=PROJECT_ID".
Proof. vm_compute. reflexivity. Qed.

Example generate_unsupported : generate "hello" = unsupported_message.
Proof. vm_compute. reflexivity. Qed.

(** The heuristic reads the prompt through [lower] only. *)
Lemma pick_service_lower (t1 t2 : str) :
  lower t1 = lower t2 -> pick_service t1 = pick_service t2.
Proof. unfold pick_service. intros ->. reflexivity. Qed.

Lemma pick_action_lower (service t1 t2 : str) :
  lower t1 = lower t2 -> pick_action service t1 = pick_action service t2.
Proof. unfold pick_action. intros ->. reflexivity. Qed.

Lemma generate_lower (t1 t2 : str) :
  lower t1 = lower t2 -> generate t1 = generate t2.
Proof.
  intros Hl. unfold generate.
  rewrite (pick_service_lower t1 t2 Hl).
  destruct (pick_service t2) as [[|c service]|]; try reflexivity.
  rewrite (pick_action_lower (c :: service) t1 t2 Hl). reflexivity.
Qed.

(** The services [pick_service] can return are the keys of
    [SERVICE_HINTS]. *)
Lemma pick_service_key (prompt service : str) :
  pick_service prompt = Some service ->
  In service (map fst SERVICE_HINTS).
Proof.
  unfold pick_service. intros Hs.
  destruct (List.find _ SERVICE_HINTS) as [kv|] eqn:Hf; [|discriminate Hs].
  apply find_some in Hf as [Hin _].
  injection Hs as <-. apply in_map. exact Hin.
Qed.

(** Without any action hint in the text, nothing survives the filter of
    [pick_action]. *)
Lemma no_action_matches (t : str) :
  (forall action hints h,
      In (action, hints) ACTION_HINTS -> In h hints -> contains h t = false) ->
  List.filter (fun kv => any_hint t (snd kv)) ACTION_HINTS = [].
Proof.
  intros Hno.
  induction ACTION_HINTS as [|[action hints] l IH]; [reflexivity|].
  cbn [List.filter snd].
  assert (any_hint t hints = false) as ->.
  { unfold any_hint. apply not_true_is_false. intros Hex.
    apply existsb_exists in Hex as (h & Hh & Hc).
    rewrite (Hno action hints h) in Hc; [discriminate|left; reflexivity|exact Hh]. }
  apply IH. intros a hs h Ha Hh. apply (Hno a hs h); [right; exact Ha|exact Hh].
Qed.
End SimplifiedFacts.

(** C10: the default action never hits the missing-template error: when
    [pick_service] returns a service other than iam and no [ACTION_HINTS]
    phrase occurs in the lowercased prompt, [pick_action] returns describe,
    the key (service, describe) is in [TEMPLATES], and [generate] returns
    that template and not the no-safe-template message. *)
Theorem C10_default_action_has_template (prompt service : str) :
  Simplified.pick_service prompt = Some service ->
  service <> "iam" ->
  (forall action hints h,
      In (action, hints) Simplified.ACTION_HINTS -> In h hints ->
      PyStr.contains h (PyStr.lower prompt) = false) ->
  Simplified.pick_action service prompt = "describe"
  /\ exists template,
      Simplified.TEMPLATES !! (service, "describe" : str) = Some template
      /\ Simplified.generate prompt = template
      /\ PyStr.startswith "No safe template" template = false.
Proof.
  intros Hs Hiam Hno.
  assert (Simplified.pick_action service prompt = "describe") as Ha.
  { unfold Simplified.pick_action. rewrite bool_decide_eq_false_2 by exact Hiam.
    rewrite (no_action_matches _ Hno). reflexivity. }
  split; [exact Ha|].
  pose proof (pick_service_key _ _ Hs) as Hk.
  unfold Simplified.generate. rewrite Hs.
  cbn [map fst Simplified.SERVICE_HINTS In] in Hk.
  destruct Hk as [<-|[<-|[<-|[<-|[<-|[<-|[]]]]]]]; try congruence;
    rewrite Ha; eexists; (split; [vm_compute; reflexivity|split; vm_compute; reflexivity]).
Qed.

Lemma C10_default_action_has_template_witness :
  Simplified.pick_action "gke" "my GKE" = "describe"
  /\ exists template,
      Simplified.TEMPLATES !! ("gke" : str, "describe" : str) = Some template
      /\ Simplified.generate "my GKE" = template
      /\ PyStr.startswith "No safe template" template = false.
Proof.
  apply (C10_default_action_has_template "my GKE" "gke").
  - vm_compute. reflexivity.
  - discriminate.
  - intros action hints h Ha Hh.
    cbn [Simplified.ACTION_HINTS In] in Ha.
    repeat (destruct Ha as [Ha|Ha];
            [inversion Ha; subst; clear Ha; cbn [In] in Hh;
             repeat (destruct Hh as [<-|Hh]; [vm_compute; reflexivity|]); destruct Hh|]).
    destruct Ha.
Defined.

(** ** Python strings: what the operations compute *)

Section PyStrFacts.
Import PyStr.

Lemma eqc_eq (a b : ascii) : eqc a b = true <-> a = b.
Proof. apply Ascii.eqb_eq. Qed.

Lemma eqc_refl (a : ascii) : eqc a a = true.
Proof. apply eqc_eq. reflexivity. Qed.

(** [startswith] decides the prefix relation. *)
Lemma startswith_prefix (p s : str) :
  startswith p s = true <-> exists r, s = p ++ r.
Proof.
  revert s. induction p as [|a p IH]; intros s; simpl.
  - split; [intros _; exists s; reflexivity|reflexivity].
  - destruct s as [|b s].
    + split; [discriminate|intros [r Hr]; discriminate Hr].
    + rewrite andb_true_iff, eqc_eq, IH. split.
      * intros [-> [r ->]]. exists r. reflexivity.
      * intros [r Hr]. injection Hr as -> ->. split; [reflexivity|exists r; reflexivity].
  Qed.

(** [contains] decides the substring relation of [needle in hay]. *)
Lemma contains_infix (needle hay : str) :
  contains needle hay = true <-> exists pre suf, hay = pre ++ needle ++ suf.
Proof.
  induction hay as [|c hay IH].
  - simpl. rewrite orb_false_r, startswith_prefix. split.
    + intros [r Hr]. exists [], r. exact Hr.
    + intros (pre & suf & Hh). destruct pre; [exists suf; exact Hh|discriminate Hh].
  - cbn [contains]. rewrite orb_true_iff, startswith_prefix, IH. split.
    + intros [[r Hr]|(pre & suf & Hh)].
      * exists [], r. exact Hr.
      * exists (c :: pre), suf. rewrite Hh. reflexivity.
    + intros (pre & suf & Hh). destruct pre as [|c' pre].
      * left. exists suf. exact Hh.
      * right. injection Hh as _ Hh. exists pre, suf. exact Hh.
Qed.

(** The stripping functions leave no whitespace at the end they work on. *)
Lemma lstrip_head (s r : str) (c : ascii) :
  lstrip s = c :: r -> is_space c = false.
Proof.
  induction s as [|a s IH]; simpl; [discriminate|].
  destruct (is_space a) eqn:Ha; [exact IH|].
  intros Heq. injection Heq as <- _. exact Ha.
Qed.

Lemma rstrip_head (s r : str) (a c : ascii) :
  rstrip (a :: s) = c :: r -> c = a.
Proof.
  cbn [rstrip]. destruct (rstrip s); [destruct (is_space a)|]; congruence.
Qed.

Lemma strip_head (s r : str) (c : ascii) :
  strip s = c :: r -> is_space c = false.
Proof.
  unfold strip. destruct (lstrip s) as [|a l] eqn:Hl; [discriminate|].
  intros Hr. apply rstrip_head in Hr as ->. exact (lstrip_head _ _ _ Hl).
Qed.

(** A stripped line has no leading run of whitespace. *)
Lemma strip_no_leading_space (s : str) :
  Regex.run_length is_space (strip s) = 0.
Proof.
  destruct (strip s) as [|c r] eqn:Hs; [reflexivity|].
  simpl. rewrite (strip_head _ _ _ Hs). reflexivity.
Qed.

Lemma lstrip_fixed (s : str) :
  match s with c :: _ => is_space c = false | [] => True end -> lstrip s = s.
Proof. destruct s as [|c r]; [reflexivity|]. simpl. intros ->. reflexivity. Qed.

Lemma lstrip_spaces (s : str) : forallb is_space s = true -> lstrip s = [].
Proof.
  induction s as [|c s IH]; [reflexivity|]. simpl.
  intros [-> Hs]%andb_true_iff. exact (IH Hs).
Qed.

Lemma rstrip_spaces (s : str) : forallb is_space s = true -> rstrip s = [].
Proof.
  induction s as [|c s IH]; [reflexivity|]. simpl.
  intros [Hc Hs]%andb_true_iff. rewrite (IH Hs), Hc. reflexivity.
Qed.

Lemma rstrip_nil_spaces (s : str) : rstrip s = [] -> forallb is_space s = true.
Proof.
  induction s as [|c s IH]; [reflexivity|]. simpl.
  destruct (rstrip s); [|discriminate].
  destruct (is_space c); [|discriminate]. intros _. exact (IH eq_refl).
Qed.

Lemma rstrip_idem (s : str) : rstrip (rstrip s) = rstrip s.
Proof.
  induction s as [|c s IH]; [reflexivity|]. cbn [rstrip].
  destruct (rstrip s) as [|a l] eqn:Hr.
  - destruct (is_space c) eqn:Hc; [reflexivity|]. simpl. rewrite Hc. reflexivity.
  - cbn [rstrip]. cbn [rstrip] in IH. rewrite IH. reflexivity.
Qed.

Lemma strip_idem (s : str) : strip (strip s) = strip s.
Proof.
  unfold strip at 1. rewrite lstrip_fixed.
  - unfold strip. apply rstrip_idem.
  - destruct (strip s) eqn:Hs; [exact I|]. exact (strip_head _ _ _ Hs).
Qed.

End PyStrFacts.

(** ** The LLM-backed generator ([Sonnet]) *)

Section ScanFacts.
Import PyStr.
Variable match_len : str -> option nat.

(** Every string returned by [findall] is a match of the pattern at some
    position of the subject. *)
Lemma findall_go_match (skip : nat) (s x : str) :
  In x (Regex.findall_go match_len skip s) ->
  exists pre s' k, s = pre ++ s' /\ match_len s' = Some (S k) /\ x = take (S k) s'.
Proof.
  revert skip. induction s as [|c r IH]; intros skip; [intros []|].
  cbn [Regex.findall_go].
  assert (forall n, In x (Regex.findall_go match_len n r) ->
            exists pre s' k, c :: r = pre ++ s' /\ match_len s' = Some (S k)
                             /\ x = take (S k) s') as Hrest.
  { intros n (pre & s' & k & -> & Hm & Hx)%IH.
    exists (c :: pre), s', k. split; [reflexivity|split; assumption]. }
  destruct skip as [|n]; [|apply Hrest].
  destruct (match_len (c :: r)) as [[|k]|] eqn:Hm; try apply Hrest.
  intros [<-|Hin]; [|exact (Hrest _ Hin)].
  exists [], (c :: r), k. split; [reflexivity|split; [exact Hm|reflexivity]].
Qed.

Lemma findall_match (s x : str) :
  In x (Regex.findall match_len s) ->
  exists pre s' k, s = pre ++ s' /\ match_len s' = Some (S k) /\ x = take (S k) s'.
Proof. apply findall_go_match. Qed.
End ScanFacts.

Section FullCommandFacts.
Import PyStr Sonnet.

Lemma run_length_take (p : ascii -> bool) (s : str) :
  forallb p (take (Regex.run_length p s) s) = true.
Proof.
  induction s as [|c r IH]; [reflexivity|]. simpl.
  destruct (p c) eqn:Hc; [simpl; rewrite Hc; exact IH|reflexivity].
Qed.

(** A string without the separator is its own first field. *)
Lemma before_absent (d : ascii) (s : str) :
  forallb (fun c => negb (eqc c d)) s = true -> before d s = s.
Proof.
  unfold before. induction s as [|c r IH]; [reflexivity|].
  simpl. intros [Hc Hr]%andb_true_iff.
  apply negb_true_iff in Hc. rewrite Hc.
  specialize (IH Hr). destruct (split_on d r); congruence.
Qed.

Lemma flag_body_not_eq (c : ascii) :
  is_flag_body c = true -> negb (eqc c "=") = true.
Proof.
  intros Hb. apply negb_true_iff, not_true_is_false. intros ->%eqc_eq.
  vm_compute in Hb. discriminate Hb.
Qed.

(** The tokens found by the flag pattern hold no [=]: cutting them at the
    first [=] changes nothing. *)
Lemma flag_name_findall (command flag : str) :
  In flag (findall_flags command) -> flag_name flag = flag.
Proof.
  intros (pre & s & k & _ & Hm & ->)%findall_match.
  unfold flag_name. apply before_absent.
  unfold flag_match_len in Hm.
  destruct (startswith "--" s) eqn:Hs; [|discriminate Hm].
  apply startswith_prefix in Hs as [r ->].
  change (drop 2 ("--" ++ r)) with r in Hm.
  change ("--" ++ r) with ("-"%char :: "-"%char :: r).
  destruct (Regex.run_length is_flag_body r) as [|n] eqn:Hrun; [discriminate Hm|].
  injection Hm as <-. cbn [Nat.add take forallb].
  change (S n) with (S n) at 1. rewrite <- Hrun.
  simpl. apply forallb_forall. intros c Hc.
  apply flag_body_not_eq.
  pose proof (run_length_take is_flag_body r) as Hall.
  rewrite forallb_forall in Hall. apply Hall, Hc.
Qed.

Lemma validate_full_invalid (command help_text : str) :
  fst (_validate_full_command command help_text) = false <->
  exists flag, In flag (findall_flags command)
               /\ contains (flag_name flag) help_text = false.
Proof.
  unfold _validate_full_command.
  destruct (List.filter _ _) as [|name rest] eqn:Hf; cbn [fst]; split.
  - discriminate.
  - intros (flag & Hin & Hc). exfalso.
    assert (In (flag_name flag)
              (List.filter (fun name => negb (contains name help_text))
                           (map flag_name (findall_flags command)))) as Hmem.
    { apply filter_In. split; [apply in_map, Hin|rewrite Hc; reflexivity]. }
    rewrite Hf in Hmem. exact Hmem.
  - intros _.
    assert (In name (List.filter (fun name => negb (contains name help_text))
                                 (map flag_name (findall_flags command)))) as Hmem
      by (rewrite Hf; left; reflexivity).
    apply filter_In in Hmem as [Hin Hc].
    apply in_map_iff in Hin as (flag & <- & Hin).
    exists flag. split; [exact Hin|]. apply negb_true_iff, Hc.
  - reflexivity.
Qed.

Lemma validate_full_valid (command help_text : str) :
  fst (_validate_full_command command help_text) = true ->
  _validate_full_command command help_text = (true, "Command syntax is valid").
Proof.
  unfold _validate_full_command.
  destruct (List.filter _ _); [reflexivity|discriminate].
Qed.

(** The two messages of [_validate_full_command]. *)
Lemma validate_full_message (command help_text : str) :
  _validate_full_command command help_text = (true, "Command syntax is valid")
  \/ exists names,
      _validate_full_command command help_text = (false, "Invalid flags: " ++ names).
Proof.
  unfold _validate_full_command.
  destruct (List.filter _ _) as [|n l]; [left; reflexivity|right; eexists; reflexivity].
Qed.
End FullCommandFacts.



Section ProbeFacts.
Import PyStr Sonnet SonnetSpec.
Variable help : str -> bool * str.

(** The loop probes the candidates in order, stops at the first one whose
    help succeeds and validates against that help text. *)
Lemma probe_loop_candidates (command : str) (parts : list str) (indices : list nat) :
  exists failed rest,
    candidates_at parts indices = failed ++ rest
    /\ Forall (fun p => fst (help p) = false) failed
    /\ match rest with
       | p :: _ =>
           fst (help p) = true
           /\ snd (probe_loop help command parts indices) = failed ++ [p]
           /\ fst (probe_loop help command parts indices)
              = _validate_full_command command (snd (help p))
       | [] =>
           snd (probe_loop help command parts indices) = failed
           /\ fst (probe_loop help command parts indices)
              = (false, "Invalid gcloud command structure: " ++ command)
       end.
Proof.
  induction indices as [|i rest IH].
  - exists [], []. repeat split. constructor.
  - unfold candidates_at in *. cbn [probe_loop omap list_omap].
    destruct (check_parts parts i) as [|a cp] eqn:Hcp; [exact IH|].
    cbn [option_bind mbind]. set (partial_cmd := join " " (a :: cp)) in *.
    destruct (help partial_cmd) as [ok help_text] eqn:Hh.
    destruct ok.
    + exists [], (partial_cmd :: omap (fun i => match check_parts parts i with
                                                | [] => None
                                                | cp => Some (join " " cp)
                                                end) rest).
      rewrite Hh. repeat split. constructor.
    + destruct IH as (failed & rest' & Hc & Hf & Hr).
      exists (partial_cmd :: failed), rest'. split; [rewrite Hc; reflexivity|].
      split; [constructor; [rewrite Hh; reflexivity|exact Hf]|].
      destruct (probe_loop help command parts rest) as [r trace].
      destruct rest' as [|p rest'].
      * destruct Hr as [Ht Hv]. cbn [fst snd] in *. subst. split; reflexivity.
      * destruct Hr as (Hp & Ht & Hv). cbn [fst snd] in *. subst.
        split; [exact Hp|split; reflexivity].
Qed.

Lemma check_parts_grows (parts : list str) (i j : nat) :
  (i <= j)%nat -> check_parts parts i `prefix_of` check_parts parts j.
Proof.
  intros Hij. unfold check_parts.
  replace j with (i + (j - i))%nat by lia.
  rewrite <- take_take_drop, List.filter_app. apply prefix_app_r. reflexivity.
Qed.
End ProbeFacts.

Section StructureMessage.
Import PyStr Sonnet.

(** [_validate_full_command] never answers with the message of the final
    [return] of [_validate_command_syntax]. *)
Lemma validate_full_not_structure (command help_text rest : str) :
  _validate_full_command command help_text
  <> (false, "Invalid gcloud command structure: " ++ rest).
Proof.
  destruct (validate_full_message command help_text) as [->|[names ->]];
    intros Heq; discriminate Heq.
Qed.
End StructureMessage.




Section LoopFacts.
Import PyStr Sonnet SonnetSpec.
Variable help : str -> bool * str.
Variable generate_content : nat -> str -> api_outcome.
Variable max_iterations : Z.
Variable user_prompt : str.

Local Abbreviation prev := (previous_error_at help generate_content user_prompt).
Local Abbreviation valid := (validated_at help generate_content user_prompt).
Local Abbreviation prompt := (prompt_at help generate_content user_prompt).
Local Abbreviation loop := (generate_loop help generate_content max_iterations user_prompt).

(** The prompts sent are those of consecutive iterations, at most one per
    element of the range. *)
Lemma generate_loop_sent (k i : nat) :
  exists m, (m <= k)%nat /\ snd (loop (seq i k) (prev i)) = map prompt (seq i m).
Proof.
  revert i. induction k as [|k IH]; intros i.
  - exists 0%nat. split; [lia|reflexivity].
  - cbn [seq generate_loop].
    destruct (attempt help generate_content user_prompt i (prev i))
      as [[c [[] m]]|e] eqn:Ha.
    + exists 1%nat. split; [lia|reflexivity].
    + destruct (IH (S i)) as (n & Hn & Hs).
      cbn [previous_error_at] in Hs. rewrite Ha in Hs.
      destruct (loop (seq (S i) k) (Some m)) as [r sent].
      exists (S n). split; [lia|]. cbn [snd] in *. rewrite Hs. reflexivity.
    + destruct (IH (S i)) as (n & Hn & Hs).
      cbn [previous_error_at] in Hs. rewrite Ha in Hs.
      destruct (loop (seq (S i) k) (Some e)) as [r sent].
      exists (S n). split; [lia|]. cbn [snd] in *. rewrite Hs. reflexivity.
Qed.

(** When no iteration of the range validates, the loop runs to its end. *)
Lemma generate_loop_exhausted (k i : nat) :
  (forall j, (i <= j < i + k)%nat -> valid j = None) ->
  loop (seq i k) (prev i)
  = (GenFailure ("Failed to generate valid command after "
                   ++ int_to_str max_iterations ++ " attempts") (prev (i + k)),
     map prompt (seq i k)).
Proof.
  revert i. induction k as [|k IH]; intros i Hnone.
  - rewrite Nat.add_0_r. reflexivity.
  - cbn [seq generate_loop map].
    pose proof (Hnone i ltac:(lia)) as Hi. unfold validated_at in Hi.
    assert (forall j, (S i <= j < S i + k)%nat -> valid j = None) as Hrest
      by (intros j Hj; apply Hnone; lia).
    specialize (IH (S i) Hrest). cbn [previous_error_at] in IH.
    replace (i + S k)%nat with (S i + k)%nat by lia.
    destruct (attempt help generate_content user_prompt i (prev i))
      as [[c [[] m]]|e]; [discriminate Hi| |]; rewrite IH; reflexivity.
Qed.

(** The first iteration that validates ends the loop. *)
Lemma generate_loop_first_valid (d k i : nat) (c : str) :
  (d < k)%nat ->
  valid (i + d) = Some c ->
  (forall j, (i <= j < i + d)%nat -> valid j = None) ->
  loop (seq i k) (prev i)
  = (GenSuccess c "Command generated and validated successfully"
                (Z.of_nat (i + d) + 1),
     map prompt (seq i (S d))).
Proof.
  revert k i. induction d as [|d IH]; intros k i Hdk Hv Hnone;
    (destruct k as [|k]; [lia|]); cbn [seq generate_loop].
  - rewrite Nat.add_0_r in *. unfold validated_at in Hv.
    destruct (attempt help generate_content user_prompt i (prev i))
      as [[c' [[] m]]|e]; try discriminate Hv.
    injection Hv as ->. reflexivity.
  - pose proof (Hnone i ltac:(lia)) as Hi. unfold validated_at in Hi.
    replace (i + S d)%nat with (S i + d)%nat in * by lia.
    assert (forall j, (S i <= j < S i + d)%nat -> valid j = None) as Hrest
      by (intros j Hj; apply Hnone; lia).
    specialize (IH k (S i) ltac:(lia) Hv Hrest). cbn [previous_error_at] in IH.
    destruct (attempt help generate_content user_prompt i (prev i))
      as [[c' [[] m]]|e]; [discriminate Hi| |]; rewrite IH; reflexivity.
Qed.
End LoopFacts.



(** ** Substrings, fields and stripping *)

Section SubstringFacts.
Import PyStr.

(** A substring of a substring is a substring. *)
Lemma contains_within (t l s pre suf : str) :
  s = pre ++ l ++ suf -> contains t s = false -> contains t l = false.
Proof.
  intros -> Hs. apply not_true_is_false. intros (a & b & ->)%contains_infix.
  assert (contains t (pre ++ (a ++ t ++ b) ++ suf) = true) as Hc; [|congruence].
  apply contains_infix. exists (pre ++ a), (b ++ suf).
  rewrite <- !app_assoc. reflexivity.
Qed.

Lemma forallb_within (p : ascii -> bool) (l s pre suf : str) :
  s = pre ++ l ++ suf -> forallb p s = true -> forallb p l = true.
Proof.
  intros ->. rewrite !forallb_app, !andb_true_iff. intros (_ & Hl & _). exact Hl.
Qed.

Lemma lstrip_suffix (s : str) : exists pre, s = pre ++ lstrip s.
Proof.
  induction s as [|c s [pre IH]]; [exists []; reflexivity|]. simpl.
  destruct (is_space c); [exists (c :: pre); simpl; f_equal; exact IH|exists []; reflexivity].
Qed.

Lemma rstrip_prefix (s : str) : exists suf, s = rstrip s ++ suf.
Proof.
  induction s as [|c s [suf IH]]; [exists []; reflexivity|]. cbn [rstrip].
  destruct (rstrip s) as [|a l] eqn:Hr.
  - destruct (is_space c); [exists (c :: s)|exists s]; reflexivity.
  - exists suf. rewrite IH at 1. reflexivity.
Qed.

Lemma strip_within (s : str) : exists pre suf, s = pre ++ strip s ++ suf.
Proof.
  destruct (lstrip_suffix s) as [pre Hp].
  destruct (rstrip_prefix (lstrip s)) as [suf Hs].
  exists pre, suf. unfold strip. rewrite <- Hs. exact Hp.
Qed.

(** The first field of [split] is a prefix. *)
Lemma split_on_head_prefix (d : ascii) (s h : str) (t : list str) :
  split_on d s = h :: t -> exists suf, s = h ++ suf.
Proof.
  revert h t. induction s as [|c s IH]; intros h t.
  - intros Heq. injection Heq as <- _. exists []. reflexivity.
  - cbn [split_on]. destruct (eqc c d).
    + intros Heq. injection Heq as <- _. exists (c :: s). reflexivity.
    + destruct (split_on d s) as [|h' t'] eqn:Hsp.
      * intros Heq. injection Heq as <- _. exists s. reflexivity.
      * intros Heq. injection Heq as <- _.
        destruct (IH h' t' eq_refl) as [suf ->]. exists suf. reflexivity.
Qed.

(** The fields of [split] are substrings free of the separator. *)
Lemma split_on_within (d : ascii) (s l : str) :
  In l (split_on d s) -> exists pre suf, s = pre ++ l ++ suf.
Proof.
  revert l. induction s as [|c s IH]; intros l.
  - intros [<-|[]]. exists [], []. reflexivity.
  - cbn [split_on]. destruct (eqc c d).
    + intros [<-|Hin].
      * exists [], (c :: s). reflexivity.
      * destruct (IH l Hin) as (pre & suf & ->). exists (c :: pre), suf. reflexivity.
    + destruct (split_on d s) as [|h t] eqn:Hsp.
      * intros [<-|[]]. exists [], s. reflexivity.
      * intros [<-|Hin].
        -- destruct (split_on_head_prefix d s h t Hsp) as [suf ->].
           exists [], suf. reflexivity.
        -- destruct (IH l (or_intror Hin)) as (pre & suf & ->).
           exists (c :: pre), suf. reflexivity.
Qed.

Lemma split_on_no_sep (d : ascii) (s l : str) :
  In l (split_on d s) -> forallb (fun c => negb (eqc c d)) l = true.
Proof.
  revert l. induction s as [|c s IH]; intros l.
  - intros [<-|[]]. reflexivity.
  - cbn [split_on]. destruct (eqc c d) eqn:Hc.
    + intros [<-|Hin]; [reflexivity|exact (IH l Hin)].
    + destruct (split_on d s) as [|h t] eqn:Hsp.
      * intros [<-|[]]. simpl. rewrite Hc. reflexivity.
      * intros [<-|Hin].
        -- simpl. rewrite Hc. exact (IH h (or_introl eq_refl)).
        -- exact (IH l (or_intror Hin)).
Qed.

Lemma split_on_absent (d : ascii) (s : str) :
  forallb (fun c => negb (eqc c d)) s = true -> split_on d s = [s].
Proof.
  induction s as [|c r IH]; [reflexivity|].
  simpl. intros [Hc Hr]%andb_true_iff.
  apply negb_true_iff in Hc. rewrite Hc, (IH Hr). reflexivity.
Qed.

(** When every field is blank and the separator is whitespace, the whole
    string is blank. *)
Lemma split_on_blank (d : ascii) (s : str) :
  is_space d = true ->
  (forall l, In l (split_on d s) -> forallb is_space l = true) ->
  forallb is_space s = true.
Proof.
  intros Hd. induction s as [|c s IH]; [reflexivity|].
  cbn [split_on]. destruct (eqc c d) eqn:Hc.
  - apply eqc_eq in Hc as ->. intros Hall. simpl. rewrite Hd.
    apply IH. intros l Hl. apply Hall. right. exact Hl.
  - destruct (split_on d s) as [|h t] eqn:Hsp.
    + intros Hall. specialize (Hall [c] (or_introl eq_refl)).
      simpl in Hall |- *. apply andb_true_iff in Hall as [-> _].
      apply IH. intros l [].
    + intros Hall. pose proof (Hall (c :: h) (or_introl eq_refl)) as Hh.
      simpl in Hh |- *. apply andb_true_iff in Hh as [-> Hh].
      apply IH. intros l [<-|Hl]; [exact Hh|apply Hall; right; exact Hl].
Qed.

Lemma strip_nil_spaces (s : str) : strip s = [] -> forallb is_space s = true.
Proof.
  unfold strip. intros Hr%rstrip_nil_spaces.
  induction s as [|c s IH]; [reflexivity|]. simpl in Hr |- *.
  destruct (is_space c) eqn:Hc; [exact (IH Hr)|].
  simpl in Hr. rewrite Hc in Hr. discriminate Hr.
Qed.

Lemma strip_spaces (s : str) : forallb is_space s = true -> strip s = [].
Proof. intros Hs. unfold strip. rewrite (lstrip_spaces _ Hs). reflexivity. Qed.

(** A string without trailing whitespace has suffixes without trailing
    whitespace. *)
Lemma rstrip_fixed_suffix (a b : str) : rstrip (a ++ b) = a ++ b -> rstrip b = b.
Proof.
  induction a as [|x a IH]; [intros H; exact H|].
  cbn [app rstrip]. destruct (rstrip (a ++ b)) as [|y l] eqn:Hr.
  - destruct (is_space x); [discriminate|].
    intros Heq. injection Heq as Heq. symmetry in Heq.
    apply app_eq_nil in Heq as [_ ->]. reflexivity.
  - intros Heq. injection Heq as Heq. exact (IH Heq).
Qed.

End SubstringFacts.

(** ** The cleanup of a generated answer *)

Section RemoveFacts.
Import PyStr.
Variable match_len : str -> option nat.

(** Passing over the rest of a match is dropping it. *)
Lemma remove_go_skip (k : nat) (s : str) :
  Regex.remove_go match_len k s = Regex.remove_go match_len 0 (drop k s).
Proof.
  revert k. induction s as [|c r IH]; intros [|k]; try reflexivity.
  cbn [Regex.remove_go drop]. apply IH.
Qed.

(** A subject in which the pattern matches nowhere is left as it is. *)
Lemma remove_all_fixed (s : str) :
  (forall pre s', s = pre ++ s' -> match_len s' = None) ->
  Regex.remove_all match_len s = s.
Proof.
  unfold Regex.remove_all. induction s as [|c r IH]; intros Hno; [reflexivity|].
  cbn [Regex.remove_go]. rewrite (Hno [] (c :: r) eq_refl). f_equal.
  apply IH. intros pre s' ->. apply (Hno (c :: pre)). reflexivity.
Qed.
End RemoveFacts.

Section TicksFacts.
Import PyStr Sonnet.

Lemma contains_startswith (t s : str) :
  contains t s = false -> startswith t s = false.
Proof. destruct s; simpl; intros [H _]%orb_false_iff; exact H. Qed.

Lemma contains_tail (t : str) (c : ascii) (s : str) :
  contains t (c :: s) = false -> contains t s = false.
Proof. cbn [contains]. intros [_ H]%orb_false_iff. exact H. Qed.

Lemma no_ticks_suffixes (s pre s' : str) :
  contains "```" s = false -> s = pre ++ s' -> startswith "```" s' = false.
Proof.
  intros Hs ->. apply contains_startswith.
  apply (contains_within _ s' (pre ++ s') pre []); [|exact Hs].
  rewrite app_nil_r. reflexivity.
Qed.

(** Without three backticks in a row, neither substitution of
    [_clean_command] finds a match. *)
Lemma remove_fences_fixed (s : str) :
  contains "```" s = false -> Regex.remove_all fence_match_len s = s.
Proof.
  intros Hs. apply remove_all_fixed. intros pre s' Heq.
  unfold fence_match_len. rewrite (no_ticks_suffixes s pre s' Hs Heq). reflexivity.
Qed.

Lemma remove_ticks_fixed (s : str) :
  contains "```" s = false -> Regex.remove_all ticks_match_len s = s.
Proof.
  intros Hs. apply remove_all_fixed. intros pre s' Heq.
  unfold ticks_match_len. rewrite (no_ticks_suffixes s pre s' Hs Heq). reflexivity.
Qed.

Lemma remove_ticks_cons (c : ascii) (r : str) :
  Regex.remove_all ticks_match_len (c :: r)
  = if startswith "```" (c :: r)
    then Regex.remove_all ticks_match_len (drop 2 r)
    else c :: Regex.remove_all ticks_match_len r.
Proof.
  unfold Regex.remove_all. cbn [Regex.remove_go]. unfold ticks_match_len.
  destruct (startswith "```" (c :: r)); [apply remove_go_skip|reflexivity].
Qed.

(** What is left after [re.sub] of three backticks holds no three backticks
    in a row; a backtick (two backticks) at its head was at the head of the
    subject. *)
Lemma remove_ticks_scan (n : nat) (s : str) :
  (length s <= n)%nat ->
  contains "```" (Regex.remove_all ticks_match_len s) = false
  /\ (startswith "`" (Regex.remove_all ticks_match_len s) = true ->
      startswith "`" s = true)
  /\ (startswith "``" (Regex.remove_all ticks_match_len s) = true ->
      startswith "``" s = true).
Proof.
  revert s. induction n as [|n IH]; intros s Hn.
  - destruct s; [|simpl in Hn; lia]. repeat split; intros H; discriminate H.
  - destruct s as [|c r]; [repeat split; intros H; discriminate H|].
    rewrite remove_ticks_cons. destruct (startswith "```" (c :: r)) eqn:Hst.
    + apply startswith_prefix in Hst as [r' Hr].
      injection Hr as -> ->. cbn [app drop].
      destruct (IH r') as (Hc & _ & _); [simpl in Hn; lia|].
      split; [exact Hc|]. split; reflexivity.
    + destruct (IH r) as (Hc & Ha & Hb); [simpl in Hn; lia|].
      set (g := Regex.remove_all ticks_match_len r) in *.
      split; [|split].
      * cbn [contains]. rewrite Hc, orb_false_r.
        apply not_true_is_false. intros Hg.
        cbn [startswith] in Hg. apply andb_true_iff in Hg as [Hq Hg].
        assert (startswith "``" r = true) as Hr by (apply Hb; exact Hg).
        cbn [startswith] in Hst. rewrite Hq in Hst.
        cbn [startswith] in Hr. rewrite Hr in Hst. discriminate Hst.
      * cbn [startswith]. intros H; exact H.
      * cbn [startswith]. intros [Hq Hg]%andb_true_iff. rewrite Hq.
        apply Ha. cbn [startswith]. exact Hg.
Qed.

Lemma remove_ticks_free (s : str) :
  contains "```" (Regex.remove_all ticks_match_len s) = false.
Proof. apply (remove_ticks_scan (length s) s). lia. Qed.

Lemma remove_prompt_marker_suffix (s : str) :
  exists pre, s = pre ++ remove_prompt_marker s.
Proof.
  destruct s as [|c r]; [exists []; reflexivity|]. cbn [remove_prompt_marker].
  destruct (eqc c "$" || eqc c "#"); [|exists []; reflexivity].
  destruct (lstrip_suffix r) as [pre Hp]. exists (c :: pre). simpl. f_equal. exact Hp.
Qed.

End TicksFacts.

Section CleanShape.
Import PyStr Sonnet.

Local Abbreviation no_newline := (forallb (fun c => negb (eqc c "010"))).

(** The shape of every line kept by [_clean_command]. *)
Lemma clean_line_shape (s l : str) :
  contains "```" s = false ->
  In l (List.filter nonempty (map strip (split_on "010" s))) ->
  contains "```" l = false /\ no_newline l = true /\ strip l = l.
Proof.
  intros Hs [Hin _]%filter_In.
  apply in_map_iff in Hin as (f & <- & Hf).
  destruct (split_on_within _ _ _ Hf) as (pre & suf & Hsub).
  destruct (strip_within f) as (a & b & Hstrip).
  split; [|split].
  - apply (contains_within _ (strip f) f a b Hstrip).
    apply (contains_within _ f s pre suf Hsub Hs).
  - apply (forallb_within _ (strip f) f a b Hstrip).
    apply (split_on_no_sep _ _ _ Hf).
  - apply strip_idem.
Qed.

(** When no line is kept, the text is blank. *)
Lemma clean_no_lines (s : str) :
  List.filter nonempty (map strip (split_on "010" s)) = [] -> strip s = [].
Proof.
  intros Hl. apply strip_spaces, (split_on_blank "010"); [reflexivity|].
  intros l Hin. apply strip_nil_spaces.
  destruct (strip l) as [|c r] eqn:Hs; [reflexivity|].
  assert (In (c :: r) (List.filter nonempty (map strip (split_on "010" s)))) as Hmem.
  { apply filter_In. split; [|reflexivity]. rewrite <- Hs. apply in_map, Hin. }
  rewrite Hl in Hmem. destruct Hmem.
Qed.

Lemma clean_command_shape (s : str) :
  contains "```" (_clean_command s) = false
  /\ no_newline (_clean_command s) = true
  /\ strip (_clean_command s) = _clean_command s.
Proof.
  unfold _clean_command.
  set (s2 := Regex.remove_all ticks_match_len (Regex.remove_all fence_match_len s)).
  assert (contains "```" (remove_prompt_marker s2) = false) as Hfree.
  { destruct (remove_prompt_marker_suffix s2) as [pre Hp].
    apply (contains_within _ _ s2 pre []); [rewrite app_nil_r; exact Hp|].
    apply remove_ticks_free. }
  set (s3 := remove_prompt_marker s2) in *.
  destruct (List.find (startswith "gcloud") _) as [line|] eqn:Hfind.
  - apply find_some in Hfind as [Hin _]. exact (clean_line_shape s3 line Hfree Hin).
  - destruct (List.filter nonempty (map strip (split_on "010" s3)))
      as [|line rest] eqn:Hlines.
    + rewrite (clean_no_lines s3 Hlines). repeat split.
    + apply (clean_line_shape s3 line Hfree). rewrite Hlines. left. reflexivity.
Qed.

(** On a stripped single line without backtick fences, [_clean_command]
    does what its prompt-marker substitution does. *)
Lemma clean_command_on_line (o : str) :
  contains "```" o = false -> no_newline o = true -> strip o = o ->
  _clean_command o = remove_prompt_marker o.
Proof.
  intros Hfree Hnl Hstrip. unfold _clean_command.
  rewrite (remove_fences_fixed o Hfree), (remove_ticks_fixed o Hfree).
  destruct (remove_prompt_marker_suffix o) as [pre Hp].
  set (o' := remove_prompt_marker o) in *.
  assert (no_newline o' = true) as Hnl'.
  { apply (forallb_within _ o' o pre []); [rewrite app_nil_r; exact Hp|exact Hnl]. }
  assert (strip o' = o') as Hstrip'.
  { unfold o', remove_prompt_marker. destruct o as [|c r]; [reflexivity|].
    destruct (eqc c "$" || eqc c "#") eqn:Hm; [|exact Hstrip].
    assert (is_space c = false) as Hc.
    { apply orb_true_iff in Hm as [->%eqc_eq| ->%eqc_eq]; reflexivity. }
    unfold strip in Hstrip. cbn [lstrip] in Hstrip. rewrite Hc in Hstrip.
    destruct (lstrip_suffix r) as [a Ha].
    unfold strip. rewrite lstrip_fixed.
    - apply (rstrip_fixed_suffix (c :: a)). simpl. rewrite <- Ha. exact Hstrip.
    - destruct (lstrip r) eqn:Hl; [exact I|]. exact (lstrip_head _ _ _ Hl). }
  rewrite (split_on_absent _ _ Hnl'). cbn [map]. rewrite Hstrip'.
  destruct o' as [|c r]; [reflexivity|].
  cbn [List.filter nonempty List.find].
  destruct (startswith "gcloud" (c :: r)); reflexivity.
Qed.
End CleanShape.

(** ** Further properties of the LLM-backed generator *)

Section SplitJoinFacts.
Import PyStr.

(** A token: non-empty and free of whitespace. *)
Local Abbreviation is_token :=
  (fun t : str => t <> [] /\ forallb (fun c => negb (is_space c)) t = true).

Lemma emit_rev_token (cur : str) : cur <> [] -> emit cur = [rev cur].
Proof. destruct cur; [intros H; contradiction H; reflexivity|reflexivity]. Qed.

Lemma split_ws_go_token (t cur s : str) :
  forallb (fun c => negb (is_space c)) t = true ->
  split_ws_go cur (t ++ s) = split_ws_go (rev t ++ cur) s.
Proof.
  revert cur. induction t as [|c t IH]; intros cur; [reflexivity|].
  cbn [forallb app split_ws_go]. intros [Hc Ht]%andb_true_iff.
  apply negb_true_iff in Hc. rewrite Hc, (IH _ Ht).
  cbn [rev]. rewrite <- app_assoc. reflexivity.
Qed.

(** [split] returns tokens. *)
Lemma split_ws_go_tokens (cur s : str) :
  forallb (fun c => negb (is_space c)) cur = true ->
  Forall is_token (split_ws_go cur s).
Proof.
  revert cur. induction s as [|c s IH]; intros cur Hcur; cbn [split_ws_go].
  - destruct cur as [|a cur]; [constructor|]. constructor; [|constructor].
    split.
    + intros Hr. apply (f_equal (@length ascii)) in Hr.
      rewrite length_rev in Hr. discriminate Hr.
    + rewrite forallb_forall in *. intros x Hx. apply Hcur.
      apply in_rev. exact Hx.
  - destruct (is_space c) eqn:Hc.
    + apply Forall_app. split; [|apply IH; reflexivity].
      destruct cur as [|a cur]; [constructor|]. constructor; [|constructor].
      split.
      * intros Hr. apply (f_equal (@length ascii)) in Hr.
        rewrite length_rev in Hr. discriminate Hr.
      * rewrite forallb_forall in *. intros x Hx. apply Hcur.
        apply in_rev. exact Hx.
    + apply IH. cbn [forallb]. rewrite Hc. exact Hcur.
Qed.

Lemma split_ws_tokens (s : str) : Forall is_token (split_ws s).
Proof. apply split_ws_go_tokens. reflexivity. Qed.

(** Splitting the join of tokens gives the tokens back. *)
Lemma split_ws_join (tokens : list str) :
  Forall is_token tokens -> split_ws (join " " tokens) = tokens.
Proof.
  unfold split_ws. induction tokens as [|t rest IH]; [reflexivity|].
  intros Hall. apply Forall_cons in Hall as [[Hne Ht] Hrest].
  destruct rest as [|t' rest].
  - cbn [join]. rewrite <- (app_nil_r t) at 1. rewrite (split_ws_go_token t [] [] Ht).
    cbn [split_ws_go]. rewrite app_nil_r, emit_rev_token, rev_involutive;
      [reflexivity|].
    intros Hr. apply Hne. rewrite <- (rev_involutive t), Hr. reflexivity.
  - change (join " " (t :: t' :: rest)) with (t ++ " " ++ join " " (t' :: rest)).
    rewrite (split_ws_go_token t [] _ Ht), app_nil_r.
    change (" " ++ join " " (t' :: rest))
      with (" "%char :: join " " (t' :: rest)).
    cbn [split_ws_go]. change (is_space " ") with true. cbv iota.
    rewrite emit_rev_token, rev_involutive, (IH Hrest); [reflexivity|].
    intros Hr. apply Hne. rewrite <- (rev_involutive t), Hr. reflexivity.
Qed.

Lemma join_snoc (sep : str) (tokens : list str) (t : str) :
  tokens <> [] -> join sep (tokens ++ [t]) = join sep tokens ++ sep ++ t.
Proof.
  induction tokens as [|a rest IH]; [intros H; contradiction H; reflexivity|].
  intros _. destruct rest as [|b rest]; [reflexivity|].
  change (join sep ((a :: b :: rest) ++ [t]))
    with (a ++ sep ++ join sep ((b :: rest) ++ [t])).
  rewrite IH by discriminate.
  change (join sep (a :: b :: rest)) with (a ++ sep ++ join sep (b :: rest)).
  rewrite <- !app_assoc. reflexivity.
Qed.
End SplitJoinFacts.

(** X1: the command returned by [_clean_command] is one stripped line: it
    holds no newline and no run of three backticks, and stripping it
    changes nothing. *)
Theorem X1_clean_command_single_line (s : str) :
  ~ In "010"%char (Sonnet._clean_command s)
  /\ (~ exists pre suf, Sonnet._clean_command s = pre ++ "```" ++ suf)
  /\ PyStr.strip (Sonnet._clean_command s) = Sonnet._clean_command s.
Proof.
  destruct (clean_command_shape s) as (Hfree & Hnl & Hstrip).
  split; [|split; [|exact Hstrip]].
  - intros Hin. rewrite forallb_forall in Hnl. specialize (Hnl _ Hin).
    discriminate Hnl.
  - intros Hex. apply contains_infix in Hex. congruence.
Qed.

(** X2: cleaning a cleaned command only applies the prompt-marker
    substitution once more: the result is the cleaned command without a
    leading dollar or hash sign and the whitespace after it; a cleaned
    command that starts with another character is a fixed point. *)
Theorem X2_clean_command_twice (s : str) :
  Sonnet._clean_command (Sonnet._clean_command s)
  = Sonnet.remove_prompt_marker (Sonnet._clean_command s)
  /\ (forall c r,
        Sonnet._clean_command s = c :: r -> c <> "$"%char -> c <> "#"%char ->
        Sonnet._clean_command (Sonnet._clean_command s) = Sonnet._clean_command s).
Proof.
  destruct (clean_command_shape s) as (Hfree & Hnl & Hstrip).
  pose proof (clean_command_on_line _ Hfree Hnl Hstrip) as Htwice.
  split; [exact Htwice|].
  intros c r Hc Hd Hh. rewrite Htwice, Hc. cbn [Sonnet.remove_prompt_marker].
  destruct (PyStr.eqc c "$") eqn:E1; [apply eqc_eq in E1; contradiction|].
  destruct (PyStr.eqc c "#") eqn:E2; [apply eqc_eq in E2; contradiction|].
  reflexivity.
Qed.

Section ProbeArgv.
Import PyStr Sonnet SonnetSpec.

Lemma candidates_at_in (parts : list str) (indices : list nat) (p : str) :
  In p (candidates_at parts indices) ->
  exists i, check_parts parts i <> [] /\ p = join " " (check_parts parts i).
Proof.
  unfold candidates_at. intros Hin. apply list_elem_of_In in Hin.
  apply list_elem_of_omap in Hin as (i & _ & Hi).
  exists i. destruct (check_parts parts i) as [|a cp]; [discriminate Hi|].
  injection Hi as <-. split; [discriminate|reflexivity].
Qed.

(** Every probe is one of the candidates. *)
Lemma probes_candidates (help : str -> bool * str) (command p : str) :
  In p (probes help command) ->
  In p (candidates (split_ws (drop_gcloud command))).
Proof.
  unfold probes, validate_traced, candidates.
  set (c := drop_gcloud command). set (parts := split_ws c).
  destruct parts as [|t parts'] eqn:Hparts; [intros []|].
  rewrite <- Hparts.
  destruct (probe_loop_candidates help c parts (seq 1 (length parts)))
    as (failed & rest & Hc & _ & Hr).
  rewrite Hc. destruct rest as [|q rest].
  - destruct Hr as [-> _]. rewrite app_nil_r. intros H; exact H.
  - destruct Hr as (_ & -> & _). rewrite !in_app_iff.
    intros [H|[<-|[]]]; [left; exact H|right; left; reflexivity].
Qed.

Lemma check_parts_tokens (s : str) (i : nat) :
  Forall (fun t => (t <> [] /\ forallb (fun c => negb (is_space c)) t = true)
                   /\ startswith "-" t = false)
         (check_parts (split_ws s) i).
Proof.
  apply Forall_forall. intros t Ht. apply list_elem_of_In in Ht.
  apply filter_In in Ht as [Ht Hopt]. split.
  - pose proof (split_ws_tokens s) as Hall. rewrite Forall_forall in Hall.
    apply Hall. apply list_elem_of_In in Ht. exact (subseteq_take _ _ _ Ht).
  - apply negb_true_iff. exact Hopt.
Qed.
End ProbeArgv.

Section ArgvFacts.
Import PyStr Sonnet SonnetSpec SonnetHelp.

(** The argument vector built for the join of a non-empty list of
    tokens. *)
Lemma help_argv_join (cp : list str) :
  cp <> [] ->
  Forall (fun t => t <> [] /\ forallb (fun c => negb (is_space c)) t = true) cp ->
  help_argv (join " " cp) = "gcloud" :: cp ++ ["--help"].
Proof.
  intros Hne Hall. unfold help_argv.
  assert ("gcloud " ++ join " " cp ++ " --help"
          = join " " ("gcloud" :: cp ++ ["--help"])) as ->.
  { destruct cp as [|a cp]; [contradiction Hne; reflexivity|].
    pose proof (join_snoc " " (a :: cp) "--help" Hne) as Hj.
    exact (f_equal (fun x : str => "gcloud " ++ x) (eq_sym Hj)). }
  apply split_ws_join. constructor; [split; [discriminate|reflexivity]|].
  apply Forall_app. split; [exact Hall|].
  constructor; [split; [discriminate|reflexivity]|constructor].
Qed.
End ArgvFacts.

(** X3: every partial command probed by [_validate_command_syntax] reaches
    the subprocess of [_get_gcloud_help] as the argument vector gcloud, the
    non-option tokens of a prefix of the command, --help: no option of the
    command is ever passed on. *)
Theorem X3_probe_argv_has_no_option
    (help : str -> bool * str) (command p : str) :
  In p (Sonnet.probes help command) ->
  exists i,
    SonnetHelp.help_argv p
    = "gcloud" :: Sonnet.check_parts (PyStr.split_ws (Sonnet.drop_gcloud command)) i
               ++ ["--help"]
    /\ Forall (fun t => PyStr.startswith "-" t = false)
              (Sonnet.check_parts (PyStr.split_ws (Sonnet.drop_gcloud command)) i).
Proof.
  intros Hin. apply probes_candidates, candidates_at_in in Hin as (i & Hne & ->).
  exists i. pose proof (check_parts_tokens (Sonnet.drop_gcloud command) i) as Hall.
  split.
  - apply help_argv_join; [exact Hne|].
    eapply Forall_impl; [exact Hall|]. intros t [Ht _]. exact Ht.
  - eapply Forall_impl; [exact Hall|]. intros t [_ Ht]. exact Ht.
Qed.

Lemma X3_probe_argv_has_no_option_witness :
  exists i,
    SonnetHelp.help_argv "compute instances"
    = "gcloud" :: Sonnet.check_parts
                    (PyStr.split_ws
                       (Sonnet.drop_gcloud "gcloud compute --quiet instances list")) i
               ++ ["--help"]
    /\ Forall (fun t => PyStr.startswith "-" t = false)
              (Sonnet.check_parts
                 (PyStr.split_ws
                    (Sonnet.drop_gcloud "gcloud compute --quiet instances list")) i).
Proof.
  apply (X3_probe_argv_has_no_option SonnetSpec.help_instances_only
           "gcloud compute --quiet instances list" "compute instances").
  vm_compute. right. right. left. reflexivity.
Defined.

Section NoProbe.
Import PyStr Sonnet SonnetSpec.

Lemma check_parts_only_options (parts : list str) (i : nat) :
  Forall (fun t => is_option t = true) parts -> check_parts parts i = [].
Proof.
  intros Hall. unfold check_parts.
  assert (Forall (fun t => is_option t = true) (take i parts)) as Ht
    by (apply Forall_take; exact Hall).
  induction Ht as [|t l Hopt _ IH]; [reflexivity|].
  cbn [List.filter]. rewrite Hopt. exact IH.
Qed.

Lemma probe_loop_only_options (help : str -> bool * str) (c : str)
    (parts : list str) (indices : list nat) :
  Forall (fun t => is_option t = true) parts ->
  probe_loop help c parts indices
  = ((false, "Invalid gcloud command structure: " ++ c), []).
Proof.
  intros Hall. induction indices as [|i rest IH]; [reflexivity|].
  cbn [probe_loop]. rewrite (check_parts_only_options parts i Hall). exact IH.
Qed.

Lemma filter_nil_options (parts : list str) :
  List.filter (fun p => negb (is_option p)) parts = [] ->
  Forall (fun t => is_option t = true) parts.
Proof.
  induction parts as [|t l IH]; [constructor|]. cbn [List.filter].
  destruct (is_option t) eqn:Ht; [|discriminate].
  intros Hl. constructor; [exact Ht|exact (IH Hl)].
Qed.

Lemma candidates_nil_options (parts : list str) :
  candidates parts = [] -> Forall (fun t => is_option t = true) parts.
Proof.
  destruct parts as [|t l] eqn:Hp; [constructor|]. rewrite <- Hp.
  intros Hc. apply filter_nil_options.
  destruct (List.filter _ parts) as [|a cp] eqn:Hf; [reflexivity|]. exfalso.
  assert (join " " (a :: cp) ∈ candidates parts) as Hin.
  { unfold candidates, candidates_at. apply list_elem_of_omap.
    exists (length parts). split.
    - apply elem_of_seq. rewrite Hp. simpl. lia.
    - unfold check_parts. rewrite firstn_all, Hf. reflexivity. }
  rewrite Hc in Hin. inversion Hin.
Qed.
End NoProbe.

(** X4: [_validate_command_syntax] invokes no help subprocess exactly when
    every token left after the gcloud prefix is an option (a blank command
    included); the answer is then (False, Empty command) for a command
    without tokens and (False, Invalid gcloud command structure: ...)
    otherwise, whatever the subprocess would have said. *)
Theorem X4_no_probe_iff_only_options (help : str -> bool * str) (command : str) :
  let c := Sonnet.drop_gcloud command in
  let parts := PyStr.split_ws c in
  (Sonnet.probes help command = []
   <-> Forall (fun t => Sonnet.is_option t = true) parts)
  /\ (Forall (fun t => Sonnet.is_option t = true) parts ->
      Sonnet._validate_command_syntax help command
      = match parts with
        | [] => (false, "Empty command")
        | _ => (false, "Invalid gcloud command structure: " ++ c)
        end).
Proof.
  intros c parts.
  assert (Forall (fun t => Sonnet.is_option t = true) parts ->
          Sonnet.validate_traced help command
          = (match parts with
             | [] => (false, "Empty command")
             | _ => (false, "Invalid gcloud command structure: " ++ c)
             end, [])) as Hopt.
  { intros Hall. unfold Sonnet.validate_traced. fold c. fold parts.
    destruct parts as [|t l] eqn:Hp; [reflexivity|].
    apply probe_loop_only_options. exact Hall. }
  split; [split|].
  - intros Hnil. apply candidates_nil_options.
    unfold Sonnet.probes, Sonnet.validate_traced in Hnil.
    fold c in Hnil. fold parts in Hnil. unfold SonnetSpec.candidates.
    destruct parts as [|t l] eqn:Hp; [reflexivity|]. rewrite <- Hp in *.
    destruct (probe_loop_candidates help c parts (seq 1 (length parts)))
      as (failed & rest & Hc & _ & Hr).
    rewrite Hc. destruct rest as [|q rest].
    + destruct Hr as [Hs _]. rewrite Hnil in Hs. subst failed. reflexivity.
    + destruct Hr as (_ & Hs & _). rewrite Hnil in Hs.
      destruct failed; discriminate Hs.
  - intros Hall. unfold Sonnet.probes. rewrite (Hopt Hall). reflexivity.
  - intros Hall. unfold Sonnet._validate_command_syntax. rewrite (Hopt Hall).
    reflexivity.
Qed.

Section SuccessFacts.
Import PyStr Sonnet.
Variable help : str -> bool * str.
Variable generate_content : nat -> str -> api_outcome.
Variable max_iterations : Z.
Variable user_prompt : str.

(** A success comes from an iteration of the range whose answer, cleaned,
    passed the validation. *)
Lemma generate_loop_success (n i : nat) (previous_error : option str)
    (c m : str) (k : Z) (sent : list str) :
  generate_loop help generate_content max_iterations user_prompt
                (seq i n) previous_error
  = (GenSuccess c m k, sent) ->
  (Z.of_nat i + 1 <= k <= Z.of_nat i + Z.of_nat n)%Z
  /\ m = "Command generated and validated successfully"
  /\ fst (_validate_command_syntax help c) = true
  /\ (exists text p,
        generate_content (Z.to_nat (k - 1)) p = Returned text
        /\ c = _clean_command (strip text))
  /\ Z.of_nat (length sent) = (k - Z.of_nat i)%Z.
Proof.
  revert i previous_error sent. induction n as [|n IH]; intros i prev sent.
  - cbn [seq generate_loop]. discriminate.
  - cbn [seq generate_loop]. unfold attempt.
    destruct (generate_content i (_create_generation_prompt user_prompt prev))
      as [text|e] eqn:Hg.
    + destruct (_validate_command_syntax help (_clean_command (strip text)))
        as [[] msg] eqn:Hv.
      * intros Heq. injection Heq as <- <- <- <-.
        split; [lia|]. split; [reflexivity|]. split; [rewrite Hv; reflexivity|].
        split; [|simpl; lia].
        exists text, (_create_generation_prompt user_prompt prev).
        replace (Z.to_nat (Z.of_nat i + 1 - 1)) with i by lia.
        split; [exact Hg|reflexivity].
      * destruct (generate_loop help generate_content max_iterations user_prompt
                                (seq (S i) n) (Some msg)) as [r sent'] eqn:Hl.
        intros Heq. injection Heq as -> <-.
        destruct (IH _ _ _ Hl) as (Hk & Hm & Hok & Hex & Hlen).
        split; [lia|]. split; [exact Hm|]. split; [exact Hok|].
        split; [exact Hex|]. simpl length. lia.
    + destruct (generate_loop help generate_content max_iterations user_prompt
                              (seq (S i) n) (Some e)) as [r sent'] eqn:Hl.
      intros Heq. injection Heq as -> <-.
      destruct (IH _ _ _ Hl) as (Hk & Hm & Hok & Hex & Hlen).
      split; [lia|]. split; [exact Hm|]. split; [exact Hok|].
      split; [exact Hex|]. simpl length. lia.
Qed.
End SuccessFacts.

(** X5: a success of [generate_command] is sound: its command is the
    cleaned answer of one API call and passed [_validate_command_syntax],
    its iteration count lies between 1 and [max_iterations] and equals the
    number of prompts sent; so with [max_iterations] below 1 there is no
    success. *)
Theorem X5_generate_command_success_sound
    (help : str -> bool * str) (generate_content : nat -> str -> Sonnet.api_outcome)
    (max_iterations : Z) (user_prompt c m : str) (k : Z) :
  Sonnet.generate_command help generate_content max_iterations user_prompt
  = Sonnet.GenSuccess c m k ->
  (1 <= k <= max_iterations)%Z
  /\ m = "Command generated and validated successfully"
  /\ fst (Sonnet._validate_command_syntax help c) = true
  /\ (exists text p,
        generate_content (Z.to_nat (k - 1)) p = Sonnet.Returned text
        /\ c = Sonnet._clean_command (PyStr.strip text))
  /\ Z.of_nat (length (Sonnet.prompts_sent help generate_content max_iterations
                                           user_prompt)) = k.
Proof.
  unfold Sonnet.generate_command, Sonnet.prompts_sent, Sonnet.generate_traced.
  destruct (Sonnet.generate_loop help generate_content max_iterations user_prompt
              (seq 0 (Z.to_nat max_iterations)) None) as [r sent] eqn:Hl.
  cbn [fst snd]. intros ->.
  destruct (generate_loop_success _ _ _ _ _ _ _ _ _ _ _ Hl)
    as (Hk & Hm & Hok & Hex & Hlen).
  split; [lia|]. split; [exact Hm|]. split; [exact Hok|].
  split; [exact Hex|]. lia.
Qed.

Lemma X5_generate_command_success_sound_witness :
  (1 <= 2 <= 3)%Z
  /\ ("Command generated and validated successfully" : str)
     = "Command generated and validated successfully"
  /\ fst (Sonnet._validate_command_syntax SonnetSpec.help_always
            "gcloud run services list --region=us-central1") = true
  /\ (exists text p,
        SonnetSpec.api_fails_once (Z.to_nat (2 - 1)) p = Sonnet.Returned text
        /\ "gcloud run services list --region=us-central1"
           = Sonnet._clean_command (PyStr.strip text))
  /\ Z.of_nat (length (Sonnet.prompts_sent SonnetSpec.help_always
                         SonnetSpec.api_fails_once 3 "list Cloud Run services"))
     = 2%Z.
Proof.
  apply (X5_generate_command_success_sound SonnetSpec.help_always
           SonnetSpec.api_fails_once 3 "list Cloud Run services").
  vm_compute. reflexivity.
Defined.

(** X24: when the help call for the first token of the command succeeds
    (the token not being an option), no longer prefix is ever probed: the
    verdict is that of [_validate_full_command] on the help text of that
    one token, whatever tokens follow, and a command without any
    double-hyphen flag is accepted. *)
Theorem X24_first_token_help_decides
    (help : str -> bool * str) (command t : str) (rest : list str) :
  PyStr.split_ws (Sonnet.drop_gcloud command) = t :: rest ->
  Sonnet.is_option t = false ->
  fst (help t) = true ->
  Sonnet.probes help command = [t]
  /\ Sonnet._validate_command_syntax help command
     = Sonnet._validate_full_command (Sonnet.drop_gcloud command) (snd (help t))
  /\ (Sonnet.findall_flags (Sonnet.drop_gcloud command) = [] ->
      Sonnet._validate_command_syntax help command
      = (true, "Command syntax is valid")).
Proof.
  intros Hparts Hopt Hok.
  assert (Sonnet.validate_traced help command
          = (Sonnet._validate_full_command (Sonnet.drop_gcloud command) (snd (help t)),
             [t])) as Htr.
  { unfold Sonnet.validate_traced. rewrite Hparts.
    cbn [length seq Sonnet.probe_loop]. unfold Sonnet.check_parts.
    change (take 1 (t :: rest)) with [t].
    cbn [List.filter]. rewrite Hopt. cbn [negb PyStr.join].
    destruct (help t) as [ok h]. cbn [fst snd] in *. rewrite Hok. reflexivity. }
  unfold Sonnet.probes, Sonnet._validate_command_syntax. rewrite Htr. cbn [fst snd].
  split; [reflexivity|]. split; [reflexivity|].
  intros Hnone. unfold Sonnet._validate_full_command. rewrite Hnone. reflexivity.
Qed.

Lemma X24_first_token_help_decides_witness :
  Sonnet.probes SonnetSpec.help_always "gcloud run frobnicate everything" = ["run"]
  /\ Sonnet._validate_command_syntax SonnetSpec.help_always
       "gcloud run frobnicate everything"
     = Sonnet._validate_full_command
         (Sonnet.drop_gcloud "gcloud run frobnicate everything")
         (snd (SonnetSpec.help_always "run"))
  /\ (Sonnet.findall_flags (Sonnet.drop_gcloud "gcloud run frobnicate everything") = [] ->
      Sonnet._validate_command_syntax SonnetSpec.help_always
        "gcloud run frobnicate everything"
      = (true, "Command syntax is valid")).
Proof.
  apply (X24_first_token_help_decides SonnetSpec.help_always
           "gcloud run frobnicate everything" "run" ["frobnicate"; "everything"]).
  - vm_compute. reflexivity.
  - reflexivity.
  - reflexivity.
Defined.

(** ** Further properties of the index-based generator *)

Section FieldFacts.
Import PyStr CmdGen.
Variable is_sep : ascii -> bool.

(** The fields cut by a separator class are non-empty and free of
    separators. *)
Lemma fields_go_fields (cur s : str) :
  forallb (fun c => negb (is_sep c)) cur = true ->
  Forall (fun t => t <> [] /\ forallb (fun c => negb (is_sep c)) t = true)
         (fields_go is_sep cur s).
Proof.
  assert (forall cur : str,
            forallb (fun c => negb (is_sep c)) cur = true ->
            Forall (fun t => t <> [] /\ forallb (fun c => negb (is_sep c)) t = true)
                   (emit cur)) as Hemit.
  { intros [|a l] Hl; [constructor|]. constructor; [|constructor]. split.
    - intros Hr. apply (f_equal (@length ascii)) in Hr.
      rewrite length_rev in Hr. discriminate Hr.
    - rewrite forallb_forall in *. intros x Hx. apply Hl, in_rev, Hx. }
  revert cur. induction s as [|c s IH]; intros cur Hcur; cbn [fields_go].
  - apply Hemit, Hcur.
  - destruct (is_sep c) eqn:Hc.
    + apply Forall_app. split; [apply Hemit, Hcur|apply IH; reflexivity].
    + apply IH. cbn [forallb]. rewrite Hc. exact Hcur.
Qed.
End FieldFacts.

Section TokenFacts.
Import PyStr CmdGen.

Ltac each_char c :=
  destruct c as [[|] [|] [|] [|] [|] [|] [|] [|]]; vm_compute; try reflexivity;
  try discriminate; try (intros; congruence).

Lemma lower_char_idem (c : ascii) : lower_char (lower_char c) = lower_char c.
Proof. each_char c. Qed.

Lemma lower_char_not_sep (c : ascii) :
  is_token_sep c = false -> is_token_sep (lower_char c) = false.
Proof. each_char c. Qed.

Lemma not_sep_word_or_hyphen (c : ascii) :
  is_token_sep c = false -> is_word c = true \/ c = "-"%char.
Proof.
  unfold is_token_sep. intros H. apply negb_false_iff, orb_true_iff in H.
  destruct H as [H|H]; [left; exact H|right; apply eqc_eq, H].
Qed.

Lemma not_sep_not_space (c : ascii) : is_token_sep c = false -> is_space c = false.
Proof. each_char c. Qed.

Lemma lower_idem (s : str) : lower (lower s) = lower s.
Proof.
  unfold lower. rewrite map_map. apply map_ext. intros c. apply lower_char_idem.
Qed.
End TokenFacts.

Section TokenizeFacts.
Import PyStr CmdGen.

(** The tokens are non-empty and hold no separator, also after
    lower-casing. *)
Lemma tokenize_not_sep (text t : str) :
  In t (tokenize text) ->
  t <> [] /\ Forall (fun c => is_token_sep c = false) t.
Proof.
  unfold tokenize. intros Hin.
  apply in_map_iff in Hin as (f & <- & Hf).
  pose proof (fields_go_fields is_token_sep [] text eq_refl) as Hall.
  rewrite Forall_forall in Hall. apply list_elem_of_In in Hf.
  destruct (Hall f Hf) as [Hne Hsep]. split.
  - destruct f; [contradiction Hne; reflexivity|discriminate].
  - unfold lower. apply Forall_map. apply Forall_forall. intros c Hc.
    apply lower_char_not_sep. rewrite forallb_forall in Hsep.
    apply list_elem_of_In in Hc. apply negb_true_iff, Hsep, Hc.
Qed.

Lemma tokenize_lower (text t : str) : In t (tokenize text) -> lower t = t.
Proof.
  unfold tokenize. intros Hin. apply in_map_iff in Hin as (f & <- & _).
  apply lower_idem.
Qed.
End TokenizeFacts.

(** X6: for a text of Latin-1 characters (code points below 256, the
    strings [str] holds), every token returned by [tokenize] is non-empty,
    consists of word characters and hyphens only (so it holds no
    whitespace), and is in lower case.  The restriction matters: [lower()]
    is applied after the split, and beyond Latin-1 it can produce a
    character that is not a word character. *)
Theorem X6_tokenize_tokens (text t : str) :
  In t (CmdGen.tokenize text) ->
  t <> []
  /\ Forall (fun c => PyStr.is_word c = true \/ c = "-"%char) t
  /\ Forall (fun c => PyStr.is_space c = false) t
  /\ PyStr.lower t = t.
Proof.
  intros Hin. destruct (tokenize_not_sep text t Hin) as [Hne Hlow].
  split; [exact Hne|]. split; [|split].
  - eapply Forall_impl; [exact Hlow|]. intros c. apply not_sep_word_or_hyphen.
  - eapply Forall_impl; [exact Hlow|]. intros c. apply not_sep_not_space.
  - exact (tokenize_lower text t Hin).
Qed.

Lemma X6_tokenize_tokens_witness :
  ("cloud-run" : str) <> []
  /\ Forall (fun c => PyStr.is_word c = true \/ c = "-"%char) ("cloud-run" : str)
  /\ Forall (fun c => PyStr.is_space c = false) ("cloud-run" : str)
  /\ PyStr.lower "cloud-run" = "cloud-run".
Proof.
  apply (X6_tokenize_tokens "Show the Cloud-Run config, please!" "cloud-run").
  vm_compute. right. right. left. reflexivity.
Defined.

Section SynonymFacts.
Import PyStr CmdGen.

Lemma verb_synonym_value (t v : str) :
  VERB_SYNONYMS !! t = Some v -> is_verb v = true /\ canonicalize_token v = v.
Proof.
  unfold VERB_SYNONYMS. intros H. apply elem_of_list_to_map_2 in H.
  repeat (apply elem_of_cons in H as [H|H];
          [injection H as -> ->; vm_compute; split; reflexivity|]).
  inversion H.
Qed.

Lemma resource_synonym_value (t r : str) :
  RESOURCE_SYNONYMS !! t = Some r -> canonicalize_token r = r.
Proof.
  unfold RESOURCE_SYNONYMS. intros H. apply elem_of_list_to_map_2 in H.
  repeat (apply elem_of_cons in H as [H|H];
          [injection H as -> ->; vm_compute; reflexivity|]).
  inversion H.
Qed.

Lemma canonicalize_token_idem (t : str) :
  canonicalize_token (canonicalize_token t) = canonicalize_token t.
Proof.
  unfold canonicalize_token at 2 3.
  destruct (VERB_SYNONYMS !! t) as [v|] eqn:Hv.
  - apply (verb_synonym_value t v Hv).
  - destruct (RESOURCE_SYNONYMS !! t) as [r|] eqn:Hr.
    + apply (resource_synonym_value t r Hr).
    + unfold canonicalize_token. rewrite Hv, Hr. reflexivity.
Qed.
End SynonymFacts.

(** X7: canonical tokens are fixed points: every value of the two synonym
    tables is mapped to itself, so [canonicalize_tokens] is idempotent. *)
Theorem X7_canonicalize_tokens_idempotent (tokens : list str) :
  CmdGen.canonicalize_tokens (CmdGen.canonicalize_tokens tokens)
  = CmdGen.canonicalize_tokens tokens.
Proof.
  unfold CmdGen.canonicalize_tokens. rewrite map_map. apply map_ext.
  intros t. apply canonicalize_token_idem.
Qed.

(** X8: the verb synonyms and the verbs of [score_candidate] agree: a token
    found in [VERB_SYNONYMS] is canonicalized to one of the six verbs that
    earn the verb bonus, and each of these six verbs is left as it is. *)
Theorem X8_verb_synonyms_are_scoring_verbs (t : str) :
  (forall v, CmdGen.VERB_SYNONYMS !! t = Some v ->
             v ∈ CmdGen.verbs /\ CmdGen.canonicalize_token t = v)
  /\ (t ∈ CmdGen.verbs -> CmdGen.canonicalize_token t = t).
Proof.
  split.
  - intros v Hv. destruct (verb_synonym_value t v Hv) as [Hverb _]. split.
    + apply bool_decide_eq_true in Hverb. exact Hverb.
    + unfold CmdGen.canonicalize_token. rewrite Hv. reflexivity.
  - unfold CmdGen.verbs. rewrite !elem_of_union, !elem_of_singleton.
    intros [[[[[->| ->]| ->]| ->]| ->]| ->]; vm_compute; reflexivity.
Qed.

(** X9: a key of [RESOURCE_SYNONYMS] that holds a space (cloud run, compute
    engine, service account, ...) is never a token of [tokenize], so the
    lookup of [canonicalize_tokens] on tokenized text never finds it. *)
Theorem X9_multiword_synonyms_unreachable (text k : str) :
  In " "%char k ->
  is_Some (CmdGen.RESOURCE_SYNONYMS !! k) ->
  ~ In k (CmdGen.tokenize text).
Proof.
  intros Hsp _ Hin. destruct (tokenize_not_sep text k Hin) as [_ Hns].
  rewrite Forall_forall in Hns. apply list_elem_of_In in Hsp.
  specialize (Hns _ Hsp). vm_compute in Hns. discriminate Hns.
Qed.

Lemma X9_multiword_synonyms_unreachable_witness :
  In " "%char ("cloud run" : str)
  /\ ~ In ("cloud run" : str) (CmdGen.tokenize "show my cloud run service").
Proof.
  assert (In " "%char ("cloud run" : str)) as Hsp
    by (simpl; right; right; right; right; right; left; reflexivity).
  split; [exact Hsp|].
  apply (X9_multiword_synonyms_unreachable "show my cloud run service" "cloud run" Hsp).
  vm_compute. eexists. reflexivity.
Defined.

Section SortFacts.
Import PyStr CmdGen.
Context {F : Type} `{FloatOps F}.

(** The sort only reorders. *)
Lemma insert_desc_perm {A} (x : A * F) (l : list (A * F)) :
  Permutation (insert_desc x l) (x :: l).
Proof.
  induction l as [|y l IH]; [reflexivity|]. cbn [insert_desc].
  destruct (flt (snd x) (snd y)); [|reflexivity].
  rewrite IH. apply perm_swap.
Qed.

Lemma sort_desc_perm {A} (l : list (A * F)) : Permutation (sort_desc l) l.
Proof.
  induction l as [|x l IH]; [reflexivity|].
  cbn [sort_desc foldr]. rewrite insert_desc_perm. constructor. exact IH.
Qed.

Lemma slice_to_length {A} (k : Z) (l : list A) :
  length (slice_to k l)
  = if (k <? 0)%Z then (length l - Z.to_nat (- k))%nat
    else Nat.min (Z.to_nat k) (length l).
Proof.
  unfold slice_to. destruct (k <? 0)%Z; rewrite length_take; lia.
Qed.

Lemma slice_to_prefix {A} (k : Z) (l : list A) :
  exists rest, l = slice_to k l ++ rest.
Proof.
  unfold slice_to. destruct (k <? 0)%Z; eexists; symmetry; apply take_drop.
Qed.
End SortFacts.

(** X10: [choose_candidates] only selects: the list it returns has
    [min(topk, len(index))] entries for [topk >= 0] (and
    [len(index) - |topk|], at least 0, for a negative [topk]), and it is
    the head of a rearrangement of the index entries paired with their
    [score_candidate] scores; with [topk >= 1], as [main] calls it, it is
    empty only for an empty index. *)
Theorem X10_choose_candidates_selects {F : Type} `{CmdGen.FloatOps F}
    (ratio : str -> str -> F) (index : list (str * CmdGen.CommandSpec))
    (prompt : str) (topk : Z) :
  let chosen := CmdGen.choose_candidates ratio index prompt topk in
  let tokens := CmdGen.canonicalize_tokens (CmdGen.tokenize prompt) in
  length chosen
  = (if (topk <? 0)%Z then (length index - Z.to_nat (- topk))%nat
     else Nat.min (Z.to_nat topk) (length index))
  /\ (exists rest,
        Permutation (chosen ++ rest)
          (map (fun e => (snd e, CmdGen.score_candidate ratio tokens (fst e))) index))
  /\ ((1 <= topk)%Z -> (chosen = [] <-> index = [])).
Proof.
  intros chosen tokens. unfold chosen, CmdGen.choose_candidates. fold tokens.
  set (scored := map (fun e => (snd e, CmdGen.score_candidate ratio tokens (fst e)))
                     index).
  assert (length (CmdGen.sort_desc scored) = length index) as Hlen.
  { rewrite (Permutation_length (sort_desc_perm scored)).
    unfold scored. apply length_map. }
  assert (length (CmdGen.slice_to topk (CmdGen.sort_desc scored))
          = (if (topk <? 0)%Z then (length index - Z.to_nat (- topk))%nat
             else Nat.min (Z.to_nat topk) (length index))) as Hsize
    by (rewrite slice_to_length, Hlen; reflexivity).
  split; [exact Hsize|]. split.
  - destruct (slice_to_prefix topk (CmdGen.sort_desc scored)) as [rest Hrest].
    exists rest. rewrite <- Hrest. apply sort_desc_perm.
  - intros Hk. destruct (topk <? 0)%Z eqn:Hneg; [lia|]. split.
    + intros Hnil. rewrite Hnil in Hsize. simpl in Hsize.
      destruct index; [reflexivity|simpl in Hsize; lia].
    + intros Hidx. apply nil_length_inv. rewrite Hsize, Hidx. simpl. lia.
Qed.

Section ScraperFacts.
Import PyStr CmdGen.

(** The per-line pattern asks for leading whitespace and is tried on the
    stripped line: it never matches. *)
Lemma flag_line_match_stripped (line : str) : flag_line_match (strip line) = None.
Proof. unfold flag_line_match. rewrite strip_no_leading_space. reflexivity. Qed.

Lemma block_flags_nil (flags_block : str) : block_flags flags_block = [].
Proof.
  unfold block_flags. induction (splitlines flags_block) as [|line l IH];
    [reflexivity|].
  cbn [omap list_omap]. rewrite flag_line_match_stripped. exact IH.
Qed.

Lemma section_flags_nil (out : str) : section_flags out = [].
Proof.
  unfold section_flags. destruct (search_flags_block out); [|reflexivity].
  apply block_flags_nil.
Qed.

Lemma legal_flags_wide (out : str) : legal_flags out = GCLOUD_WIDE_FLAGS.
Proof. unfold legal_flags. rewrite section_flags_nil. reflexivity. Qed.

Lemma parse_help_flags_wide (out : str) :
  parse_help_flags out
  = ["--account"; "--configuration"; "--format"; "--project"; "--quiet";
     "--verbosity"].
Proof.
  unfold parse_help_flags. rewrite section_flags_nil. vm_compute. reflexivity.
Qed.
End ScraperFacts.

Lemma filter_not_in_nil (S : gset str) (keys : list str) :
  List.filter (fun key => negb (bool_decide (key ∈ S))) keys = []
  <-> Forall (fun key => key ∈ S) keys.
Proof.
  induction keys as [|k l IH]; cbn [List.filter].
  - split; [constructor|reflexivity].
  - destruct (decide (k ∈ S)) as [Hin|Hnot].
    + rewrite bool_decide_eq_true_2 by exact Hin. cbn [negb]. rewrite IH. split.
      * intros Hl. constructor; [exact Hin|exact Hl].
      * intros Hf. apply Forall_cons in Hf as [_ Hl]. exact Hl.
    + rewrite bool_decide_eq_false_2 by exact Hnot. cbn [negb]. split.
      * discriminate.
      * intros Hf. apply Forall_cons in Hf as [Hin _]. contradiction.
Qed.

(** X11: the FLAGS parsing adds nothing to the gcloud-wide flags: for every
    help text the loop over the FLAGS block collects no flag (its pattern
    wants leading whitespace and is matched against the stripped line), so
    the flags of [parse_help_for_command] are the six wide flags in sorted
    order and the legal flags of [validate_command_string] are
    [GCLOUD_WIDE_FLAGS]. *)
Theorem X11_flags_are_the_wide_flags (out : str) :
  CmdGen.section_flags out = []
  /\ CmdGen.parse_help_flags out
     = ["--account"; "--configuration"; "--format"; "--project"; "--quiet";
        "--verbosity"]
  /\ CmdGen.legal_flags out = CmdGen.GCLOUD_WIDE_FLAGS.
Proof.
  split; [apply section_flags_nil|].
  split; [apply parse_help_flags_wide|apply legal_flags_wide].
Qed.

(** X12: once the command string is split and the help call returns code
    0, [validate_command_string] answers (True, OK) if and only if the key
    (the text before the first [=]) of every token that starts with two
    hyphens is a gcloud-wide flag, whatever the help text lists; otherwise
    it reports the sorted distinct keys that are not wide flags. *)
Theorem X12_validate_accepts_wide_flags_only
    (shlex_split : str -> option (list str)) (run : list str -> Z * str * str)
    (repr : list str -> str) (cmd_str : str) (tokens : list str) (out err : str) :
  shlex_split cmd_str = Some tokens ->
  run (CmdGen.base_of tokens ++ ["--help"]) = (0%Z, out, err) ->
  let keys := map CmdGen.flag_key (List.filter CmdGen.is_long_option tokens) in
  let unknown :=
    List.filter (fun key => negb (bool_decide (key ∈ CmdGen.GCLOUD_WIDE_FLAGS))) keys in
  (CmdGen.validate_command_string shlex_split run repr cmd_str = Some (true, "OK")
   <-> Forall (fun key => key ∈ CmdGen.GCLOUD_WIDE_FLAGS) keys)
  /\ (unknown <> [] ->
      CmdGen.validate_command_string shlex_split run repr cmd_str
      = Some (false,
              "Unknown flags for " ++ repr (CmdGen.base_of tokens) ++ ": "
                ++ PyStr.join ", "
                     (PyStr.sorted (elements (list_to_set unknown : gset str))))).
Proof.
  intros Hsplit Hrun keys unknown.
  assert (CmdGen.validate_command_string shlex_split run repr cmd_str
          = match unknown with
            | _ :: _ =>
                Some (false,
                      "Unknown flags for " ++ repr (CmdGen.base_of tokens) ++ ": "
                        ++ PyStr.join ", "
                             (PyStr.sorted (elements (list_to_set unknown : gset str))))
            | [] => Some (true, "OK")
            end) as Hv.
  { unfold CmdGen.validate_command_string. rewrite Hsplit. cbn [mbind option_bind].
    rewrite Hrun. rewrite bool_decide_eq_false_2 by (intros Hne; apply Hne; reflexivity).
    rewrite legal_flags_wide. reflexivity. }
  rewrite Hv. split.
  - rewrite <- (filter_not_in_nil CmdGen.GCLOUD_WIDE_FLAGS keys). fold unknown.
    destruct unknown; split; intros Heq; try reflexivity; discriminate Heq.
  - intros Hne. destruct unknown; [contradiction Hne; reflexivity|reflexivity].
Qed.

Lemma X12_validate_accepts_wide_flags_only_witness :
  CmdGen.validate_command_string CmdGenSpec.shlex_words CmdGenSpec.run_sample_help
    CmdGenSpec.repr_words
    "gcloud run services describe <service> --region=<REGION> --format=json"
  = Some (false, "Unknown flags for ['gcloud', 'run', 'services', 'describe']: --region").
Proof.
  refine (proj2 (X12_validate_accepts_wide_flags_only
                   CmdGenSpec.shlex_words CmdGenSpec.run_sample_help
                   CmdGenSpec.repr_words
                   "gcloud run services describe <service> --region=<REGION> --format=json"
                   ["gcloud"; "run"; "services"; "describe"; "<service>";
                    "--region=<REGION>"; "--format=json"]
                   CmdGenSpec.sample_help "" _ _) _).
  - vm_compute. reflexivity.
  - reflexivity.
  - vm_compute. discriminate.
Defined.

Section RenderFacts.
Import PyStr CmdGen.

Lemma foldl_snoc_map {A B} (f : A -> B) (acc : list B) (l : list A) :
  foldl (fun acc x => acc ++ [f x]) acc l = acc ++ map f l.
Proof.
  revert acc. induction l as [|x l IH]; intros acc; cbn [foldl map].
  - rewrite app_nil_r. reflexivity.
  - rewrite IH, <- app_assoc. reflexivity.
Qed.

Lemma release_token_no_format (release : str) :
  forallb (fun a => negb (startswith "--format" a))
          (if member release ["beta"; "alpha"] then [release] else []) = true.
Proof.
  unfold member. case_bool_decide as Hm; [|reflexivity].
  apply elem_of_cons in Hm as [->|Hm]; [reflexivity|].
  apply elem_of_cons in Hm as [->|Hm]; [reflexivity|inversion Hm].
Qed.

Lemma placeholders_no_format (l : list str) :
  forallb (fun a => negb (startswith "--format" a))
          (map (fun pos => "<" ++ lower pos ++ ">") l) = true.
Proof. induction l as [|x l IH]; [reflexivity|exact IH]. Qed.

Lemma render_parsed (spec : CmdGen.CommandSpec) (out : str) :
  CmdGen.flags spec = CmdGen.parse_help_flags out ->
  Forall (fun a => PyStr.startswith "--format" a = false)
         (PyStr.split_ws (CmdGen.path spec)) ->
  CmdGen.render_command spec
  = PyStr.join " "
      (["gcloud"]
         ++ (if CmdGen.member (CmdGen.release spec) ["beta"; "alpha"]
             then [CmdGen.release spec] else [])
         ++ PyStr.split_ws (CmdGen.path spec)
         ++ map (fun pos => "<" ++ PyStr.lower pos ++ ">")
                (take 2 (CmdGen.positionals spec))
         ++ ["--project=<PROJECT_ID>"; "--format=json"]).
Proof.
  intros Hflags Hpath. unfold CmdGen.render_command.
  rewrite Hflags, parse_help_flags_wide.
  set (rel := if CmdGen.member (CmdGen.release spec) ["beta"; "alpha"]
              then [CmdGen.release spec] else []).
  assert ((if CmdGen.member (CmdGen.release spec) ["beta"; "alpha"]
           then ["gcloud"] ++ [CmdGen.release spec] else ["gcloud"])
          = ["gcloud"] ++ rel) as ->.
  { unfold rel. destruct (CmdGen.member _ _); reflexivity. }
  rewrite (foldl_snoc_map (fun pos => "<" ++ PyStr.lower pos ++ ">")).
  set (cmd := (["gcloud"] ++ rel) ++ PyStr.split_ws (CmdGen.path spec)).
  set (phs := map (fun pos => "<" ++ PyStr.lower pos ++ ">")
                  (take 2 (CmdGen.positionals spec))).
  cbn [foldl CmdGen.preferred_flags].
  change (CmdGen.member "--region" _) with false.
  change (CmdGen.member "--zone" _) with false.
  change (CmdGen.member "--location" _) with false.
  change (CmdGen.member "--project" _) with true.
  change (CmdGen.member "--format" _) with true.
  cbv iota. cbn [andb].
  assert (forallb (fun a => negb (PyStr.startswith "--format" a))
                  ((cmd ++ phs) ++ ["--project" ++ "=" ++ CmdGen.placeholder "--project"])
          = true) as ->.
  { unfold cmd. rewrite !forallb_app, !andb_true_iff. repeat split.
    - apply release_token_no_format.
    - apply forallb_forall. intros a Ha. rewrite Forall_forall in Hpath.
      apply negb_true_iff, Hpath, list_elem_of_In, Ha.
    - apply placeholders_no_format. }
  unfold cmd. rewrite <- !app_assoc. reflexivity.
Qed.
End RenderFacts.

(** X13: for a spec whose flags are those [parse_help_for_command] computes
    from a help text, [render_command] never emits --region, --zone or
    --location: it renders gcloud, the release token for beta and alpha,
    the path tokens, at most two positional placeholders, and then always
    --project=<PROJECT_ID> --format=json (no path token starting with
    --format being assumed). *)
Theorem X13_render_of_parsed_flags (spec : CmdGen.CommandSpec) (out : str) :
  CmdGen.flags spec = CmdGen.parse_help_flags out ->
  Forall (fun a => PyStr.startswith "--format" a = false)
         (PyStr.split_ws (CmdGen.path spec)) ->
  CmdGen.render_command spec
  = PyStr.join " "
      (["gcloud"]
         ++ (if CmdGen.member (CmdGen.release spec) ["beta"; "alpha"]
             then [CmdGen.release spec] else [])
         ++ PyStr.split_ws (CmdGen.path spec)
         ++ map (fun pos => "<" ++ PyStr.lower pos ++ ">")
                (take 2 (CmdGen.positionals spec))
         ++ ["--project=<PROJECT_ID>"; "--format=json"]).
Proof.
  intros Hflags Hpath. rewrite (render_parsed spec out Hflags Hpath).
  reflexivity.
Qed.

Lemma X13_render_of_parsed_flags_witness :
  CmdGen.render_command CmdGenSpec.sample_spec
  = "gcloud run services describe <service> --project=<PROJECT_ID> --format=json".
Proof.
  refine (X13_render_of_parsed_flags CmdGenSpec.sample_spec CmdGenSpec.sample_help _ _).
  - reflexivity.
  - vm_compute. repeat constructor.
Defined.

Section GroupFacts.
Import PyStr CmdGen CmdGenIndex.

Local Abbreviation is_name :=
  (fun name : str => name <> [] /\ forallb is_flag_char name = true).

Lemma run_length_prefix (p : ascii -> bool) (s : str) (j : nat) :
  (j <= Regex.run_length p s)%nat -> forallb p (take j s) = true.
Proof.
  revert j. induction s as [|c r IH]; intros j Hj.
  - destruct j; reflexivity.
  - destruct j as [|j]; [reflexivity|]. cbn [Regex.run_length] in Hj.
    destruct (p c) eqn:Hc; [|lia]. cbn [take forallb]. rewrite Hc.
    apply IH. lia.
Qed.

Lemma run_length_pos (p : ascii -> bool) (s : str) (k : nat) :
  Regex.run_length p s = S k -> exists c r, s = c :: r.
Proof. destruct s as [|c r]; [discriminate|]. intros _. exists c, r. reflexivity. Qed.

(** A name captured by the line pattern is a non-empty run of lower-case
    letters, digits and hyphens. *)
Lemma group_line_match_name (line name : str) :
  group_line_match line = Some name -> is_name name.
Proof.
  unfold group_line_match.
  destruct (Regex.run_length is_space line) as [|n]; [discriminate|].
  set (rest := drop (S n) line).
  destruct (Regex.run_length is_flag_char rest) as [|k] eqn:Hk; [discriminate|].
  destruct (drop (S k) rest) as [|c r]; [discriminate|].
  destruct (is_space c); [|discriminate]. intros Heq. injection Heq as <-. split.
  - destruct (run_length_pos _ _ _ Hk) as (a & l & ->). discriminate.
  - apply run_length_prefix. lia.
Qed.

Lemma pgc_step_names (st : pgc_state) (raw : str) :
  Forall is_name (snd (fst st)) /\ Forall is_name (snd st) ->
  Forall is_name (snd (fst (pgc_step st raw)))
  /\ Forall is_name (snd (pgc_step st raw)).
Proof.
  destruct st as [[section groups] commands]. cbn [fst snd]. intros [Hg Hc].
  unfold pgc_step. destruct (rstrip raw) as [|a l]; [split; assumption|].
  repeat case_bool_decide; try (split; assumption).
  destruct section as [sec|]; [|split; assumption].
  destruct (group_line_match (a :: l)) as [name|] eqn:Hm; [|split; assumption].
  apply group_line_match_name in Hm.
  destruct sec; cbn [fst snd]; split; try assumption;
    apply Forall_app; (split; [assumption|constructor; [exact Hm|constructor]]).
Qed.

Lemma parse_lines_names (lines : list str) :
  Forall is_name (snd (fst (parse_lines lines)))
  /\ Forall is_name (snd (parse_lines lines)).
Proof.
  unfold parse_lines.
  assert (forall st,
            Forall is_name (snd (fst st)) /\ Forall is_name (snd st) ->
            Forall is_name (snd (fst (foldl pgc_step st lines)))
            /\ Forall is_name (snd (foldl pgc_step st lines))) as Hfold.
  { induction lines as [|raw l IH]; intros st Hst; [exact Hst|].
    cbn [foldl]. apply IH, pgc_step_names, Hst. }
  apply Hfold. split; constructor.
Qed.

(** A line that starts with a character other than whitespace and is not
    one of the two headings leaves the state of the loop as it is. *)
Lemma pgc_step_unindented (st : pgc_state) (h : str) :
  (forall c r, h = c :: r -> is_space c = false) ->
  strip h <> "GROUPS" -> strip h <> "COMMANDS" ->
  pgc_step st h = st.
Proof.
  intros Hhead Hg Hc. destruct st as [[section groups] commands].
  unfold pgc_step. destruct (rstrip h) as [|a l] eqn:Hr; [reflexivity|].
  destruct h as [|c r]; [discriminate Hr|].
  pose proof (Hhead c r eq_refl) as Hsp.
  assert (a = c) as -> by exact (rstrip_head _ _ _ _ Hr).
  assert (strip (c :: l) = strip (c :: r)) as Hstrip.
  { unfold strip. cbn [lstrip]. rewrite Hsp, <- Hr. apply rstrip_idem. }
  rewrite Hstrip.
  rewrite (bool_decide_eq_false_2 _ Hg), (bool_decide_eq_false_2 _ Hc).
  destruct section; [|reflexivity].
  unfold group_line_match. cbn [Regex.run_length]. rewrite Hsp. reflexivity.
Qed.
End GroupFacts.

(** X14: every group and command name returned by
    [parse_groups_and_commands] is a non-empty string of lower-case
    letters, digits and hyphens. *)
Theorem X14_group_and_command_names (help_text : str) :
  let '(groups, commands) := CmdGenIndex.parse_groups_and_commands help_text in
  Forall (fun name => name <> [] /\ forallb PyStr.is_flag_char name = true)
         (groups ++ commands).
Proof.
  unfold CmdGenIndex.parse_groups_and_commands.
  pose proof (parse_lines_names (PyStr.splitlines help_text)) as [Hg Hc].
  destruct (CmdGenIndex.parse_lines (PyStr.splitlines help_text)) as [[section g] c].
  cbn [fst snd] in *. apply Forall_app. split; assumption.
Qed.

(** X15: [parse_groups_and_commands] never closes a section: a line that
    is not indented and is not the heading GROUPS or COMMANDS (the heading
    of a later section, say) does not change the outcome, so indented
    lines after it are still read as entries of the section before. *)
Theorem X15_unindented_lines_are_skipped (before after : list str) (h : str) :
  (forall c r, h = c :: r -> PyStr.is_space c = false) ->
  PyStr.strip h <> "GROUPS" -> PyStr.strip h <> "COMMANDS" ->
  CmdGenIndex.parse_lines (before ++ h :: after)
  = CmdGenIndex.parse_lines (before ++ after).
Proof.
  intros Hhead Hg Hc. unfold CmdGenIndex.parse_lines.
  rewrite !foldl_app. cbn [foldl].
  rewrite (pgc_step_unindented _ h Hhead Hg Hc). reflexivity.
Qed.

Lemma X15_unindented_lines_are_skipped_witness :
  CmdGenIndex.parse_lines
    (["COMMANDS"; "    list     List the services."]
       ++ "NOTES" :: ["    these variants are also available"])
  = CmdGenIndex.parse_lines
      (["COMMANDS"; "    list     List the services."]
         ++ ["    these variants are also available"]).
Proof.
  apply (X15_unindented_lines_are_skipped
           ["COMMANDS"; "    list     List the services."]
           ["    these variants are also available"] "NOTES").
  - intros c r Heq. injection Heq as <- _. reflexivity.
  - discriminate.
  - discriminate.
Defined.

Section SortedFacts.
Import PyStr.

Lemma insert_sorted_perm (x : str) (l : list str) :
  Permutation (insert_sorted x l) (x :: l).
Proof.
  induction l as [|y l IH]; [reflexivity|]. cbn [insert_sorted].
  destruct (ltb y x); [|reflexivity]. rewrite IH. apply perm_swap.
Qed.

(** [sorted] only reorders. *)
Lemma sorted_perm (l : list str) : Permutation (sorted l) l.
Proof.
  induction l as [|x l IH]; [reflexivity|].
  cbn [sorted foldr]. rewrite insert_sorted_perm. constructor. exact IH.
Qed.

Lemma ltb_asym (a b : str) : ltb a b = true -> ltb b a = false.
Proof.
  revert b. induction a as [|x a IH]; intros [|y b]; cbn [ltb]; try discriminate;
    try reflexivity.
  destruct (ord x <? ord y)%N eqn:Hxy.
  - intros _. apply N.ltb_lt in Hxy.
    destruct (ord y <? ord x)%N eqn:Hyx; [apply N.ltb_lt in Hyx; lia|].
    reflexivity.
  - destruct (ord y <? ord x)%N eqn:Hyx; [discriminate|]. apply IH.
Qed.

Lemma insert_sorted_sorted (x : str) (l : list str) :
  Sorted (fun a b => ltb b a = false) l ->
  Sorted (fun a b => ltb b a = false) (insert_sorted x l).
Proof.
  induction l as [|y l IH]; intros Hs; cbn [insert_sorted].
  - repeat constructor.
  - destruct (ltb y x) eqn:Hyx.
    + apply Sorted_inv in Hs as [Hl Hhd]. constructor; [exact (IH Hl)|].
      destruct l as [|z l]; cbn [insert_sorted].
      * constructor. apply ltb_asym, Hyx.
      * destruct (ltb z x); constructor.
        -- apply HdRel_inv in Hhd. exact Hhd.
        -- apply ltb_asym, Hyx.
    + constructor; [exact Hs|]. constructor. exact Hyx.
Qed.

(** [sorted] returns a list in which no element is followed by a smaller
    one. *)
Lemma sorted_sorted (l : list str) : Sorted (fun a b => ltb b a = false) (sorted l).
Proof.
  induction l as [|x l IH]; [constructor|].
  cbn [sorted foldr]. apply insert_sorted_sorted, IH.
Qed.
End SortedFacts.

Section ListingFacts.
Import PyStr CmdGen CmdGenIndex.

Lemma split_ws_go_nil (cur s : str) :
  split_ws_go cur s = [] -> cur = [] /\ forallb is_space s = true.
Proof.
  revert cur. induction s as [|c s IH]; intros cur; cbn [split_ws_go].
  - destruct cur; [split; reflexivity|discriminate].
  - destruct (is_space c) eqn:Hc.
    + intros [He Hs]%app_eq_nil. destruct cur; [|discriminate He].
      split; [reflexivity|]. simpl. rewrite Hc. apply (IH [] Hs).
    + intros Hs. destruct (IH _ Hs) as [Hcur _]. discriminate Hcur.
Qed.

Lemma join_tokens_nonempty (tokens : list str) :
  tokens <> [] -> Forall (fun t : str => t <> []) tokens -> join " " tokens <> [].
Proof.
  destruct tokens as [|t rest]; [intros H; contradiction H; reflexivity|].
  intros _ Hall. apply Forall_cons in Hall as [Ht _].
  destruct t as [|c t]; [contradiction Ht; reflexivity|].
  destruct rest; discriminate.
Qed.

(** What a line of the listing contributes: a non-empty command made of
    tokens separated by single spaces. *)
Lemma listed_command_normal (line p : str) :
  listed_command line = Some p ->
  p <> [] /\ join " " (split_ws p) = p.
Proof.
  unfold listed_command. destruct (strip line) as [|a l] eqn:Hs; [discriminate|].
  destruct (startswith "gcloud " (a :: l)) eqn:Hst; [|discriminate].
  intros Heq. injection Heq as <-.
  apply startswith_prefix in Hst as [r Hr]. rewrite Hr.
  assert (split_ws ("gcloud " ++ r) = "gcloud" :: split_ws r) as ->.
  { unfold split_ws.
    change ("gcloud " ++ r) with ("gcloud" ++ " "%char :: r).
    rewrite (split_ws_go_token "gcloud" [] _ eq_refl). reflexivity. }
  cbn [tail].
  pose proof (split_ws_tokens r) as Htok.
  assert (split_ws r <> []) as Hne.
  { intros Hnil. apply split_ws_go_nil in Hnil as [_ Hsp].
    assert (rstrip (a :: l) = a :: l) as Hfix
      by (rewrite <- Hs; unfold strip; apply rstrip_idem).
    rewrite Hr in Hfix.
    change ("gcloud " ++ r) with ("gcloud" ++ (" "%char :: r)) in Hfix.
    apply rstrip_fixed_suffix in Hfix.
    rewrite rstrip_spaces in Hfix; [discriminate Hfix|].
    simpl. exact Hsp. }
  split.
  - apply join_tokens_nonempty; [exact Hne|].
    eapply Forall_impl; [exact Htok|]. intros t [Ht _]. exact Ht.
  - rewrite split_ws_join; [reflexivity|exact Htok].
Qed.

Lemma listed_commands_in (out p : str) :
  In p (listed_commands out) ->
  exists line, In line (splitlines out) /\ listed_command line = Some p.
Proof.
  unfold listed_commands. intros Hin. apply list_elem_of_In in Hin.
  rewrite (sorted_perm _) in Hin.
  apply elem_of_elements, elem_of_list_to_set, list_elem_of_omap in Hin
    as (line & Hline & Hp).
  exists line. split; [apply list_elem_of_In, Hline|exact Hp].
Qed.
End ListingFacts.

Lemma listed_commands_nodup (out : str) : NoDup (CmdGenIndex.listed_commands out).
Proof.
  unfold CmdGenIndex.listed_commands. rewrite (sorted_perm _). apply NoDup_elements.
Qed.

(** X16: every command that [discover_command_list] takes from the listing
    of [gcloud meta list-commands] is non-empty and made of tokens
    separated by single spaces (splitting it and joining the tokens with a
    space gives it back); the returned list holds no duplicates and is in
    ascending order. *)
Theorem X16_listed_commands_normalised (out : str) :
  NoDup (CmdGenIndex.listed_commands out)
  /\ Sorted (fun a b => PyStr.ltb b a = false) (CmdGenIndex.listed_commands out)
  /\ forall p, In p (CmdGenIndex.listed_commands out) ->
               p <> [] /\ PyStr.join " " (PyStr.split_ws p) = p.
Proof.
  split; [apply listed_commands_nodup|].
  split; [apply sorted_sorted|].
  intros p (line & _ & Hp)%listed_commands_in.
  exact (listed_command_normal line p Hp).
Qed.

Section PlaceholderFacts.
Import PyStr CmdGen CmdGenIndex.

Lemma longest_bounded_le (last : ascii) (s : str) (k j : nat) :
  longest_bounded last s k = Some j -> (j <= k)%nat.
Proof.
  revert last k j. induction s as [|c r IH]; intros last k j.
  - destruct k; cbn [longest_bounded]; (destruct (boundary last []); [|discriminate]);
      intros Heq; injection Heq as <-; lia.
  - destruct k as [|k]; cbn [longest_bounded].
    + destruct (boundary last (c :: r)); [|discriminate].
      intros Heq. injection Heq as <-. lia.
    + destruct (longest_bounded c r k) as [j'|] eqn:Hl.
      * intros Heq. injection Heq as <-. apply IH in Hl. lia.
      * destruct (boundary last (c :: r)); [|discriminate].
        intros Heq. injection Heq as <-. lia.
Qed.

(** Every string returned by the contextual [findall] is a match of the
    pattern somewhere in the subject. *)
Lemma findall_ctx_match (match_len : option ascii -> str -> option nat)
    (prev : option ascii) (skip : nat) (s x : str) :
  In x (findall_ctx match_len prev skip s) ->
  exists prev' s' k, match_len prev' s' = Some (S k) /\ x = take (S k) s'.
Proof.
  revert prev skip. induction s as [|c r IH]; intros prev skip; [intros []|].
  cbn [findall_ctx]. destruct skip as [|n]; [|apply IH].
  destruct (match_len prev (c :: r)) as [[|k]|] eqn:Hm; try apply IH.
  intros [<-|Hin]; [|exact (IH _ _ Hin)].
  exists prev, (c :: r), k. split; [exact Hm|reflexivity].
Qed.

(** A placeholder found in the usage text: an upper-case letter followed
    by upper-case letters, digits, underscores and hyphens. *)
Lemma findall_placeholders_shape (s tok : str) :
  In tok (findall_placeholders s) ->
  exists c r, tok = c :: r /\ is_upper c = true
              /\ forallb is_placeholder_char r = true.
Proof.
  intros (prev & s' & k & Hm & ->)%findall_ctx_match.
  unfold placeholder_match_len in Hm. destruct s' as [|c r]; [discriminate|].
  destruct (is_upper c) eqn:Hc; [|discriminate]. cbn [andb] in Hm.
  destruct (negb _); [|discriminate].
  destruct (longest_bounded c r (Regex.run_length is_placeholder_char r))
    as [j|] eqn:Hl; [|discriminate].
  injection Hm as <-. apply longest_bounded_le in Hl.
  exists c, (take j r). split; [reflexivity|]. split; [exact Hc|].
  apply run_length_prefix. exact Hl.
Qed.

Lemma dedup_go_spec (seen : gset str) (l : list str) :
  NoDup (dedup_go seen l)
  /\ forall x, In x (dedup_go seen l) -> In x l /\ x ∉ seen.
Proof.
  revert seen. induction l as [|y l IH]; intros seen; cbn [dedup_go].
  - split; [constructor|intros x []].
  - case_bool_decide as Hy.
    + destruct (IH seen) as [Hnd Hin]. split; [exact Hnd|].
      intros x Hx. destruct (Hin x Hx) as [Hl Hs]. split; [right; exact Hl|exact Hs].
    + destruct (IH (seen ∪ {[ y ]})) as [Hnd Hin]. split.
      * constructor; [|exact Hnd]. intros Hmem. apply list_elem_of_In in Hmem.
        destruct (Hin y Hmem) as [_ Hs]. apply Hs.
        apply elem_of_union. right. apply elem_of_singleton. reflexivity.
      * intros x [<-|Hx]; [split; [left; reflexivity|exact Hy]|].
        destruct (Hin x Hx) as [Hl Hs]. split; [right; exact Hl|].
        intros Hseen. apply Hs, elem_of_union. left. exact Hseen.
Qed.

Lemma usage_positionals_spec (path_tokens : list str) (out : str) :
  NoDup (usage_positionals path_tokens out)
  /\ forall tok, In tok (usage_positionals path_tokens out) ->
       ~ In tok usage_keywords
       /\ exists c r, tok = c :: r /\ is_upper c = true
                      /\ forallb is_placeholder_char r = true.
Proof.
  unfold usage_positionals. destruct (usage_block out) as [|a block];
    [split; [constructor|intros tok []]|].
  set (tail := if contains _ _ then _ else _).
  destruct (dedup_go_spec ∅ (List.filter (fun tok => negb (member tok usage_keywords))
                                         (findall_placeholders tail)))
    as [Hnd Hin].
  split; [exact Hnd|]. intros tok Htok.
  destruct (Hin tok Htok) as [Hf _]. apply filter_In in Hf as [Hfound Hkw]. split.
  - intros Hk. unfold member in Hkw.
    rewrite bool_decide_eq_true_2 in Hkw by (apply list_elem_of_In; exact Hk).
    discriminate Hkw.
  - exact (findall_placeholders_shape tail tok Hfound).
Qed.
End PlaceholderFacts.

(** X17: the release fallback of [parse_help_for_command]: the spec keeps
    the joined path; its release is ga when the plain help call succeeds,
    beta when only that one fails, alpha when the beta call fails too; when
    all three help calls fail the spec is the minimal one, with release ga
    and no flags at all, and otherwise its flags are the six gcloud-wide
    flags. *)
Theorem X17_parse_help_release_fallback
    (run : list str -> Z -> Z * str * str) (path_tokens : list str) :
  let spec := CmdGenIndex.parse_help_for_command run path_tokens in
  let rc_ga := fst (fst (run ("gcloud" :: path_tokens ++ ["--help"]) 60%Z)) in
  let rc_beta :=
    fst (fst (run ("gcloud" :: "beta" :: path_tokens ++ ["--help"]) 60%Z)) in
  let rc_alpha :=
    fst (fst (run ("gcloud" :: "alpha" :: path_tokens ++ ["--help"]) 60%Z)) in
  let wide := ["--account"; "--configuration"; "--format"; "--project"; "--quiet";
               "--verbosity"] in
  CmdGen.path spec = PyStr.join " " path_tokens
  /\ (rc_ga = 0%Z -> CmdGen.release spec = "ga" /\ CmdGen.flags spec = wide)
  /\ (rc_ga <> 0%Z -> rc_beta = 0%Z ->
      CmdGen.release spec = "beta" /\ CmdGen.flags spec = wide)
  /\ (rc_ga <> 0%Z -> rc_beta <> 0%Z -> rc_alpha = 0%Z ->
      CmdGen.release spec = "alpha" /\ CmdGen.flags spec = wide)
  /\ (rc_ga <> 0%Z -> rc_beta <> 0%Z -> rc_alpha <> 0%Z ->
      spec = {| CmdGen.path := PyStr.join " " path_tokens; CmdGen.release := "ga";
                CmdGen.flags := []; CmdGen.positionals := [];
                CmdGen.help_one_line := [] |}).
Proof.
  intros spec rc_ga rc_beta rc_alpha wide. subst spec rc_ga rc_beta rc_alpha wide.
  unfold CmdGenIndex.parse_help_for_command, CmdGenIndex.fetch_help.
  destruct (run ("gcloud" :: path_tokens ++ ["--help"]) 60%Z) as [[rc out] err].
  destruct (run ("gcloud" :: "beta" :: path_tokens ++ ["--help"]) 60%Z)
    as [[rc2 out2] err2].
  destruct (run ("gcloud" :: "alpha" :: path_tokens ++ ["--help"]) 60%Z)
    as [[rc3 out3] err3].
  cbn [fst].
  repeat case_bool_decide; cbn [CmdGen.path CmdGen.release CmdGen.flags];
    rewrite ?parse_help_flags_wide;
    (split; [reflexivity|]); repeat split; intros; try reflexivity; congruence.
Qed.

(** X18: the positionals of a parsed spec hold no duplicates and none of
    the words USAGE, FLAGS, ARGS, AND, OR; each starts with an upper-case
    letter and continues with upper-case letters, digits, underscores and
    hyphens. *)
Theorem X18_parsed_positionals
    (run : list str -> Z -> Z * str * str) (path_tokens : list str) :
  let positionals := CmdGen.positionals (CmdGenIndex.parse_help_for_command run path_tokens) in
  NoDup positionals
  /\ forall tok, In tok positionals ->
       ~ In tok ["USAGE"; "FLAGS"; "ARGS"; "AND"; "OR"]
       /\ exists c r, tok = c :: r /\ PyStr.is_upper c = true
                      /\ forallb CmdGenIndex.is_placeholder_char r = true.
Proof.
  intros positionals. unfold positionals, CmdGenIndex.parse_help_for_command.
  destruct (CmdGenIndex.fetch_help run path_tokens) as [[release out]|];
    cbn [CmdGen.positionals].
  - apply usage_positionals_spec.
  - split; [constructor|intros tok []].
Qed.

Section IndexFacts.
Import PyStr CmdGen CmdGenIndex.

Lemma parse_help_path (run : list str -> Z -> Z * str * str) (path_tokens : list str) :
  path (parse_help_for_command run path_tokens) = join " " path_tokens.
Proof.
  unfold parse_help_for_command.
  destruct (fetch_help run path_tokens) as [[release out]|]; reflexivity.
Qed.
End IndexFacts.

(** X19: in a fresh index built from the listing, every key is a
    prioritized path, keys are not repeated, and the spec stored under a
    key has that key as its [path]: the path scored by [choose_candidates]
    is the one [render_command] prints. *)
Theorem X19_index_keys_are_spec_paths
    (run : list str -> Z -> Z * str * str) (out : str) :
  let index := CmdGenIndex.index_entries run (CmdGenIndex.listed_commands out) in
  NoDup (map fst index)
  /\ forall p spec,
       In (p, spec) index ->
       CmdGen.path spec = p
       /\ CmdGenIndex.has_priority p = true
       /\ In p (CmdGenIndex.listed_commands out).
Proof.
  intros index. unfold index, CmdGenIndex.index_entries.
  split.
  - rewrite map_map. cbn [fst]. rewrite map_id.
    apply NoDup_ListNoDup, List.NoDup_filter, NoDup_ListNoDup, listed_commands_nodup.
  - intros p spec Hin. apply in_map_iff in Hin as (q & Heq & Hq).
    injection Heq as -> <-. apply filter_In in Hq as [Hq Hprio].
    rewrite parse_help_path.
    destruct (listed_commands_in out p Hq) as (line & _ & Hline).
    destruct (listed_command_normal line p Hline) as [_ Hjoin].
    split; [exact Hjoin|]. split; [exact Hprio|exact Hq].
Qed.

(** X23: when [gcloud_info_sdk_root] returns a path, the info call ended
    with code 0 and the path is its stripped output, which is not empty: a
    blank output gives [None], never an empty path. *)
Theorem X23_sdk_root_is_stripped
    (run : list str -> Z -> Z * str * str) (root : str) :
  CmdGenIndex.gcloud_info_sdk_root run = Some root ->
  let '(rc, out, _) :=
    run ["gcloud"; "--format=value(installation.sdk_root)"; "info"] 45%Z in
  rc = 0%Z /\ root = PyStr.strip out /\ root <> [] /\ PyStr.strip root = root.
Proof.
  unfold CmdGenIndex.gcloud_info_sdk_root.
  destruct (run ["gcloud"; "--format=value(installation.sdk_root)"; "info"] 45%Z)
    as [[rc out] err].
  case_bool_decide as Hrc; [|discriminate].
  destruct (PyStr.strip out) as [|c r] eqn:Hs; [discriminate|].
  intros Heq. injection Heq as <-. split; [exact Hrc|]. split; [reflexivity|].
  split; [discriminate|]. rewrite <- Hs. apply strip_idem.
Qed.

Lemma X23_sdk_root_is_stripped_witness :
  0%Z = 0%Z /\ ("/opt/google-cloud-sdk" : str) = PyStr.strip "/opt/google-cloud-sdk
"
  /\ ("/opt/google-cloud-sdk" : str) <> []
  /\ PyStr.strip "/opt/google-cloud-sdk" = "/opt/google-cloud-sdk".
Proof.
  apply (X23_sdk_root_is_stripped CmdGenSpec.run_sdk_root "/opt/google-cloud-sdk").
  vm_compute. reflexivity.
Defined.

(** ** Further properties of the template generator *)

Section ActionFacts.
Import PyStr Simplified.

(** The matched actions are keys of [ACTION_HINTS] with a hint in the
    text. *)
Lemma matches_spec (t action : str) :
  In action (map fst (List.filter (fun kv => any_hint t (snd kv)) ACTION_HINTS)) ->
  exists hints h,
    In (action, hints) ACTION_HINTS /\ In h hints /\ contains h t = true.
Proof.
  intros Hin. apply in_map_iff in Hin as ([a hints] & <- & Hf).
  apply filter_In in Hf as [Hkv Hany]. cbn [fst snd] in *.
  unfold any_hint in Hany. apply existsb_exists in Hany as (h & Hh & Hc).
  exists hints, h. split; [exact Hkv|]. split; [exact Hh|exact Hc].
Qed.

Lemma action_key_preferred (action : str) (hints : list str) :
  In (action, hints) ACTION_HINTS -> In action ACTION_PREFERENCE.
Proof.
  intros Hin. cbn [ACTION_HINTS In] in Hin.
  repeat (destruct Hin as [Hin|Hin];
          [injection Hin as <- _; vm_compute; tauto|]).
  destruct Hin.
Qed.

(** The action picked when the service is not iam and some hint matches:
    an element of [ACTION_PREFERENCE] that is among the matched actions. *)
Lemma pick_action_matched (service text : str) :
  service <> "iam" ->
  List.filter (fun kv => any_hint (lower text) (snd kv)) ACTION_HINTS <> [] ->
  In (pick_action service text) ACTION_PREFERENCE
  /\ In (pick_action service text)
        (map fst (List.filter (fun kv => any_hint (lower text) (snd kv)) ACTION_HINTS)).
Proof.
  intros Hiam Hne. unfold pick_action.
  rewrite bool_decide_eq_false_2 by exact Hiam.
  set (matches := map fst (List.filter _ ACTION_HINTS)).
  destruct matches as [|m0 rest] eqn:Hm.
  - subst matches. apply map_eq_nil in Hm. contradiction.
  - rewrite <- Hm.
    destruct (List.find _ ACTION_PREFERENCE) as [pref|] eqn:Hfind.
    + apply find_some in Hfind as [Hp Hin]. split; [exact Hp|].
      apply bool_decide_eq_true in Hin. apply list_elem_of_In. exact Hin.
    + exfalso.
      assert (In m0 matches) as Hm0 by (rewrite Hm; left; reflexivity).
      destruct (matches_spec _ _ Hm0) as (hints & _ & Hkey & _).
      pose proof (find_none _ _ Hfind m0 (action_key_preferred _ _ Hkey)) as Hno.
      cbv beta in Hno. apply bool_decide_eq_false in Hno.
      apply Hno, list_elem_of_In, Hm0.
Qed.

Lemma pick_action_preferred (service text : str) :
  In (pick_action service text) ACTION_PREFERENCE.
Proof.
  destruct (decide (service = "iam")) as [->|Hiam]; [vm_compute; tauto|].
  destruct (List.filter (fun kv => any_hint (lower text) (snd kv)) ACTION_HINTS)
    as [|kv l] eqn:Hf.
  - unfold pick_action. rewrite bool_decide_eq_false_2 by exact Hiam.
    rewrite Hf. vm_compute. tauto.
  - apply pick_action_matched; [exact Hiam|]. rewrite Hf. discriminate.
Qed.
(** [find] returns the first element that passes the test. *)
Lemma find_first {A} (f : A -> bool) (l : list A) (x : A) :
  List.find f l = Some x ->
  exists l1 l2, l = l1 ++ x :: l2 /\ f x = true /\ Forall (fun y => f y = false) l1.
Proof.
  induction l as [|y l IH]; [discriminate|]. cbn [List.find].
  destruct (f y) eqn:Hy.
  - intros Heq. injection Heq as <-. exists [], l.
    split; [reflexivity|]. split; [exact Hy|constructor].
  - intros (l1 & l2 & -> & Hx & Hall)%IH. exists (y :: l1), l2.
    split; [reflexivity|]. split; [exact Hx|]. constructor; [exact Hy|exact Hall].
Qed.

(** The matched actions are the hinted ones. *)
Lemma matches_hinted (text action : str) :
  SimplifiedSpec.action_hinted text action <-> In action (SimplifiedSpec.matches text).
Proof.
  unfold SimplifiedSpec.action_hinted, SimplifiedSpec.matches. split.
  - intros (hints & h & Hkey & Hh & Hc). apply in_map_iff.
    exists (action, hints). split; [reflexivity|]. apply filter_In.
    split; [exact Hkey|]. cbn [snd]. unfold any_hint. apply existsb_exists.
    exists h. split; [exact Hh|exact Hc].
  - apply matches_spec.
Qed.

(** Every key of [ACTION_HINTS] is in [ACTION_PREFERENCE], so the loop
    over the preferences finds one of the matches. *)
Lemma preferred_match_some (text : str) :
  SimplifiedSpec.matches text <> [] ->
  exists pref, SimplifiedSpec.preferred_match text = Some pref.
Proof.
  intros Hne. unfold SimplifiedSpec.preferred_match.
  destruct (List.find _ ACTION_PREFERENCE) as [pref|] eqn:Hfind;
    [exists pref; reflexivity|exfalso].
  destruct (SimplifiedSpec.matches text) as [|m0 rest] eqn:Hm; [contradiction|].
  assert (In m0 (SimplifiedSpec.matches text)) as Hm0 by (rewrite Hm; left; reflexivity).
  destruct (matches_spec _ _ Hm0) as (hints & _ & Hkey & _).
  pose proof (find_none _ _ Hfind m0 (action_key_preferred _ _ Hkey)) as Hno.
  cbv beta in Hno. apply bool_decide_eq_false in Hno.
  apply Hno. rewrite <- Hm. apply list_elem_of_In, Hm0.
Qed.

(** What [pick_action] returns once the loop has found a preference. *)
Lemma pick_action_find (service text pref : str) :
  service <> "iam" ->
  SimplifiedSpec.preferred_match text = Some pref ->
  pick_action service text = pref.
Proof.
  intros Hiam Hfind. unfold pick_action.
  rewrite bool_decide_eq_false_2 by exact Hiam.
  change (map fst (List.filter (fun kv => any_hint (lower text) (snd kv)) ACTION_HINTS))
    with (SimplifiedSpec.matches text).
  destruct (SimplifiedSpec.matches text) as [|m0 rest] eqn:Hm.
  - unfold SimplifiedSpec.preferred_match in Hfind. rewrite Hm in Hfind.
    apply find_some in Hfind as [_ Hin]. apply bool_decide_eq_true in Hin.
    inversion Hin.
  - unfold SimplifiedSpec.preferred_match in Hfind. rewrite Hm in Hfind.
    rewrite Hfind. reflexivity.
Qed.
End ActionFacts.

(** X20: [pick_action] always returns an element of [ACTION_PREFERENCE].
    For a service other than iam, when the list [matches] is not empty the
    loop over [ACTION_PREFERENCE] returns, so the final fallback to the
    first match is never taken: the preference list covers every key of
    [ACTION_HINTS].  The action returned is then the first entry of
    [ACTION_PREFERENCE] that has a hint in the lower-cased text: it has
    one, and no entry listed before it has. *)
Theorem X20_pick_action_is_preferred (service text : str) :
  In (Simplified.pick_action service text) Simplified.ACTION_PREFERENCE
  /\ (service <> "iam" ->
      SimplifiedSpec.matches text <> [] ->
      SimplifiedSpec.preferred_match text
      = Some (Simplified.pick_action service text)
      /\ exists higher lower_,
           Simplified.ACTION_PREFERENCE
           = higher ++ Simplified.pick_action service text :: lower_
           /\ SimplifiedSpec.action_hinted text (Simplified.pick_action service text)
           /\ forall pref, In pref higher -> ~ SimplifiedSpec.action_hinted text pref)
  /\ (forall action,
        SimplifiedSpec.action_hinted text action
        <-> In action (SimplifiedSpec.matches text)).
Proof.
  split; [apply pick_action_preferred|]. split.
  - intros Hiam Hne.
    destruct (preferred_match_some text Hne) as [pref Hfind].
    assert (Simplified.pick_action service text = pref) as Hpick.
    { exact (pick_action_find service text pref Hiam Hfind). }
    rewrite Hpick. split; [exact Hfind|].
    apply find_first in Hfind as (higher & lower_ & Heq & Hin & Hnone).
    exists higher, lower_. split; [exact Heq|]. split.
    + apply matches_hinted. apply bool_decide_eq_true in Hin.
      apply list_elem_of_In. exact Hin.
    + intros p Hp Hhint. rewrite Forall_forall in Hnone.
      apply list_elem_of_In in Hp. specialize (Hnone p Hp). cbv beta in Hnone.
      apply bool_decide_eq_false in Hnone. apply Hnone.
      apply list_elem_of_In, matches_hinted, Hhint.
  - intros action. apply matches_hinted.
Qed.

(** X21: the heuristic reads the prompt through [lower()] only: two prompts
    that agree after lower-casing get the same service, the same action
    and the same output of [generate]. *)
Theorem X21_generate_ignores_case (t1 t2 : str) :
  PyStr.lower t1 = PyStr.lower t2 ->
  Simplified.pick_service t1 = Simplified.pick_service t2
  /\ (forall service,
        Simplified.pick_action service t1 = Simplified.pick_action service t2)
  /\ Simplified.generate t1 = Simplified.generate t2.
Proof.
  intros Hl. split; [exact (pick_service_lower t1 t2 Hl)|].
  split; [intros service; exact (pick_action_lower service t1 t2 Hl)|].
  exact (generate_lower t1 t2 Hl).
Qed.

Lemma X21_generate_ignores_case_witness :
  Simplified.pick_service "List my GKE Clusters"
  = Simplified.pick_service "list MY gke clusters"
  /\ (forall service,
        Simplified.pick_action service "List my GKE Clusters"
        = Simplified.pick_action service "list MY gke clusters")
  /\ Simplified.generate "List my GKE Clusters"
     = Simplified.generate "list MY gke clusters".
Proof.
  apply (X21_generate_ignores_case "List my GKE Clusters" "list MY gke clusters").
  vm_compute. reflexivity.
Defined.

Section TemplateFacts.
Import PyStr Simplified.

(** For each service and each action that [pick_action] can return: which
    keys have a template. *)
Lemma template_table (service action : str) :
  In service (map fst SERVICE_HINTS) ->
  In action ACTION_PREFERENCE ->
  is_Some (TEMPLATES !! (service, action))
  <-> (service, action) = ("iam", "policy") \/ action = "describe" /\ service <> "iam"
      \/ action = "list" /\ service <> "iam"
      \/ service = "cloud_run" /\ action <> "policy".
Proof.
  intros Hs Ha.
  cbn [map fst SERVICE_HINTS In] in Hs. cbn [ACTION_PREFERENCE In] in Ha.
  destruct Hs as [<-|[<-|[<-|[<-|[<-|[<-|[]]]]]]];
    destruct Ha as [<-|[<-|[<-|[<-|[<-|[<-|[<-|[]]]]]]]];
    (split;
     [ intros Hsome;
       first [ left; reflexivity
             | right; left; split; [reflexivity|discriminate]
             | right; right; left; split; [reflexivity|discriminate]
             | right; right; right; split; [reflexivity|discriminate]
             | exfalso; destruct Hsome as [x Hx]; vm_compute in Hx; discriminate Hx ]
     | intros Hd;
       first [ vm_compute; eexists; reflexivity
             | exfalso;
               destruct Hd as [Hd|[[Hd1 Hd2]|[[Hd1 Hd2]|[Hd1 Hd2]]]];
               first [ discriminate Hd | discriminate Hd1
                     | apply Hd2; reflexivity ] ] ]).
Qed.
End TemplateFacts.

(** X22: when [pick_service] finds a service, [generate] prints a template
    exactly for the iam policy, for describe and list of every other
    service, and for the other Cloud Run actions except policy; in every
    other case (logs, tail or revisions asked of GKE, Compute Engine, Cloud
    SQL or Cloud Storage, a policy asked of Cloud Run) it prints the No
    safe template message naming the service and the action. *)
Theorem X22_generate_template_or_message (prompt service : str) :
  Simplified.pick_service prompt = Some service ->
  let action := Simplified.pick_action service prompt in
  ((exists template,
      Simplified.TEMPLATES !! (service, action) = Some template
      /\ Simplified.generate prompt = template)
   <-> (service, action) = ("iam", "policy")
       \/ action = "describe" /\ service <> "iam"
       \/ action = "list" /\ service <> "iam"
       \/ service = "cloud_run" /\ action <> "policy")
  /\ (Simplified.TEMPLATES !! (service, action) = None ->
      Simplified.generate prompt
      = "No safe template for: " ++ service ++ " + " ++ action
          ++ ". Add one to TEMPLATES.").
Proof.
  intros Hs action.
  pose proof (pick_service_key prompt service Hs) as Hkey.
  pose proof (pick_action_preferred service prompt) as Hpref. fold action in Hpref.
  pose proof (template_table service action Hkey Hpref) as Hiff.
  assert (Simplified.generate prompt
          = match Simplified.TEMPLATES !! (service, action) with
            | None =>
                "No safe template for: " ++ service ++ " + " ++ action
                  ++ ". Add one to TEMPLATES."
            | Some template => template
            end) as Hgen.
  { unfold Simplified.generate. rewrite Hs. fold action.
    destruct service as [|c service]; [|reflexivity].
    cbn [map fst Simplified.SERVICE_HINTS In] in Hkey.
    repeat (destruct Hkey as [Hkey|Hkey]; [discriminate Hkey|]). destruct Hkey. }
  split.
  - rewrite <- Hiff. split.
    + intros (template & Ht & _). exists template. exact Ht.
    + intros [template Ht]. exists template. split; [exact Ht|].
      rewrite Hgen, Ht. reflexivity.
  - intros Hnone. rewrite Hgen, Hnone. reflexivity.
Qed.

Lemma X22_generate_template_or_message_witness :
  Simplified.generate "tail the logs of my GKE cluster"
  = "No safe template for: gke + logs_tail. Add one to TEMPLATES.".
Proof.
  refine (proj2 (X22_generate_template_or_message
                   "tail the logs of my GKE cluster" "gke" _) _).
  - vm_compute. reflexivity.
  - vm_compute. reflexivity.
Defined.

Section FieldJoinFacts.
Import PyStr CmdGen.
Variable is_sep : ascii -> bool.

Lemma fields_go_token (t cur s : str) :
  forallb (fun c => negb (is_sep c)) t = true ->
  fields_go is_sep cur (t ++ s) = fields_go is_sep (rev t ++ cur) s.
Proof.
  revert cur. induction t as [|c t IH]; intros cur; [reflexivity|].
  cbn [forallb app fields_go]. intros [Hc Ht]%andb_true_iff.
  apply negb_true_iff in Hc. rewrite Hc, (IH _ Ht).
  cbn [rev]. rewrite <- app_assoc. reflexivity.
Qed.

(** Cutting the join of separator-free fields at a separator gives the
    fields back. *)
Lemma fields_go_join (d : ascii) (fields : list str) :
  is_sep d = true ->
  Forall (fun t => t <> [] /\ forallb (fun c => negb (is_sep c)) t = true) fields ->
  fields_go is_sep [] (join [d] fields) = fields.
Proof.
  intros Hd. induction fields as [|t rest IH]; [reflexivity|].
  intros Hall. apply Forall_cons in Hall as [[Hne Ht] Hrest].
  assert (emit (rev t) = [t]) as Hemit.
  { rewrite emit_rev_token, rev_involutive; [reflexivity|].
    intros Hr. apply Hne. rewrite <- (rev_involutive t), Hr. reflexivity. }
  destruct rest as [|t' rest].
  - cbn [join]. rewrite <- (app_nil_r t) at 1.
    rewrite (fields_go_token t [] [] Ht). cbn [fields_go].
    rewrite app_nil_r. exact Hemit.
  - change (join [d] (t :: t' :: rest)) with (t ++ d :: join [d] (t' :: rest)).
    rewrite (fields_go_token t [] _ Ht), app_nil_r.
    cbn [fields_go]. rewrite Hd, Hemit, (IH Hrest). reflexivity.
Qed.
End FieldJoinFacts.

(** X25: for a text of Latin-1 characters (code points below 256, the
    strings [str] holds), tokenizing is stable under joining: the tokens
    of the text, joined by single spaces, tokenize to the same tokens
    again.  It rests on the tokens holding no separator, which [lower()]
    keeps true on Latin-1 only. *)
Theorem X25_tokenize_join_roundtrip (text : str) :
  CmdGen.tokenize (PyStr.join " " (CmdGen.tokenize text)) = CmdGen.tokenize text.
Proof.
  set (tokens := CmdGen.tokenize text).
  assert (Forall (fun t => t <> []
                           /\ forallb (fun c => negb (CmdGen.is_token_sep c)) t = true)
                 tokens) as Hall.
  { apply Forall_forall. intros t Ht. apply list_elem_of_In in Ht.
    destruct (tokenize_not_sep text t Ht) as [Hne Hsep]. split; [exact Hne|].
    apply forallb_forall. intros c Hc. rewrite Forall_forall in Hsep.
    apply negb_true_iff, Hsep, list_elem_of_In, Hc. }
  unfold CmdGen.tokenize at 1.
  rewrite (fields_go_join CmdGen.is_token_sep " " tokens eq_refl Hall).
  assert (forall l : list str,
            (forall t, In t l -> PyStr.lower t = t) -> map PyStr.lower l = l) as Hmap.
  { induction l as [|t l IH]; intros Hl; [reflexivity|]. cbn [map].
    rewrite (Hl t (or_introl eq_refl)), IH; [reflexivity|].
    intros t' Ht'. apply Hl. right. exact Ht'. }
  apply Hmap. intros t Ht. exact (tokenize_lower text t Ht).
Qed.

Section PipelineFacts.
Import PyStr CmdGen.

Lemma lower_char_not_space (c : ascii) :
  is_space c = false -> is_space (lower_char c) = false.
Proof.
  destruct c as [[|] [|] [|] [|] [|] [|] [|] [|]]; vm_compute; intros H;
    first [reflexivity|discriminate H].
Qed.

Lemma startswith_format (a : str) :
  startswith "--" a = false -> startswith "--format" a = false.
Proof.
  intros Hd. apply not_true_is_false. intros [r ->]%startswith_prefix.
  discriminate Hd.
Qed.

Local Abbreviation is_token :=
  (fun t : str => t <> [] /\ forallb (fun c => negb (is_space c)) t = true).

Lemma placeholder_tokens (l : list str) :
  Forall (fun pos => forallb (fun c => negb (is_space c)) pos = true) l ->
  Forall (fun t => is_token t /\ is_long_option t = false)
         (map (fun pos => "<" ++ lower pos ++ ">") l).
Proof.
  intros Hall. apply Forall_map. eapply Forall_impl; [exact Hall|].
  intros pos Hpos. cbn beta. split; [split; [discriminate|]|reflexivity].
  change ("<" ++ lower pos ++ ">") with ("<"%char :: (lower pos ++ ">")).
  cbn [forallb]. change (negb (is_space "<")) with true. cbn [andb].
  rewrite forallb_app. apply andb_true_iff. split; [|reflexivity].
  unfold lower. rewrite forallb_forall in *. intros c Hc.
  apply in_map_iff in Hc as (c0 & <- & Hc0).
  apply negb_true_iff, lower_char_not_space, negb_true_iff, Hpos, Hc0.
Qed.

Lemma release_tokens (release : str) :
  Forall (fun t => is_token t /\ is_long_option t = false)
         (if member release ["beta"; "alpha"] then [release] else []).
Proof.
  unfold member. case_bool_decide as Hm; [|constructor].
  apply elem_of_cons in Hm as [->|Hm];
    [repeat constructor; discriminate|].
  apply elem_of_cons in Hm as [->|Hm];
    [repeat constructor; discriminate|inversion Hm].
Qed.

Lemma unknown_flags_app (legal : gset str) (a b : list str) :
  Forall (fun t => is_long_option t = false) a ->
  unknown_flags legal (a ++ b) = unknown_flags legal b.
Proof.
  intros Ha. unfold unknown_flags. rewrite List.filter_app.
  assert (List.filter is_long_option a = []) as ->; [|reflexivity].
  induction Ha as [|t l Ht _ IH]; [reflexivity|].
  cbn [List.filter]. rewrite Ht. exact IH.
Qed.
End PipelineFacts.

(** X26: a rendered command passes the flag check of the validation: for
    a spec whose flags are those [parse_help_for_command] computes, whose
    path tokens do not start with two hyphens and whose first two
    positionals hold no whitespace, if [shlex.split] cuts the rendered
    command at its whitespace and the help call returns code 0, then
    [validate_command_string] answers (True, OK). *)
Theorem X26_rendered_command_validates
    (shlex_split : str -> option (list str)) (run : list str -> Z * str * str)
    (repr : list str -> str) (spec : CmdGen.CommandSpec) (out : str) :
  CmdGen.flags spec = CmdGen.parse_help_flags out ->
  Forall (fun a => PyStr.startswith "--" a = false)
         (PyStr.split_ws (CmdGen.path spec)) ->
  Forall (fun pos => forallb (fun c => negb (PyStr.is_space c)) pos = true)
         (take 2 (CmdGen.positionals spec)) ->
  shlex_split (CmdGen.render_command spec)
  = Some (PyStr.split_ws (CmdGen.render_command spec)) ->
  fst (fst (run (CmdGen.base_of (PyStr.split_ws (CmdGen.render_command spec))
                   ++ ["--help"]))) = 0%Z ->
  CmdGen.validate_command_string shlex_split run repr (CmdGen.render_command spec)
  = Some (true, "OK").
Proof.
  intros Hflags Hpath Hpos Hshlex Hrc.
  assert (Forall (fun a => PyStr.startswith "--format" a = false)
                 (PyStr.split_ws (CmdGen.path spec))) as Hfmt
    by (eapply Forall_impl; [exact Hpath|]; intros a; apply startswith_format).
  pose proof (render_parsed spec out Hflags Hfmt) as Hrender.
  set (front := ["gcloud"]
                  ++ (if CmdGen.member (CmdGen.release spec) ["beta"; "alpha"]
                      then [CmdGen.release spec] else [])
                  ++ PyStr.split_ws (CmdGen.path spec)
                  ++ map (fun pos => "<" ++ PyStr.lower pos ++ ">")
                         (take 2 (CmdGen.positionals spec))).
  assert (Forall (fun t => (t <> [] /\ forallb (fun c => negb (PyStr.is_space c)) t = true)
                           /\ CmdGen.is_long_option t = false) front) as Hfront.
  { unfold front. repeat apply Forall_app_2.
    - repeat constructor; discriminate.
    - apply release_tokens.
    - pose proof (split_ws_tokens (CmdGen.path spec)) as Htok.
      rewrite Forall_forall in *. intros t Ht. split; [exact (Htok t Ht)|].
      exact (Hpath t Ht).
    - apply placeholder_tokens, Hpos. }
  assert (PyStr.split_ws (CmdGen.render_command spec)
          = front ++ ["--project=<PROJECT_ID>"; "--format=json"]) as Htokens.
  { rewrite Hrender. unfold front. rewrite <- !app_assoc.
    rewrite split_ws_join; [reflexivity|].
    rewrite !app_assoc. apply Forall_app_2.
    - rewrite <- !app_assoc. eapply Forall_impl; [exact Hfront|].
      intros t [Ht _]. exact Ht.
    - repeat constructor; discriminate. }
  unfold CmdGen.validate_command_string. rewrite Hshlex. cbn [mbind option_bind].
  rewrite Htokens in *.
  destruct (run (CmdGen.base_of (front ++ ["--project=<PROJECT_ID>"; "--format=json"])
                   ++ ["--help"])) as [[rc help_out] err].
  cbn [fst] in Hrc. subst rc.
  rewrite bool_decide_eq_false_2 by (intros Hne; apply Hne; reflexivity).
  rewrite legal_flags_wide, unknown_flags_app.
  - reflexivity.
  - eapply Forall_impl; [exact Hfront|]. intros t [_ Ht]. exact Ht.
Qed.

Lemma X26_rendered_command_validates_witness :
  CmdGen.validate_command_string CmdGenSpec.shlex_words CmdGenSpec.run_sample_help
    CmdGenSpec.repr_words (CmdGen.render_command CmdGenSpec.sample_spec)
  = Some (true, "OK").
Proof.
  apply (X26_rendered_command_validates CmdGenSpec.shlex_words
           CmdGenSpec.run_sample_help CmdGenSpec.repr_words CmdGenSpec.sample_spec
           CmdGenSpec.sample_help).
  - reflexivity.
  - vm_compute. repeat constructor.
  - vm_compute. repeat constructor.
  - reflexivity.
  - reflexivity.
Defined.

Section FailureFacts.
Import PyStr Sonnet SonnetRun.
Variable help : str -> bool * str.
Variable generate_content : nat -> str -> api_outcome.
Variable max_iterations : Z.
Variable user_prompt : str.

(** A failure comes from a loop that ran through the whole range, every
    answer being rejected. *)
Lemma generate_loop_failure (n i : nat) (previous_error : option str)
    (m : str) (last : option str) (sent : list str) :
  generate_loop help generate_content max_iterations user_prompt
                (seq i n) previous_error
  = (GenFailure m last, sent) ->
  m = "Failed to generate valid command after "
        ++ int_to_str max_iterations ++ " attempts"
  /\ length sent = n
  /\ (forall j p, sent !! j = Some p -> rejected help (generate_content (i + j) p))
  /\ (n = 0%nat -> last = previous_error)
  /\ ((0 < n)%nat -> is_Some last).
Proof.
  revert i previous_error sent. induction n as [|n IH]; intros i prev sent.
  - cbn [seq generate_loop]. intros Heq. injection Heq as <- <- <-.
    split; [reflexivity|]. split; [reflexivity|].
    split; [intros j p Hj; discriminate Hj|]. split; [reflexivity|lia].
  - cbn [seq generate_loop]. unfold attempt.
    destruct (generate_content i (_create_generation_prompt user_prompt prev))
      as [text|e] eqn:Hg.
    + destruct (_validate_command_syntax help (_clean_command (strip text)))
        as [[] msg] eqn:Hv; [discriminate|].
      destruct (generate_loop help generate_content max_iterations user_prompt
                              (seq (S i) n) (Some msg)) as [r sent'] eqn:Hl.
      intros Heq. injection Heq as -> <-.
      destruct (IH _ _ _ Hl) as (Hm & Hlen & Hrej & Hzero & Hpos).
      split; [exact Hm|]. split; [simpl; rewrite Hlen; reflexivity|].
      split; [|split; [discriminate|]].
      * intros [|j] p Hj.
        -- injection Hj as <-. rewrite Nat.add_0_r, Hg. unfold rejected.
           rewrite Hv. reflexivity.
        -- replace (i + S j)%nat with (S i + j)%nat by lia. apply Hrej. exact Hj.
      * intros _. destruct n; [rewrite Hzero by reflexivity; eexists; reflexivity|].
        apply Hpos. lia.
    + destruct (generate_loop help generate_content max_iterations user_prompt
                              (seq (S i) n) (Some e)) as [r sent'] eqn:Hl.
      intros Heq. injection Heq as -> <-.
      destruct (IH _ _ _ Hl) as (Hm & Hlen & Hrej & Hzero & Hpos).
      split; [exact Hm|]. split; [simpl; rewrite Hlen; reflexivity|].
      split; [|split; [discriminate|]].
      * intros [|j] p Hj.
        -- injection Hj as <-. rewrite Nat.add_0_r, Hg. exact I.
        -- replace (i + S j)%nat with (S i + j)%nat by lia. apply Hrej. exact Hj.
      * intros _. destruct n; [rewrite Hzero by reflexivity; eexists; reflexivity|].
        apply Hpos. lia.
Qed.
End FailureFacts.

(** X27: a failure of [generate_command] is complete: exactly
    [max_iterations] prompts were sent (none when it is below 1), every
    API call raised or returned a command that failed the validation, the
    message names [max_iterations], and [last_error] is set whenever at
    least one iteration ran and is [None] otherwise. *)
Theorem X27_generate_command_failure_complete
    (help : str -> bool * str) (generate_content : nat -> str -> Sonnet.api_outcome)
    (max_iterations : Z) (user_prompt m : str) (last : option str) :
  Sonnet.generate_command help generate_content max_iterations user_prompt
  = Sonnet.GenFailure m last ->
  let sent := Sonnet.prompts_sent help generate_content max_iterations user_prompt in
  m = "Failed to generate valid command after "
        ++ PyStr.int_to_str max_iterations ++ " attempts"
  /\ length sent = Z.to_nat max_iterations
  /\ (forall i p, sent !! i = Some p ->
                  SonnetRun.rejected help (generate_content i p))
  /\ ((max_iterations <= 0)%Z -> last = None)
  /\ ((0 < max_iterations)%Z -> is_Some last).
Proof.
  unfold Sonnet.generate_command, Sonnet.prompts_sent, Sonnet.generate_traced.
  destruct (Sonnet.generate_loop help generate_content max_iterations user_prompt
              (seq 0 (Z.to_nat max_iterations)) None) as [r sent] eqn:Hl.
  cbn [fst snd]. intros ->.
  destruct (generate_loop_failure _ _ _ _ _ _ _ _ _ _ Hl)
    as (Hm & Hlen & Hrej & Hzero & Hpos).
  split; [exact Hm|]. split; [exact Hlen|]. split; [exact Hrej|].
  split; [intros Hle; apply Hzero; lia|intros Hlt; apply Hpos; lia].
Qed.

Lemma X27_generate_command_failure_complete_witness :
  let sent := Sonnet.prompts_sent SonnetSpec.help_always SonnetRun.api_always_raises
                                  2 "list Cloud Run services" in
  ("Failed to generate valid command after 2 attempts" : str)
  = "Failed to generate valid command after "
      ++ PyStr.int_to_str 2 ++ " attempts"
  /\ length sent = Z.to_nat 2
  /\ (forall i p, sent !! i = Some p ->
                  SonnetRun.rejected SonnetSpec.help_always
                                     (SonnetRun.api_always_raises i p))
  /\ ((2 <= 0)%Z -> Some ("503 service unavailable" : str) = None)
  /\ ((0 < 2)%Z -> is_Some (Some ("503 service unavailable" : str))).
Proof.
  apply (X27_generate_command_failure_complete SonnetSpec.help_always
           SonnetRun.api_always_raises 2 "list Cloud Run services").
  vm_compute. reflexivity.
Defined.

Section FirstMatch.
Import PyStr Simplified.

Lemma any_hint_in (t : str) (hints : list str) (h : str) :
  In h hints -> contains h t = true -> any_hint t hints = true.
Proof.
  intros Hh Hc. unfold any_hint. apply existsb_exists. exists h.
  split; [exact Hh|exact Hc].
Qed.

(** A text that mentions an instance is served by one of the first three
    services of the table. *)
Lemma instance_service (text service : str) :
  contains "instance" (lower text) = true ->
  pick_service text = Some service ->
  In service ["cloud_run"; "gke"; "compute"].
Proof.
  intros Hc. unfold pick_service. cbn [SERVICE_HINTS List.find snd].
  destruct (any_hint (lower text) _);
    [intros Heq; injection Heq as <-; left; reflexivity|].
  destruct (any_hint (lower text) _);
    [intros Heq; injection Heq as <-; right; left; reflexivity|].
  rewrite (any_hint_in (lower text) _ "instance");
    [intros Heq; injection Heq as <-; right; right; left; reflexivity| |exact Hc].
  right. right. right. left. reflexivity.
Qed.
End FirstMatch.

(** X28: [pick_service] resolves ambiguity by the order of
    [SERVICE_HINTS]: the service returned has a hint in the lower-cased
    text and no hint of a service listed before it occurs there. So a text
    that mentions an instance is never given to Cloud SQL (or to a later
    service): the hint sql instance cannot decide, since instance is a
    hint of compute. *)
Theorem X28_pick_service_first_match (text service : str) :
  Simplified.pick_service text = Some service ->
  (exists earlier hints later,
     Simplified.SERVICE_HINTS = earlier ++ (service, hints) :: later
     /\ (exists h, In h hints /\ PyStr.contains h (PyStr.lower text) = true)
     /\ forall s' hints' h',
          In (s', hints') earlier -> In h' hints' ->
          PyStr.contains h' (PyStr.lower text) = false)
  /\ (PyStr.contains "instance" (PyStr.lower text) = true ->
      In service ["cloud_run"; "gke"; "compute"]).
Proof.
  intros Hs. split; [|intros Hc; exact (instance_service text service Hc Hs)].
  unfold Simplified.pick_service in Hs.
  destruct (List.find _ Simplified.SERVICE_HINTS) as [[s hints]|] eqn:Hf;
    [|discriminate Hs].
  injection Hs as <-. apply find_first in Hf as (earlier & later & Heq & Hany & Hnone).
  exists earlier, hints, later. split; [exact Heq|]. split.
  - cbn [snd] in Hany. unfold Simplified.any_hint in Hany.
    apply existsb_exists in Hany as (h & Hh & Hc). exists h. split; assumption.
  - intros s' hints' h' Hin Hh. rewrite Forall_forall in Hnone.
    apply list_elem_of_In in Hin. specialize (Hnone _ Hin). cbn [snd] in Hnone.
    apply not_true_is_false. intros Hc.
    rewrite (any_hint_in _ _ h' Hh Hc) in Hnone. discriminate Hnone.
Qed.

Lemma X28_pick_service_first_match_witness :
  (exists earlier hints later,
     Simplified.SERVICE_HINTS = earlier ++ ("compute" : str, hints) :: later
     /\ (exists h, In h hints
                   /\ PyStr.contains h (PyStr.lower "Describe my Cloud SQL instance") = true)
     /\ forall s' hints' h',
          In (s', hints') earlier -> In h' hints' ->
          PyStr.contains h' (PyStr.lower "Describe my Cloud SQL instance") = false)
  /\ (PyStr.contains "instance" (PyStr.lower "Describe my Cloud SQL instance") = true ->
      In ("compute" : str) ["cloud_run"; "gke"; "compute"]).
Proof.
  apply (X28_pick_service_first_match "Describe my Cloud SQL instance" "compute").
  vm_compute. reflexivity.
Defined.

(** ** The template generator as a process *)

Section RunFacts.
Import PyStr SimplifiedRun.

(** No call changes the module-level objects. *)
Lemma pick_service_frame (g : globals) (text : str) : (pick_service text g).2 = g.
Proof. reflexivity. Qed.

Lemma pick_action_frame (g : globals) (service text : str) :
  (pick_action service text g).2 = g.
Proof.
  unfold pick_action. destruct (bool_decide (service = "iam")); [reflexivity|].
  cbv [mbind call_bind global].
  destruct (map fst (List.filter _ (ACTION_HINTS g))); reflexivity.
Qed.

Lemma generate_frame (g : globals) (prompt : str) : (generate prompt g).2 = g.
Proof.
  unfold generate. cbv [mbind call_bind].
  destruct (pick_service prompt g) as [service g'] eqn:Hs.
  pose proof (pick_service_frame g prompt) as Hg. rewrite Hs in Hg. cbn [snd] in Hg.
  subst g'. destruct service as [[|c service]|]; try reflexivity.
  destruct (pick_action (c :: service) prompt g) as [action g'] eqn:Ha.
  pose proof (pick_action_frame g (c :: service) prompt) as Hg.
  rewrite Ha in Hg. cbn [snd] in Hg. subst g'. reflexivity.
Qed.

Lemma session_frame (g : globals) (prompts : list str) : (session prompts g).2 = g.
Proof.
  induction prompts as [|prompt rest IH]; [reflexivity|].
  cbn [session]. cbv [mbind call_bind].
  destruct (generate prompt g) as [out g'] eqn:Hgen.
  pose proof (generate_frame g prompt) as Hg. rewrite Hgen in Hg. cbn [snd] in Hg.
  subst g'. destruct (session rest g) as [outs g'] eqn:Hrest.
  cbn [snd] in IH. subst g'. reflexivity.
Qed.

(** The matched actions, as a set, do not depend on the order in which
    [ACTION_HINTS] is iterated. *)
Lemma matches_order (items : list (str * list str)) (t action : str) :
  items ≡ₚ Simplified.ACTION_HINTS ->
  In action (map fst (List.filter (fun kv => Simplified.any_hint t (snd kv)) items))
  <-> In action (map fst (List.filter (fun kv => Simplified.any_hint t (snd kv))
                                      Simplified.ACTION_HINTS)).
Proof.
  intros Hp. rewrite !in_map_iff. split.
  - intros (kv & Hk & [Hin Hany]%filter_In). exists kv. split; [exact Hk|].
    apply filter_In. split; [|exact Hany]. exact (Permutation_in _ Hp Hin).
  - intros (kv & Hk & [Hin Hany]%filter_In). exists kv. split; [exact Hk|].
    apply filter_In. split; [|exact Hany].
    exact (Permutation_in _ (Permutation_sym Hp) Hin).
Qed.

Lemma find_ext_in {A} (f f' : A -> bool) (l : list A) :
  (forall x, f x = f' x) -> List.find f l = List.find f' l.
Proof.
  intros Hext. induction l as [|x l IH]; [reflexivity|].
  cbn [List.find]. rewrite Hext, IH. reflexivity.
Qed.

(** [pick_action] returns the same action whatever the order in which
    [ACTION_HINTS] is iterated. *)
Lemma pick_action_order (items : list (str * list str)) (service text : str) :
  items ≡ₚ Simplified.ACTION_HINTS ->
  (pick_action service text (loaded_with items)).1
  = Simplified.pick_action service text.
Proof.
  intros Hp. unfold pick_action, Simplified.pick_action.
  destruct (bool_decide (service = "iam")) eqn:Hiam; [reflexivity|].
  apply bool_decide_eq_false in Hiam.
  cbv [mbind call_bind global]. cbn [ACTION_HINTS loaded_with].
  pose proof (fun action => matches_order items (lower text) action Hp) as Hmem.
  change (map fst (List.filter (fun kv => Simplified.any_hint (lower text) (snd kv))
                               Simplified.ACTION_HINTS))
    with (SimplifiedSpec.matches text) in *.
  set (matches := map fst (List.filter _ items)) in *.
  destruct matches as [|m0 rest] eqn:Hm.
  - destruct (SimplifiedSpec.matches text) as [|n0 rest'] eqn:Hm'; [reflexivity|].
    destruct (proj2 (Hmem n0) (or_introl eq_refl)).
  - assert (SimplifiedSpec.matches text <> []) as Hne.
    { intros Hnil. rewrite Hnil in Hmem. exact (proj1 (Hmem m0) (or_introl eq_refl)). }
    destruct (preferred_match_some text Hne) as [pref Hfind].
    assert (List.find (fun p => bool_decide (p ∈ m0 :: rest))
                      Simplified.ACTION_PREFERENCE = Some pref) as Hfind'.
    { rewrite <- Hfind. unfold SimplifiedSpec.preferred_match.
      apply find_ext_in. intros p. apply bool_decide_ext.
      rewrite !list_elem_of_In. apply Hmem. }
    cbn [fst ACTION_PREFERENCE loaded_with]. rewrite Hfind'.
    unfold SimplifiedSpec.preferred_match in Hfind.
    destruct (SimplifiedSpec.matches text) as [|n0 rest'] eqn:Hm'; [contradiction|].
    rewrite Hfind. reflexivity.
Qed.

Lemma generate_order (items : list (str * list str)) (prompt : str) :
  items ≡ₚ Simplified.ACTION_HINTS ->
  (generate prompt (loaded_with items)).1 = Simplified.generate prompt.
Proof.
  intros Hp. unfold generate, Simplified.generate. cbv [mbind call_bind].
  change (pick_service prompt (loaded_with items))
    with (Simplified.pick_service prompt, loaded_with items).
  destruct (Simplified.pick_service prompt) as [[|c service]|]; try reflexivity.
  pose proof (pick_action_order items (c :: service) prompt Hp) as Ha.
  pose proof (pick_action_frame (loaded_with items) (c :: service) prompt) as Hg.
  destruct (pick_action (c :: service) prompt (loaded_with items)) as [action g'].
  cbn [fst snd] in Ha, Hg. subst g' action. reflexivity.
Qed.
End RunFacts.

(** C6: the keyword-to-template heuristic is deterministic: two invocations
    of [generate] on the same text return the same output string, and so do
    two invocations of [pick_service] and of [pick_action].  The
    invocations run in one process, whatever [TEMPLATES], [SERVICE_HINTS],
    [ACTION_HINTS] and [ACTION_PREFERENCE] hold when the first one starts
    and with any number of other invocations of [generate] before and
    between them: none of them changes these objects.  For the tables of
    the module the output is the one of an invocation right after loading,
    whatever the order in which the entries of [ACTION_HINTS] are
    iterated; [SERVICE_HINTS] is iterated in the order of the dict, which
    decides between services. *)
Theorem C6_generate_deterministic
    (g0 : SimplifiedRun.globals) (items : list (str * list str))
    (before between : list str) (text : str) :
  items ≡ₚ Simplified.ACTION_HINTS ->
  let g1 := (SimplifiedRun.session before g0).2 in
  let first := SimplifiedRun.generate text g1 in
  let g2 := (SimplifiedRun.session between first.2).2 in
  let second := SimplifiedRun.generate text g2 in
  first.1 = second.1
  /\ (SimplifiedRun.pick_service text g1).1 = (SimplifiedRun.pick_service text g2).1
  /\ (forall service,
        (SimplifiedRun.pick_action service text g1).1
        = (SimplifiedRun.pick_action service text g2).1)
  /\ second.2 = g0
  /\ (SimplifiedRun.generate text (SimplifiedRun.loaded_with items)).1
     = (SimplifiedRun.generate text SimplifiedRun.loaded).1
  /\ (SimplifiedRun.generate text SimplifiedRun.loaded).1 = Simplified.generate text.
Proof.
  intros Hp g1 first g2 second.
  assert (g1 = g0) as H1 by apply session_frame.
  assert (first.2 = g1) as Hf by apply generate_frame.
  assert (g2 = g0) as H2.
  { unfold g2. rewrite session_frame, Hf. exact H1. }
  assert (second = first) as Hs by (unfold second, first; rewrite H2, H1; reflexivity).
  split; [rewrite Hs; reflexivity|]. split; [rewrite H2, H1; reflexivity|].
  split; [intros service; rewrite H2, H1; reflexivity|].
  split; [rewrite Hs, Hf; exact H1|].
  assert ((SimplifiedRun.generate text SimplifiedRun.loaded).1
          = Simplified.generate text) as Hl.
  { apply (generate_order Simplified.ACTION_HINTS text). reflexivity. }
  split; [|exact Hl].
  rewrite Hl. exact (generate_order items text Hp).
Qed.

Lemma C6_generate_deterministic_witness :
  let text : str := "tail the logs of my Cloud Run service" in
  let g0 := SimplifiedRun.loaded in
  let g1 := (SimplifiedRun.session ["list my buckets"] g0).2 in
  let first := SimplifiedRun.generate text g1 in
  let g2 := (SimplifiedRun.session ["who has access"; "describe my GKE cluster"]
                                   first.2).2 in
  let second := SimplifiedRun.generate text g2 in
  first.1 = second.1
  /\ (SimplifiedRun.pick_service text g1).1 = (SimplifiedRun.pick_service text g2).1
  /\ (forall service,
        (SimplifiedRun.pick_action service text g1).1
        = (SimplifiedRun.pick_action service text g2).1)
  /\ second.2 = g0
  /\ (SimplifiedRun.generate
        text (SimplifiedRun.loaded_with (rev Simplified.ACTION_HINTS))).1
     = (SimplifiedRun.generate text SimplifiedRun.loaded).1
  /\ (SimplifiedRun.generate text SimplifiedRun.loaded).1 = Simplified.generate text.
Proof.
  apply (C6_generate_deterministic SimplifiedRun.loaded (rev Simplified.ACTION_HINTS)).
  symmetry. apply Permutation_rev.
Defined.

(** ** The flag check and the renderer of the index-based generator *)

Section WideFlagFacts.
Import PyStr CmdGen.

(** Collecting flags only adds to the gcloud-wide flags. *)
Lemma legal_flags_grow (out : str) (key : str) :
  key ∈ GCLOUD_WIDE_FLAGS -> key ∈ legal_flags out.
Proof.
  unfold legal_flags. generalize GCLOUD_WIDE_FLAGS as flags.
  induction (section_flags out) as [|f l IH]; intros flags Hin; [exact Hin|].
  cbn [foldl]. apply IH. apply elem_of_union. left. exact Hin.
Qed.

Lemma unknown_flags_not_legal (legal : gset str) (tokens : list str) (key : str) :
  In key (unknown_flags legal tokens) -> key ∉ legal.
Proof.
  unfold unknown_flags. intros [_ Hk]%filter_In.
  apply negb_true_iff, bool_decide_eq_false in Hk. exact Hk.
Qed.

Lemma unknown_flags_all_legal (legal : gset str) (tokens : list str) :
  (forall t, In t tokens -> is_long_option t = true -> flag_key t ∈ legal) ->
  unknown_flags legal tokens = [].
Proof.
  intros Hall. unfold unknown_flags. apply filter_not_in_nil.
  apply Forall_forall. intros key Hkey. apply list_elem_of_In in Hkey.
  apply in_map_iff in Hkey as (t & <- & [Ht Hlong]%filter_In).
  exact (Hall t Ht Hlong).
Qed.
End WideFlagFacts.

(** C9: [validate_command_string] never reports a gcloud-wide flag as
    unknown: when the command string is split and the help call returns
    code 0, no flag of [GCLOUD_WIDE_FLAGS] is in the list [unknown], and a
    command all of whose flags (the tokens that start with two hyphens,
    cut at their first [=]) are wide flags validates as (True, OK). *)
Theorem C9_wide_flags_never_unknown
    (shlex_split : str -> option (list str)) (run : list str -> Z * str * str)
    (repr : list str -> str) (cmd_str : str) (tokens : list str) (out err : str) :
  shlex_split cmd_str = Some tokens ->
  run (CmdGen.base_of tokens ++ ["--help"]) = (0%Z, out, err) ->
  (forall key,
     key ∈ CmdGen.GCLOUD_WIDE_FLAGS ->
     ~ In key (CmdGen.unknown_flags (CmdGen.legal_flags out) tokens))
  /\ (forall message,
        CmdGen.validate_command_string shlex_split run repr cmd_str
        = Some (false, message) ->
        message
        = "Unknown flags for " ++ repr (CmdGen.base_of tokens) ++ ": "
            ++ PyStr.join ", "
                 (PyStr.sorted
                    (elements
                       (list_to_set
                          (CmdGen.unknown_flags (CmdGen.legal_flags out) tokens)
                        : gset str))))
  /\ ((forall t, In t tokens -> CmdGen.is_long_option t = true ->
                 CmdGen.flag_key t ∈ CmdGen.GCLOUD_WIDE_FLAGS) ->
      CmdGen.validate_command_string shlex_split run repr cmd_str
      = Some (true, "OK")).
Proof.
  intros Hsplit Hrun.
  assert (CmdGen.validate_command_string shlex_split run repr cmd_str
          = match CmdGen.unknown_flags (CmdGen.legal_flags out) tokens with
            | _ :: _ =>
                Some (false,
                      "Unknown flags for " ++ repr (CmdGen.base_of tokens) ++ ": "
                        ++ PyStr.join ", "
                             (PyStr.sorted
                                (elements
                                   (list_to_set
                                      (CmdGen.unknown_flags (CmdGen.legal_flags out)
                                                            tokens)
                                    : gset str))))
            | [] => Some (true, "OK")
            end) as Hv.
  { unfold CmdGen.validate_command_string. rewrite Hsplit. cbn [mbind option_bind].
    rewrite Hrun. rewrite bool_decide_eq_false_2 by (intros Hne; apply Hne; reflexivity).
    destruct (CmdGen.unknown_flags (CmdGen.legal_flags out) tokens); reflexivity. }
  split; [|split].
  - intros key Hwide Hin.
    apply (unknown_flags_not_legal _ _ _ Hin), legal_flags_grow, Hwide.
  - intros message. rewrite Hv.
    destruct (CmdGen.unknown_flags (CmdGen.legal_flags out) tokens);
      intros Heq; [discriminate Heq|]. injection Heq as <-. reflexivity.
  - intros Hall. rewrite Hv.
    rewrite unknown_flags_all_legal; [reflexivity|].
    intros t Ht Hlong. apply legal_flags_grow, Hall; assumption.
Qed.

Lemma C9_wide_flags_never_unknown_witness :
  CmdGen.validate_command_string CmdGenSpec.shlex_words CmdGenSpec.run_sample_help
    CmdGenSpec.repr_words
    "gcloud run services list --project=my-project --format=json --quiet"
  = Some (true, "OK").
Proof.
  refine (proj2 (proj2 (C9_wide_flags_never_unknown
                          CmdGenSpec.shlex_words CmdGenSpec.run_sample_help
                          CmdGenSpec.repr_words
                          "gcloud run services list --project=my-project --format=json --quiet"
                          ["gcloud"; "run"; "services"; "list";
                           "--project=my-project"; "--format=json"; "--quiet"]
                          CmdGenSpec.sample_help "" _ _)) _).
  - vm_compute. reflexivity.
  - reflexivity.
  - intros t Ht Hlong. cbn [In] in Ht.
    repeat (destruct Ht as [<-|Ht]; [first [discriminate Hlong|vm_compute; tauto]|]).
    destruct Ht.
Defined.

(** C1, where the code departs from the claim: the help text
    [sample_help] has a FLAGS section that lists the flag --region on an
    indented line.  The FLAGS-section parsing finds the section and the
    line, and its pattern matches the line as it stands; but the pattern,
    which asks for leading whitespace, is tried on the stripped line, so
    no flag is collected: --region is missing from the flags of
    [parse_help_for_command] and from the legal flags of
    [validate_command_string]. *)
Theorem C1_flags_section_not_scraped :
  (exists flags_block,
     CmdGen.search_flags_block CmdGenSpec.sample_help = Some flags_block
     /\ In ("     --region=REGION" : str) (PyStr.splitlines flags_block))
  /\ CmdGen.flag_line_match "     --region=REGION" = Some ("--region" : str)
  /\ CmdGen.flag_line_match (PyStr.strip "     --region=REGION") = None
  /\ CmdGen.section_flags CmdGenSpec.sample_help = []
  /\ ~ In ("--region" : str) (CmdGen.parse_help_flags CmdGenSpec.sample_help)
  /\ ("--region" : str) ∉ CmdGen.legal_flags CmdGenSpec.sample_help.
Proof.
  split; [|split; [|split; [|split; [|split]]]].
  - eexists. split; [vm_compute; reflexivity|]. vm_compute. right. left. reflexivity.
  - vm_compute. reflexivity.
  - vm_compute. reflexivity.
  - vm_compute. reflexivity.
  - rewrite parse_help_flags_wide. cbn [In]. intros H.
    repeat (destruct H as [H|H]; [discriminate H|]). exact H.
  - rewrite legal_flags_wide. unfold CmdGen.GCLOUD_WIDE_FLAGS.
    rewrite !elem_of_union, !elem_of_singleton.
    intros [[[[[H|H]|H]|H]|H]|H]; discriminate H.
Qed.

Section RenderShape.
Import PyStr CmdGen.

Lemma if_snoc {A} (b : bool) (l : list A) (x : A) :
  (if b then l ++ [x] else l) = l ++ (if b then [x] else []).
Proof. destruct b; [reflexivity|rewrite app_nil_r; reflexivity]. Qed.

(** The tokens appended for the preferred flags. *)
Lemma preferred_flag_tokens (flags cmd : list str) :
  foldl (fun cmd fl =>
           if member fl flags then cmd ++ [fl ++ "=" ++ placeholder fl] else cmd)
        cmd preferred_flags
  = cmd ++ (if member "--region" flags then ["--region=<REGION>"] else [])
        ++ (if member "--zone" flags then ["--zone=<ZONE>"] else [])
        ++ (if member "--location" flags then ["--location=<LOCATION>"] else [])
        ++ (if member "--project" flags then ["--project=<PROJECT_ID>"] else []).
Proof.
  cbn [foldl preferred_flags]. rewrite !if_snoc, <- !app_assoc. reflexivity.
Qed.

Lemma flag_tokens_no_format (flags : list str) :
  forallb (fun a => negb (startswith "--format" a))
          ((if member "--region" flags then ["--region=<REGION>"] else [])
             ++ (if member "--zone" flags then ["--zone=<ZONE>"] else [])
             ++ (if member "--location" flags then ["--location=<LOCATION>"] else [])
             ++ (if member "--project" flags then ["--project=<PROJECT_ID>"] else []))
  = true.
Proof.
  destruct (member "--region" flags), (member "--zone" flags),
    (member "--location" flags), (member "--project" flags); reflexivity.
Qed.
(** The last step of [render_command], the check for --format looking at
    the path tokens only. *)
Lemma render_tail (b : bool) (pre path_tokens pos ft : list str) :
  forallb (fun a => negb (startswith "--format" a)) pre = true ->
  forallb (fun a => negb (startswith "--format" a)) pos = true ->
  forallb (fun a => negb (startswith "--format" a)) ft = true ->
  (if b && forallb (fun a => negb (startswith "--format" a))
                   (((pre ++ path_tokens) ++ pos) ++ ft)
   then (((pre ++ path_tokens) ++ pos) ++ ft) ++ ["--format=json"]
   else ((pre ++ path_tokens) ++ pos) ++ ft)
  = pre ++ path_tokens ++ pos ++ ft
      ++ (if b && forallb (fun a => negb (startswith "--format" a)) path_tokens
          then ["--format=json"] else []).
Proof.
  intros Hpre Hpos Hft. rewrite !forallb_app, Hpre, Hpos, Hft.
  cbn [andb]. rewrite !andb_true_r, if_snoc, <- !app_assoc. reflexivity.
Qed.
(** The tokens of a rendered command. *)
Lemma render_command_tokens (spec : CommandSpec) :
  render_command spec
  = join " "
      (["gcloud"]
         ++ (if member (release spec) ["beta"; "alpha"] then [release spec] else [])
         ++ split_ws (path spec)
         ++ map (fun pos => "<" ++ lower pos ++ ">") (take 2 (positionals spec))
         ++ ((if member "--region" (flags spec) then ["--region=<REGION>"] else [])
               ++ (if member "--zone" (flags spec) then ["--zone=<ZONE>"] else [])
               ++ (if member "--location" (flags spec)
                   then ["--location=<LOCATION>"] else [])
               ++ (if member "--project" (flags spec)
                   then ["--project=<PROJECT_ID>"] else []))
         ++ (if member "--format" (flags spec)
                && forallb (fun a => negb (startswith "--format" a))
                           (split_ws (path spec))
             then ["--format=json"] else [])).
Proof.
  unfold render_command.
  assert ((if member (release spec) ["beta"; "alpha"]
           then ["gcloud"] ++ [release spec] else ["gcloud"])
          = ["gcloud"]
              ++ (if member (release spec) ["beta"; "alpha"] then [release spec] else []))
    as ->.
  { destruct (member _ _); reflexivity. }
  rewrite (foldl_snoc_map (fun pos => "<" ++ lower pos ++ ">")).
  rewrite preferred_flag_tokens.
  apply (f_equal (join " ")).
  apply (render_tail (member "--format" (flags spec))
                     (["gcloud"] ++ (if member (release spec) ["beta"; "alpha"]
                                     then [release spec] else []))).
  - cbn [forallb app]. apply release_token_no_format.
  - apply placeholders_no_format.
  - apply flag_tokens_no_format.
Qed.
End RenderShape.

(** C8: for every [CommandSpec], [render_command] emits gcloud, then the
    release token only when the release is beta or alpha, then the tokens
    of the command path, then at most the first two positionals, each as
    its lower-cased name in angle brackets, then each of --region, --zone,
    --location and --project that is among the flags of the spec, with its
    placeholder <REGION>, <ZONE>, <LOCATION>, <PROJECT_ID>, and last
    --format=json when --format is among the flags and not already there
    (only a path token can start with --format); the tokens are joined by
    single spaces. *)
Theorem C8_render_command_shape (spec : CmdGen.CommandSpec) :
  let supports := fun fl : str => CmdGen.member fl (CmdGen.flags spec) in
  let release_token :=
    if CmdGen.member (CmdGen.release spec) ["beta"; "alpha"]
    then [CmdGen.release spec] else [] in
  let path_tokens := PyStr.split_ws (CmdGen.path spec) in
  let positional_tokens :=
    map (fun pos => "<" ++ PyStr.lower pos ++ ">") (take 2 (CmdGen.positionals spec)) in
  let flag_tokens :=
    (if supports "--region" then ["--region=<REGION>"] else [])
      ++ (if supports "--zone" then ["--zone=<ZONE>"] else [])
      ++ (if supports "--location" then ["--location=<LOCATION>"] else [])
      ++ (if supports "--project" then ["--project=<PROJECT_ID>"] else []) in
  let format_token :=
    if supports "--format"
       && forallb (fun a => negb (PyStr.startswith "--format" a)) path_tokens
    then ["--format=json"] else [] in
  CmdGen.render_command spec
  = PyStr.join " "
      (["gcloud"] ++ release_token ++ path_tokens ++ positional_tokens
         ++ flag_tokens ++ format_token)
  /\ (length positional_tokens <= 2)%nat
  /\ length positional_tokens = Nat.min 2 (length (CmdGen.positionals spec)).
Proof.
  intros supports release_token path_tokens positional_tokens flag_tokens
         format_token.
  split; [apply render_command_tokens|].
  - unfold positional_tokens. rewrite length_map, length_take. split; lia.
Qed.



(** ** The scores and the choice of candidates *)

Section SortedFacts.
Context {A : Type} (R : A -> A -> Prop).

Lemma StronglySorted_app_parts (l1 l2 : list A) :
  StronglySorted R (l1 ++ l2) ->
  StronglySorted R l1
  /\ forall x y, In x l1 -> In y l2 -> R x y.
Proof.
  induction l1 as [|a l1 IH]; cbn [app].
  - intros _. split; [constructor|intros x y []].
  - intros Hs. apply StronglySorted_inv in Hs as [Hs Hall].
    destruct (IH Hs) as [Hs1 Hcross]. split.
    + constructor; [exact Hs1|]. rewrite List.Forall_forall in *.
      intros x Hx. apply Hall, in_or_app. left. exact Hx.
    + intros x y [<-|Hx] Hy.
      * rewrite List.Forall_forall in Hall. apply Hall, in_or_app. right. exact Hy.
      * exact (Hcross x y Hx Hy).
Qed.

Lemma StronglySorted_lookup_lt (l : list A) (i j : nat) (x y : A) :
  StronglySorted R l -> (i < j)%nat ->
  l !! i = Some x -> l !! j = Some y -> R x y.
Proof.
  intros Hs. revert i j. induction Hs as [|a l Hs IH Hall]; intros i j Hij Hi Hj.
  - discriminate Hi.
  - destruct j as [|j]; [lia|]. cbn in Hj. destruct i as [|i].
    + injection Hi as <-. rewrite List.Forall_forall in Hall.
      apply Hall. apply list_elem_of_In. exact (list_elem_of_lookup_2 _ _ _ Hj).
    + cbn in Hi. apply (IH i j); [lia|exact Hi|exact Hj].
Qed.
End SortedFacts.

Section ScoreOrder.
Import PyStr CmdGen.
Context {F : Type} `{FloatOps F}.
Hypothesis flt_asym : forall a b : F, flt a b = true -> flt b a = false.
Hypothesis flt_chain :
  forall a b c : F, flt a b = false -> flt b c = false -> flt a c = false.

(** No smaller than: the order the sorted list is in. *)
Local Abbreviation not_below := (fun x y : _ * F => flt (snd x) (snd y) = false).

Lemma flt_irrefl (a : F) : flt a a = false.
Proof.
  destruct (flt a a) eqn:Ha; [|reflexivity].
  pose proof (flt_asym a a Ha) as Hn. congruence.
Qed.

Lemma insert_desc_sorted {A} (x : A * F) (l : list (A * F)) :
  StronglySorted not_below l -> StronglySorted not_below (insert_desc x l).
Proof.
  intros Hs. induction Hs as [|y l Hs IH Hall]; cbn [insert_desc].
  - constructor; constructor.
  - destruct (flt (snd x) (snd y)) eqn:Hxy.
    + constructor; [exact IH|]. rewrite List.Forall_forall in *.
      intros z Hz. apply (Permutation_in _ (insert_desc_perm x l)) in Hz.
      destruct Hz as [<-|Hz]; [exact (flt_asym _ _ Hxy)|exact (Hall z Hz)].
    + constructor; [constructor; assumption|].
      constructor; [exact Hxy|]. rewrite List.Forall_forall in *.
      intros z Hz. exact (flt_chain _ _ _ Hxy (Hall z Hz)).
Qed.

Lemma sort_desc_sorted {A} (l : list (A * F)) :
  StronglySorted not_below (sort_desc l).
Proof.
  induction l as [|x l IH]; [constructor|].
  cbn [sort_desc foldr]. apply insert_desc_sorted. exact IH.
Qed.

(** The head of the sorted list is no smaller than any element. *)
Lemma sort_desc_head {A} (l : list (A * F)) (c e : A * F) :
  head (sort_desc l) = Some c -> In e l -> flt (snd c) (snd e) = false.
Proof.
  intros Hhead He. pose proof (sort_desc_sorted l) as Hs.
  apply (Permutation_in _ (Permutation_sym (sort_desc_perm l))) in He.
  destruct (sort_desc l) as [|c' rest]; [discriminate Hhead|].
  injection Hhead as ->. apply StronglySorted_inv in Hs as [_ Hall].
  destruct He as [<-|He]; [apply flt_irrefl|].
  rewrite List.Forall_forall in Hall. exact (Hall e He).
Qed.
End ScoreOrder.

Section ScoreFormula.
Import PyStr CmdGen.
Context {F : Type} `{FloatOps F}.

(** The prompt has a verb. *)
Lemma prompt_verbs_nonempty (prompt_tokens : list str) :
  verbs ∩ list_to_set prompt_tokens ≠ (∅ : gset str)
  <-> exists w, In w prompt_tokens /\ w ∈ verbs.
Proof.
  split.
  - intros Hne. apply set_choose_L in Hne as [w Hw].
    apply elem_of_intersection in Hw as [Hv Hp].
    apply elem_of_list_to_set, list_elem_of_In in Hp. exists w. split; assumption.
  - intros (w & Hp & Hv) Hempty.
    assert (w ∈ verbs ∩ (list_to_set prompt_tokens : gset str)) as Hin.
    { apply elem_of_intersection. split; [exact Hv|].
      apply elem_of_list_to_set, list_elem_of_In, Hp. }
    rewrite Hempty in Hin. exact (not_elem_of_empty w Hin).
Qed.

Lemma filter_is_verb_head (path_tokens : list str) (v : str) (rest : list str) :
  List.filter is_verb path_tokens = v :: rest -> v ∈ verbs.
Proof.
  intros Hf. assert (In v (List.filter is_verb path_tokens)) as Hin
    by (rewrite Hf; left; reflexivity).
  apply filter_In in Hin as [_ Hv]. apply bool_decide_eq_true in Hv. exact Hv.
Qed.
End ScoreFormula.

(** C3: [choose_candidates] returns the top K pairs of a spec and its
    score in descending score order (for K at least 0, floats compared by
    a strict order without NaN): it returns [min(K, len(index))] pairs of
    the index entries with their [score_candidate] scores, none of them
    scored below an entry left out, each no lower than the ones after it,
    the first with a maximal score over the whole index.  And
    [score_candidate] is 0.55 times the Jaccard overlap of the tokens
    that are not verbs, plus 0.35 times the ratio of the joined prompt
    tokens against the path, plus a verb bonus: 0.5 when the first verb of
    the path is among the prompt tokens, 0.35 when it is not but prompt
    and path both hold a verb, and 0 otherwise. *)
Theorem C3_choose_candidates_top_scores {F : Type} `{CmdGen.FloatOps F}
    (ratio : str -> str -> F) (index : list (str * CmdGen.CommandSpec))
    (prompt : str) (topk : Z) :
  (forall a b : F, CmdGen.flt a b = true -> CmdGen.flt b a = false) ->
  (forall a b c : F,
     CmdGen.flt a b = false -> CmdGen.flt b c = false -> CmdGen.flt a c = false) ->
  (0 <= topk)%Z ->
  let tokens := CmdGen.canonicalize_tokens (CmdGen.tokenize prompt) in
  let score := fun path : str => CmdGen.score_candidate ratio tokens path in
  let chosen := CmdGen.choose_candidates ratio index prompt topk in
  length chosen = Nat.min (Z.to_nat topk) (length index)
  /\ (exists rest,
        Permutation (chosen ++ rest) (map (fun e => (snd e, score (fst e))) index)
        /\ forall c r, In c chosen -> In r rest -> CmdGen.flt (snd c) (snd r) = false)
  /\ (forall i j c d,
        (i < j)%nat -> chosen !! i = Some c -> chosen !! j = Some d ->
        CmdGen.flt (snd c) (snd d) = false)
  /\ (forall c,
        head chosen = Some c ->
        forall e, In e index -> CmdGen.flt (snd c) (score (fst e)) = false)
  /\ (forall (prompt_tokens : list str) (candidate_path : str),
        let path_tokens := PyStr.split_ws candidate_path in
        let path_verb := List.filter CmdGen.is_verb path_tokens in
        let pt : gset str :=
          list_to_set (List.filter (fun t => negb (CmdGen.is_verb t)) prompt_tokens) in
        let ct : gset str :=
          list_to_set (List.filter (fun t => negb (CmdGen.is_verb t)) path_tokens) in
        exists verb_bonus : F,
          CmdGen.score_candidate ratio prompt_tokens candidate_path
          = CmdGen.fadd
              (CmdGen.fadd
                 (CmdGen.fmul CmdGen.f_0_55
                    (CmdGen.truediv (size (pt ∩ ct)) (Nat.max 1 (size (pt ∪ ct)))))
                 (CmdGen.fmul CmdGen.f_0_35
                    (ratio (PyStr.join " " prompt_tokens) candidate_path)))
              verb_bonus
          /\ (forall v, head path_verb = Some v -> In v prompt_tokens ->
                        verb_bonus = CmdGen.f_0_5)
          /\ (forall v, head path_verb = Some v -> ~ In v prompt_tokens ->
                        (exists w, In w prompt_tokens /\ w ∈ CmdGen.verbs) ->
                        verb_bonus = CmdGen.f_0_35)
          /\ (path_verb = []
              \/ (forall w, In w prompt_tokens -> w ∉ CmdGen.verbs) ->
              verb_bonus = CmdGen.f_0_0)).
Proof.
  intros Hasym Hchain Hk tokens score chosen.
  set (scored := map (fun e => (snd e, score (fst e))) index).
  assert (chosen = take (Z.to_nat topk) (CmdGen.sort_desc scored)) as Hchosen.
  { unfold chosen, CmdGen.choose_candidates, CmdGen.slice_to.
    destruct (topk <? 0)%Z eqn:Hneg; [lia|reflexivity]. }
  pose proof (sort_desc_sorted Hasym Hchain scored) as Hsorted.
  rewrite <- (take_drop (Z.to_nat topk) (CmdGen.sort_desc scored)) in Hsorted.
  rewrite <- Hchosen in Hsorted.
  apply StronglySorted_app_parts in Hsorted as [Hs Hcross].
  split; [|split; [|split; [|split]]].
  - rewrite Hchosen, length_take, (Permutation_length (sort_desc_perm scored)).
    unfold scored. rewrite length_map. reflexivity.
  - exists (drop (Z.to_nat topk) (CmdGen.sort_desc scored)). split.
    + rewrite Hchosen, take_drop. apply sort_desc_perm.
    + exact Hcross.
  - intros i j c d Hij Hi Hj.
    exact (StronglySorted_lookup_lt _ chosen i j c d Hs Hij Hi Hj).
  - intros c Hhead e He.
    assert (head (CmdGen.sort_desc scored) = Some c) as Hh.
    { rewrite Hchosen in Hhead. destruct (Z.to_nat topk); [discriminate Hhead|].
      destruct (CmdGen.sort_desc scored); [discriminate Hhead|exact Hhead]. }
    apply (sort_desc_head Hasym Hchain scored c (snd e, score (fst e)) Hh).
    unfold scored. apply in_map_iff. exists e. split; [reflexivity|exact He].
  - intros prompt_tokens candidate_path path_tokens path_verb pt ct.
    unfold CmdGen.score_candidate. fold path_tokens. fold path_verb. fold pt ct.
    eexists. split; [reflexivity|].
    destruct path_verb as [|v0 rest] eqn:Hpv.
    + split; [intros v Hv; discriminate Hv|]. split; [intros v Hv; discriminate Hv|].
      reflexivity.
    + pose proof (filter_is_verb_head path_tokens v0 rest Hpv) as Hverb.
      split; [|split].
      * intros v Hv Hin. injection Hv as <-.
        rewrite bool_decide_eq_true_2.
        -- rewrite bool_decide_eq_true_2; [reflexivity|].
           apply elem_of_intersection. split; [exact Hverb|].
           apply elem_of_list_to_set, list_elem_of_In, Hin.
        -- apply prompt_verbs_nonempty. exists v0. split; assumption.
      * intros v Hv Hnot Hsome. injection Hv as <-.
        rewrite bool_decide_eq_true_2 by (apply prompt_verbs_nonempty; exact Hsome).
        rewrite (bool_decide_eq_false_2 (v0 ∈ _)); [reflexivity|].
        intros [_ Hp]%elem_of_intersection.
        apply Hnot, list_elem_of_In. apply elem_of_list_to_set in Hp. exact Hp.
      * intros [Hnil|Hnone]; [discriminate Hnil|].
        rewrite bool_decide_eq_false_2; [reflexivity|].
        intros Hne. apply Hne. apply set_eq. intros w. split.
        -- intros [Hv Hp]%elem_of_intersection.
           apply elem_of_list_to_set, list_elem_of_In in Hp.
           contradiction (Hnone w Hp Hv).
        -- intros Hw. contradiction (not_elem_of_empty w Hw).
Qed.

Lemma C3_choose_candidates_top_scores_witness :
  let tokens := CmdGen.canonicalize_tokens (CmdGen.tokenize "list my cloud run services") in
  let score := fun path : str =>
    @CmdGen.score_candidate Z CmdGenSpec.thousandths CmdGenSpec.ratio_equal tokens path in
  let chosen :=
    @CmdGen.choose_candidates Z CmdGenSpec.thousandths CmdGenSpec.ratio_equal
      CmdGenSpec.sample_index "list my cloud run services" 1 in
  length chosen = Nat.min (Z.to_nat 1) (length CmdGenSpec.sample_index)
  /\ (forall c,
        head chosen = Some c ->
        forall e, In e CmdGenSpec.sample_index ->
                  (snd c <? score (fst e))%Z = false).
Proof.
  intros tokens score chosen.
  destruct (@C3_choose_candidates_top_scores Z CmdGenSpec.thousandths
              CmdGenSpec.ratio_equal CmdGenSpec.sample_index
              "list my cloud run services" 1)
    as (Hlen & _ & _ & Hmax & _).
  - intros a b Hab. apply Z.ltb_lt in Hab. apply Z.ltb_ge. lia.
  - intros a b c Hab Hbc. apply Z.ltb_ge in Hab, Hbc. apply Z.ltb_ge. lia.
  - lia.
  - split; [exact Hlen|exact Hmax].
Defined.
